(** * The Sourcegraph control-plane client of the zoekt index server

    A shallow embedding of the client that tells an index-server replica
    which repositories to index and with which options: the batched,
    fingerprint-gated resolution of index options ([List] and the iteration
    closure it returns), the forced variant ([ForceIterateIndexOptions]),
    the conversions between [indexOptionsItem] and its wire message, and
    the file-system fake with its deterministic repository IDs ([fakeID]).

    The file has three parts: the program, then the vocabulary of the
    statements together with a scripted control plane to run the program
    on, then the properties.

    Conventions of the embedding.
    - Go's fixed-width integers are values of [Z]; every conversion and every
      operation that can wrap is written with its wrap-around ([GoInt]).
    - A Go slice or map whose nil-ness is observable is an [option]:
      [None] is nil, [Some] holds the elements.  Maps are [gmap]s.
    - [error] values are their messages.  A function returning [(T, error)]
      returns a [result T].
    - Everything outside the process (the HTTP and RPC peers, the clock, the
      random source) lives in a world of an arbitrary type [W] that is
      threaded through every call; the receiver [s *sourcegraphClient] is
      threaded as a value next to it.
    - A callback is a function on the state [C] of whoever passed it.
    - Metrics and trace spans are write-only observability and are left out;
      so is the context argument, which the resolver only hands on. *)

From Stdlib Require Import ZArith Lia Ascii String DecimalString.
From stdpp Require Import gmap strings list.

Open Scope Z_scope.

(** ** Go integers *)

Module GoInt.
Definition uint8 (x : Z) : Z := x mod 2^8.
Definition uint32 (x : Z) : Z := x mod 2^32.
Definition int32 (x : Z) : Z := (x + 2^31) mod 2^32 - 2^31.
Definition int64 (x : Z) : Z := (x + 2^63) mod 2^64 - 2^63.

(** [strconv.Itoa] *)
Definition Itoa (x : Z) : string := NilZero.string_of_int (Z.to_int x).
End GoInt.

(** The width of Go's int: 32 or 64 bits, by platform. *)
Class GoArch : Type := {
  intBits : Z;
  intBits_cases : intBits = 32 \/ intBits = 64;
}.

(** The conversion [int(x)]. *)
Definition Go_int `{GoArch} (x : Z) : Z :=
  (x + 2^(intBits - 1)) mod 2^intBits - 2^(intBits - 1).

Definition isInt `{GoArch} (x : Z) : Prop :=
  - 2^(intBits - 1) <= x < 2^(intBits - 1).

(** ** Results *)

Definition error : Type := string.

Inductive result (A : Type) : Type :=
| Ok (a : A)
| Err (e : error).
Arguments Ok {A} a.
Arguments Err {A} e.

Definition isOk {A} (r : result A) : bool :=
  match r with Ok _ => true | Err _ => false end.

(** A slice or map that may be nil, ranged over. *)
Definition elems {A} (s : option (list A)) : list A := default [] s.

(** ** hash/crc32, IEEE polynomial, bit by bit *)

Module CRC32.
Definition IEEE : Z := 0xedb88320.

Definition step (crc : Z) : Z :=
    if Z.testbit crc 0 then Z.lxor (Z.shiftr crc 1) IEEE else Z.shiftr crc 1.

Definition update_byte (crc : Z) (b : ascii) : Z :=
    Nat.iter 8 step (Z.lxor crc (Z.of_nat (nat_of_ascii b))).

Fixpoint update (crc : Z) (p : string) : Z :=
    match p with
    | EmptyString => crc
    | String b rest => update (update_byte crc b) rest
    end.

Definition ChecksumIEEE (p : string) : Z :=
    Z.lxor (update 0xffffffff p) 0xffffffff.
End CRC32.

(** [fakeID] returns a deterministic ID based on name.  The arithmetic is
    uint32 arithmetic: the untyped constant [1<<31-1] takes the type of the
    checksum. *)
Definition fakeID (name : string) : Z :=
  GoInt.uint32 (GoInt.uint32 (CRC32.ChecksumIEEE name mod (2^31 - 1)) + 1).

(** ** Data model *)

(** Modelled from the spec: a "(branch name, resolved commit)" pair; the
    declaration is not among the sources. *)
Module zoekt.
Record RepositoryBranch : Type := {
    Name : string;
    Version : string;
  }.
End zoekt.

(** Modelled from the spec: the wire messages are "typed request/response"
    records whose declarations are generated code outside the sources; the
    fields kept are the ones the client reads through getters or sets, with
    the Go types the conversions show.  A getter returns the field. *)
Module proto.
Module branch.
Record ZoektRepositoryBranch : Type := {
  Name : string;
  Version : string;
}.
End branch.

(** [Ctags] is the enum [CTagsParserType], an int32 on the Go side. *)
Record LanguageMapping : Type := {
  Language : string;
  Ctags : Z;
}.

Record ZoektIndexOptions : Type := {
  RepoId : Z;                                   (* int32 *)
  LargeFiles : option (list string);
  Symbols : bool;
  Branches : option (list branch.ZoektRepositoryBranch);
  Name : string;
  Priority : Z;                                 (* float64, its bit pattern *)
  DocumentRanksVersion : string;
  Public : bool;
  Fork : bool;
  Archived : bool;
  Error : string;
  LanguageMap : option (list LanguageMapping);
}.

(** Modelled from the spec: the RPC fingerprint is "an opaque structured
    token", "returned and passed verbatim"; the declaration of the message
    is generated code that is not among the sources.  The client only
    copies the pointer, [None] being the nil pointer. *)
Record Fingerprint : Type := {
  Identifier : Z;
  GeneratedAt : Z;
}.

Record SearchConfigurationRequest : Type := {
  RepoIds : list Z;                             (* []int32 *)
  ReqFingerprint : option Fingerprint;
}.

Record SearchConfigurationResponse : Type := {
  UpdatedOptions : list ZoektIndexOptions;
  RespFingerprint : option Fingerprint;
}.

Record ListRequest : Type := {
  Hostname : string;
  IndexedIds : list Z;                          (* []int32 *)
}.

Record ListResponse : Type := {
  ListRepoIds : list Z;                         (* []int32 *)
}.

(** The interface [ZoektConfigurationServiceClient], restricted to the two
    calls of the index-options resolver. *)
Record ZoektConfigurationServiceClient (W : Type) : Type := {
  SearchConfiguration :
    SearchConfigurationRequest -> W -> result SearchConfigurationResponse * W;
  List : ListRequest -> W -> result ListResponse * W;
}.
Arguments SearchConfiguration {W} _ _ _.
Arguments List {W} _ _ _.
End proto.

(** Modelled from the spec: [IndexOptions] is "what/how to index one
    repository: repository ID, display name, clone locator, set of (branch
    name, resolved commit) pairs to index, symbol-extraction flag,
    oversized-file handling flag, per-language parser selection, a priority
    value, a document-ranks version token, and visibility/fork/archived
    flags".  The declaration is not among the sources; names and types are
    the ones the conversions below and the fake read and write. *)
Record IndexOptions : Type := {
  LargeFiles : option (list string);
  Symbols : bool;
  Branches : option (list zoekt.RepositoryBranch);
  RepoID : Z;                                     (* uint32 *)
  Name : string;
  CloneURL : string;
  Priority : Z;                                   (* float64, its bit pattern *)
  DocumentRanksVersion : string;
  Public : bool;
  Fork : bool;
  Archived : bool;
  LanguageMap : option (gmap string Z);           (* map[string]uint8 *)
}.

Definition zeroIndexOptions : IndexOptions := {|
  LargeFiles := None; Symbols := false; Branches := None; RepoID := 0;
  Name := ""; CloneURL := ""; Priority := 0; DocumentRanksVersion := "";
  Public := false; Fork := false; Archived := false; LanguageMap := None;
|}.

Definition withCloneURL (u : string) (o : IndexOptions) : IndexOptions := {|
  LargeFiles := LargeFiles o; Symbols := Symbols o; Branches := Branches o;
  RepoID := RepoID o; Name := Name o; CloneURL := u; Priority := Priority o;
  DocumentRanksVersion := DocumentRanksVersion o; Public := Public o;
  Fork := Fork o; Archived := Archived o; LanguageMap := LanguageMap o;
|}.

(** [indexOptionsItem] wraps IndexOptions to also include an error returned
    by the API.  [Options] is the embedded struct. *)
Record indexOptionsItem : Type := {
  Options : IndexOptions;
  Error : string;
}.

(** The order in which a [range] over a map visits its entries is chosen by
    the runtime: some enumeration of the entries, each exactly once. *)
Class MapRange : Type := {
  rangeMap : gmap string Z -> list (string * Z);
  rangeMap_perm : forall m, rangeMap m ≡ₚ map_to_list m;
}.

(** ** Conversions from and to the wire *)

Definition FromProto (x : proto.ZoektIndexOptions) : indexOptionsItem :=
  let branches :=
    foldl (fun acc b =>
             acc ++ [ {| zoekt.Name := proto.branch.Name b;
                         zoekt.Version := proto.branch.Version b |} ])
          [] (elems (proto.Branches x)) in
  let languageMap :=
    foldl (fun (m : gmap string Z) lang =>
             <[ proto.Language lang := GoInt.uint8 (proto.Ctags lang) ]> m)
          ∅ (elems (proto.LanguageMap x)) in
  {| Options := {|
       RepoID := GoInt.uint32 (proto.RepoId x);
       LargeFiles := proto.LargeFiles x;
       Symbols := proto.Symbols x;
       Branches := Some branches;
       Name := proto.Name x;
       CloneURL := "";
       Priority := proto.Priority x;
       DocumentRanksVersion := proto.DocumentRanksVersion x;
       Public := proto.Public x;
       Fork := proto.Fork x;
       Archived := proto.Archived x;
       LanguageMap := Some languageMap;
     |};
     Error := proto.Error x |}.

Definition ToProto `{MapRange} (o : indexOptionsItem) : proto.ZoektIndexOptions :=
  let branches :=
    foldl (fun acc b =>
             acc ++ [ {| proto.branch.Name := zoekt.Name b;
                         proto.branch.Version := zoekt.Version b |} ])
          [] (elems (Branches (Options o))) in
  let languageMap :=
    foldl (fun acc '(lang, parser) =>
             acc ++ [ {| proto.Language := lang;
                         proto.Ctags := GoInt.int32 parser |} ])
          [] (default [] (rangeMap <$> LanguageMap (Options o))) in
  {| proto.RepoId := GoInt.int32 (RepoID (Options o));
     proto.LargeFiles := LargeFiles (Options o);
     proto.Symbols := Symbols (Options o);
     proto.Branches := Some branches;
     proto.Name := Name (Options o);
     proto.Priority := Priority (Options o);
     proto.DocumentRanksVersion := DocumentRanksVersion (Options o);
     proto.Public := Public (Options o);
     proto.Fork := Fork (Options o);
     proto.Archived := Archived (Options o);
     proto.Error := Error o;
     proto.LanguageMap := Some languageMap;
  |}.

(** ** HTTP, as much of it as the client looks at *)

Module http.
Record Request : Type := {
  Method : string;
  URL : string;
  Header : gmap string string;
  Payload : string;
}.

(** A response body is a stream: [bytes] can be read, then the stream ends,
    with a read error if [readErr] is set. *)
Record Body : Type := {
  bytes : string;
  readErr : option error;
}.

Record Response : Type := {
  StatusCode : Z;
  Status : string;
  RespHeader : gmap string string;
  RespBody : Body;
}.

Definition StatusOK : Z := 200.

Definition SetHeader (key value : string) (req : Request) : Request :=
  {| Method := Method req; URL := URL req;
     Header := <[ key := value ]> (Header req); Payload := Payload req |}.

Definition GetHeader (key : string) (h : gmap string string) : string :=
  default "" (h !! key).

(** [io.ReadAll(io.LimitReader(body, n))] *)
Definition ReadAllLimit (n : nat) (b : Body) : result string :=
  if (n <=? String.length (bytes b))%nat then Ok (String.substring 0 n (bytes b))
  else match readErr b with
       | Some e => Err e
       | None => Ok (bytes b)
       end.
End http.

(** ** What the client takes from the Go runtime and its libraries

    The clock and the random source read and advance the world.  The codecs
    and the URL functions are pure.  [json_Decode_items] gives the outcomes
    of the successive [dec.Decode] calls on a body, up to the end of the
    stream.  [rand_Int63n n] is only defined for [0 < n] and then returns a
    number in [[0, n)].  A request that [retryablehttp_NewRequest] accepts
    is the given method, URL and body, without any header. *)
Class GoEnv (W : Type) : Type := {
  time_Now : W -> Z * W;
  rand_Int63n : Z -> W -> Z * W;
  rand_Int63n_range : forall n w, 0 < n -> 0 <= (rand_Int63n n w).1 < n;
  url_ResolveReference : string -> string -> string;
  path_Join : string -> string -> string;
  strconv_Quote : string -> string;
  retryablehttp_NewRequest : string -> string -> string -> result http.Request;
  retryablehttp_NewRequest_fresh : forall method url body req,
    retryablehttp_NewRequest method url body = Ok req ->
    req = {| http.Method := method; http.URL := url; http.Header := ∅;
             http.Payload := body |};
  json_Marshal_listRequest : string -> list Z -> result string;
  json_Decode_repoIDs : http.Body -> result (list Z);
  json_Decode_items : http.Body -> list (result indexOptionsItem);
}.

(** ** The client *)

(** [sourcegraphClient] contains methods which interact with the sourcegraph
    API.  [restClient] is the [Do] method of the retrying HTTP client. *)
Record sourcegraphClient (W : Type) : Type := {
  Root : string;
  Hostname : string;
  BatchSize : Z;
  restClient : http.Request -> W -> result http.Response * W;
  grpcClient : proto.ZoektConfigurationServiceClient W;
  configFingerprint : string;
  configFingerprintProto : option proto.Fingerprint;
  configFingerprintReset : Z;
  useGRPC : bool;
}.
Arguments Root {W} _.
Arguments Hostname {W} _.
Arguments BatchSize {W} _.
Arguments restClient {W} _ _ _.
Arguments grpcClient {W} _.
Arguments configFingerprint {W} _.
Arguments configFingerprintProto {W} _.
Arguments configFingerprintReset {W} _.
Arguments useGRPC {W} _.

(** [SourcegraphListResult] is the return value of [List]: the IDs to index
    and the closure that resolves their index options.  The closure runs on
    the client, the world and the state [C] of the consumer it calls. *)
Record SourcegraphListResult (W C : Type) : Type := {
  IDs : list Z;
  IterateIndexOptions :
    (IndexOptions -> C -> C) ->
    sourcegraphClient W * W * C -> sourcegraphClient W * W * C;
}.
Arguments IDs {W C} _.
Arguments IterateIndexOptions {W C} _ _ _.

Definition fingerprintHeader : string := "X-Sourcegraph-Config-Fingerprint".
Definition Minute : Z := 60 * 1000000000.

(** Modelled from the spec: the Batcher "splits an ordered sequence of
    repository identifiers into fixed-size chunks"; 25 000 IDs with batch
    size 10 000 give batches of 10 000, 10 000 and 5 000, "covering every ID
    exactly once in original order".  The function [batched] is called by the
    client but is not among the sources.  The spec is silent on a size below
    1; [List] and [ForceIterateIndexOptions] replace 0 by 10 000.  [chunks]
    cuts at most [fuel] batches. *)
Fixpoint chunks (fuel size : nat) (slice : list Z) : list (list Z) :=
  match fuel, slice with
  | _, [] => []
  | O, _ => []
  | S fuel, _ => take size slice :: chunks fuel size (drop size slice)
  end.

(** Modelled from the spec: [batched], the Batcher above on a slice and a
    batch size; no batch is empty, so the length of the slice is fuel
    enough. *)
Definition batched (slice : list Z) (size : Z) : list (list Z) :=
  chunks (length slice) (Z.to_nat size) slice.

(** [noopGRPCClient]: the client in place while gRPC is not enabled. *)
Definition noopGRPCClient {W} : proto.ZoektConfigurationServiceClient W := {|
  proto.SearchConfiguration := fun _ w => (Err "grpc client not enabled", w);
  proto.List := fun _ w => (Err "grpc client not enabled", w);
|}.

Section Client.
Context {W : Type} `{!GoEnv W} `{!GoArch}.

Definition withConfigFingerprint (fp : string) (s : sourcegraphClient W)
  : sourcegraphClient W :=
  {| Root := Root s; Hostname := Hostname s; BatchSize := BatchSize s;
     restClient := restClient s; grpcClient := grpcClient s;
     configFingerprint := fp;
     configFingerprintProto := configFingerprintProto s;
     configFingerprintReset := configFingerprintReset s;
     useGRPC := useGRPC s |}.

Definition withConfigFingerprintProto (fp : option proto.Fingerprint)
  (s : sourcegraphClient W) : sourcegraphClient W :=
  {| Root := Root s; Hostname := Hostname s; BatchSize := BatchSize s;
     restClient := restClient s; grpcClient := grpcClient s;
     configFingerprint := configFingerprint s;
     configFingerprintProto := fp;
     configFingerprintReset := configFingerprintReset s;
     useGRPC := useGRPC s |}.

Definition withConfigFingerprintReset (t : Z) (s : sourcegraphClient W)
  : sourcegraphClient W :=
  {| Root := Root s; Hostname := Hostname s; BatchSize := BatchSize s;
     restClient := restClient s; grpcClient := grpcClient s;
     configFingerprint := configFingerprint s;
     configFingerprintProto := configFingerprintProto s;
     configFingerprintReset := t;
     useGRPC := useGRPC s |}.

(** The options of [newSourcegraphClient]. *)
Definition WithBatchSize (batchSize : Z) (c : sourcegraphClient W)
  : sourcegraphClient W :=
  {| Root := Root c; Hostname := Hostname c; BatchSize := batchSize;
     restClient := restClient c; grpcClient := grpcClient c;
     configFingerprint := configFingerprint c;
     configFingerprintProto := configFingerprintProto c;
     configFingerprintReset := configFingerprintReset c;
     useGRPC := useGRPC c |}.

Definition WithShouldUseGRPC (b : bool) (c : sourcegraphClient W)
  : sourcegraphClient W :=
  {| Root := Root c; Hostname := Hostname c; BatchSize := BatchSize c;
     restClient := restClient c; grpcClient := grpcClient c;
     configFingerprint := configFingerprint c;
     configFingerprintProto := configFingerprintProto c;
     configFingerprintReset := configFingerprintReset c;
     useGRPC := b |}.

Definition WithGRPCClient (g : proto.ZoektConfigurationServiceClient W)
  (c : sourcegraphClient W) : sourcegraphClient W :=
  {| Root := Root c; Hostname := Hostname c; BatchSize := BatchSize c;
     restClient := restClient c; grpcClient := g;
     configFingerprint := configFingerprint c;
     configFingerprintProto := configFingerprintProto c;
     configFingerprintReset := configFingerprintReset c;
     useGRPC := useGRPC c |}.

(** [newSourcegraphClient]; the retrying HTTP client it creates is given as
    [httpClient].  The zero [time.Time] of the reset deadline is before
    every reading of the clock; it is taken as [zeroTime]. *)
Definition newSourcegraphClient (zeroTime : Z)
  (httpClient : http.Request -> W -> result http.Response * W)
  (rootURL hostname : string)
  (opts : list (sourcegraphClient W -> sourcegraphClient W))
  : sourcegraphClient W :=
  foldl (fun client opt => opt client)
    {| Root := rootURL; Hostname := hostname; BatchSize := 0;
       restClient := httpClient; grpcClient := noopGRPCClient;
       configFingerprint := ""; configFingerprintProto := None;
       configFingerprintReset := zeroTime; useGRPC := false |}
    opts.

(** [doRequest] executes the provided request after adding the appropriate
    headers for interacting with a Sourcegraph instance. *)
Definition doRequest (s : sourcegraphClient W) (req : http.Request) (w : W)
  : result http.Response * W :=
  restClient s (http.SetHeader "X-Sourcegraph-Actor-UID" "internal" req) w.

Definition getCloneURL (s : sourcegraphClient W) (name : string) : string :=
  url_ResolveReference (Root s) (path_Join "/.internal/git" name).

(** [url.Error.Error] *)
Definition urlError (op url err : string) : error :=
  op +:+ " " +:+ strconv_Quote url +:+ ": " +:+ err.

(** [batchSize := s.BatchSize; if batchSize == 0 { batchSize = 10_000 }] *)
Definition batchSize (s : sourcegraphClient W) : Z :=
  if BatchSize s =? 0 then 10000 else BatchSize s.

(** The decode loop of [getIndexOptionsREST]: every decoded item gets its
    clone URL; the first decode error ends the call. *)
Fixpoint decodeItems (s : sourcegraphClient W)
  (stream : list (result indexOptionsItem)) (opts : list indexOptionsItem)
  : result (list indexOptionsItem) :=
  match stream with
  | [] => Ok opts
  | Err err :: _ => Err ("error decoding body: " +:+ err)
  | Ok opt :: stream =>
      let opt := {| Options := withCloneURL (getCloneURL s (Name (Options opt)))
                                            (Options opt);
                    Error := Error opt |} in
      decodeItems s stream (opts ++ [opt])
  end.

Definition getIndexOptionsREST (s : sourcegraphClient W) (fingerprint : string)
  (repos : list Z) (w : W) : result (list indexOptionsItem * string) * W :=
  let u := url_ResolveReference (Root s) "/.internal/search/configuration" in
  let repoIDs := map (fun id => GoInt.Itoa (Go_int id)) repos in
  let data := String.concat "&" (map (fun id => "repoID=" +:+ id) repoIDs) in
  match retryablehttp_NewRequest "POST" u data with
  | Err err => (Err err, w)
  | Ok req =>
    let req := http.SetHeader "Content-Type" "application/x-www-form-urlencoded" req in
    let req := if String.eqb fingerprint "" then req
               else http.SetHeader fingerprintHeader fingerprint req in
    match doRequest s req w with
    | (Err err, w) => (Err err, w)
    | (Ok resp, w) =>
      if negb (http.StatusCode resp =? http.StatusOK) then
        match http.ReadAllLimit 1024 (http.RespBody resp) with
        | Err err => (Err err, w)
        | Ok b => (Err (urlError "Get" u (http.Status resp +:+ ": " +:+ b)), w)
        end
      else
        match decodeItems s (json_Decode_items (http.RespBody resp)) [] with
        | Err err => (Err err, w)
        | Ok opts =>
            (Ok (opts, http.GetHeader fingerprintHeader (http.RespHeader resp)), w)
        end
    end
  end.

Definition getIndexOptionsGRPC (s : sourcegraphClient W)
  (fingerprint : option proto.Fingerprint) (repos : list Z) (w : W)
  : result (list indexOptionsItem * option proto.Fingerprint) * W :=
  let repoIDs := foldl (fun acc id => acc ++ [GoInt.int32 id]) [] repos in
  let req := {| proto.RepoIds := repoIDs; proto.ReqFingerprint := fingerprint |} in
  match proto.SearchConfiguration (grpcClient s) req w with
  | (Err err, w) => (Err err, w)
  | (Ok response, w) =>
    let items :=
      foldl (fun items x =>
               let item := FromProto x in
               let item := {| Options := withCloneURL
                                           (getCloneURL s (Name (Options item)))
                                           (Options item);
                              Error := Error item |} in
               items ++ [item])
            [] (proto.UpdatedOptions response) in
    (Ok (items, proto.RespFingerprint response), w)
  end.

Definition listRepoIDsGRPC (s : sourcegraphClient W) (indexed : list Z) (w : W)
  : result (list Z) * W :=
  let request :=
    {| proto.Hostname := Hostname s;
       proto.IndexedIds := foldl (fun acc id => acc ++ [GoInt.int32 id]) [] indexed |} in
  match proto.List (grpcClient s) request w with
  | (Err err, w) => (Err err, w)
  | (Ok response, w) =>
    (Ok (foldl (fun acc id => acc ++ [GoInt.uint32 id]) [] (proto.ListRepoIds response)), w)
  end.

Definition listRepoIDsREST (s : sourcegraphClient W) (indexed : list Z) (w : W)
  : result (list Z) * W :=
  match json_Marshal_listRequest (Hostname s) indexed with
  | Err err => (Err err, w)
  | Ok body =>
    let u := url_ResolveReference (Root s) "/.internal/repos/index" in
    match retryablehttp_NewRequest "POST" u body with
    | Err err => (Err err, w)
    | Ok req =>
      let req := http.SetHeader "Content-Type" "application/json; charset=utf-8" req in
      match doRequest s req w with
      | (Err err, w) => (Err err, w)
      | (Ok resp, w) =>
        if negb (http.StatusCode resp =? http.StatusOK) then
          (Err ("failed to list repositories: status " +:+ http.Status resp), w)
        else
          (json_Decode_repoIDs (http.RespBody resp), w)
      end
    end
  end.

Definition listRepoIDs (s : sourcegraphClient W) (indexed : list Z) (w : W)
  : result (list Z) * W :=
  if useGRPC s then listRepoIDsGRPC s indexed w else listRepoIDsREST s indexed w.

(** *** List *)

(** A [getIndexOptionsFunc] is a closure over the pointer [s] and over its
    own variable [first]; a call takes and returns [first], the client and
    the world. *)
Definition getIndexOptionsFunc : Type :=
  list Z -> bool * sourcegraphClient W * W ->
  result (list indexOptionsItem) * (bool * sourcegraphClient W * W).

(** [mkGetIndexOptionsFunc], REST: reads the starting fingerprint off the
    client it is made on. *)
Definition mkGetIndexOptionsFuncREST (s : sourcegraphClient W)
  : getIndexOptionsFunc :=
  let startingFingerPrint := configFingerprint s in
  fun repos '(first, s, w) =>
    match getIndexOptionsREST s startingFingerPrint repos w with
    | (Err err, w) =>
        (Err err, (false, withConfigFingerprint startingFingerPrint s, w))
    | (Ok (options, nextFingerPrint), w) =>
        if first
        then (Ok options, (false, withConfigFingerprint nextFingerPrint s, w))
        else (Ok options, (first, s, w))
    end.

(** [mkGetIndexOptionsFunc], gRPC. *)
Definition mkGetIndexOptionsFuncGRPC (s : sourcegraphClient W)
  : getIndexOptionsFunc :=
  let startingFingerPrint := configFingerprintProto s in
  fun repos '(first, s, w) =>
    match getIndexOptionsGRPC s startingFingerPrint repos w with
    | (Err err, w) =>
        (Err err, (false, withConfigFingerprintProto startingFingerPrint s, w))
    | (Ok (options, nextFingerPrint), w) =>
        if first
        then (Ok options, (false, withConfigFingerprintProto nextFingerPrint s, w))
        else (Ok options, (first, s, w))
    end.

Section Iterate.
Context {C : Type}.

(** The loop over the items of one batch: an item with an error is skipped,
    every other one goes to the consumer [f]. *)
Definition deliver (f : IndexOptions -> C -> C)
  (options : list indexOptionsItem) (c : C) : C :=
  foldl (fun c o => if negb (String.eqb (Error o) "") then c
                    else f (Options o) c)
        c options.

(** One turn of the loop over the batches; a failed batch is skipped. *)
Definition iterateBatch (getIndexOptions : getIndexOptionsFunc)
  (f : IndexOptions -> C -> C)
  (st : bool * sourcegraphClient W * W * C) (repos : list Z)
  : bool * sourcegraphClient W * W * C :=
  let '(cl, c) := st in
  match getIndexOptions repos cl with
  | (Err _, cl) => (cl, c)
  | (Ok options, cl) => (cl, deliver f options c)
  end.

(** [iterate]: [repos], [batchSize] and the choice of
    [mkGetIndexOptionsFunc] are captured when [List] returns; the client is
    read when the closure runs. *)
Definition iterate (repos : list Z) (batchSize : Z)
  (mkGetIndexOptionsFunc : sourcegraphClient W -> getIndexOptionsFunc)
  (f : IndexOptions -> C -> C) (st : sourcegraphClient W * W * C)
  : sourcegraphClient W * W * C :=
  let '(s, w, c) := st in
  let getIndexOptions := mkGetIndexOptionsFunc s in
  let '(_, s, w, c) :=
    foldl (iterateBatch getIndexOptions f) (true, s, w, c)
          (batched repos batchSize) in
  (s, w, c).

(** The new reset interval: a minute for every 500 repos, at least five
    minutes, plus jitter.  [time.Duration] is an int64 of nanoseconds and
    [/] truncates. *)
Definition nextReset (indexed : list Z) (w : W) : Z * W :=
  let next := GoInt.int64 (Z.of_nat (length indexed) * Minute) ÷ 500 in
  let next := if next <? 5 * Minute then 5 * Minute else next in
  let '(jitter, w) := rand_Int63n (next ÷ 4) w in
  (GoInt.int64 (next + jitter), w).

Definition List (indexed : list Z) (s : sourcegraphClient W) (w : W)
  : result (SourcegraphListResult W C) * sourcegraphClient W * W :=
  match listRepoIDs s indexed w with
  | (Err err, w) => (Err ("listRepoIDs: " +:+ err), s, w)
  | (Ok repos, w) =>
    let batchSize := batchSize s in
    let '(now, w) := time_Now w in
    let '(s, w) :=
      if configFingerprintReset s <? now then
        let '(next, w) := nextReset indexed w in
        let '(now, w) := time_Now w in
        let s := withConfigFingerprintReset (now + next) s in
        let s := withConfigFingerprintProto None s in
        let s := withConfigFingerprint "" s in
        (s, w)
      else (s, w) in
    let mkGetIndexOptionsFunc :=
      if useGRPC s then mkGetIndexOptionsFuncGRPC else mkGetIndexOptionsFuncREST in
    (Ok {| IDs := repos;
           IterateIndexOptions := iterate repos batchSize mkGetIndexOptionsFunc |},
     s, w)
  end.

(** *** ForceIterateIndexOptions *)

(** The local closure [getIndexOptions] of [ForceIterateIndexOptions]: REST
    with the empty fingerprint, or gRPC with the nil fingerprint when gRPC
    is enabled; the returned fingerprint is dropped. *)
Definition forceGetIndexOptions (s : sourcegraphClient W) (repos : list Z) (w : W)
  : result (list indexOptionsItem) * W :=
  if useGRPC s
  then match getIndexOptionsGRPC s None repos w with
       | (Ok (opts, _), w) => (Ok opts, w)
       | (Err err, w) => (Err err, w)
       end
  else match getIndexOptionsREST s "" repos w with
       | (Ok (opts, _), w) => (Ok opts, w)
       | (Err err, w) => (Err err, w)
       end.

(** The loop over the items of one batch. *)
Definition forceItems (onSuccess : IndexOptions -> C -> C)
  (onError : Z -> error -> C -> C) (opts : list indexOptionsItem) (c : C) : C :=
  foldl (fun c o =>
           let c := if (0 <? RepoID (Options o)) && negb (String.eqb (Error o) "")
                    then onError (RepoID (Options o)) (Error o) c else c in
           if String.eqb (Error o) "" then onSuccess (Options o) c else c)
        c opts.

Definition forceBatch
  (getIndexOptions : list Z -> W -> result (list indexOptionsItem) * W)
  (onSuccess : IndexOptions -> C -> C) (onError : Z -> error -> C -> C)
  (st : W * C) (repos : list Z) : W * C :=
  let '(w, c) := st in
  match getIndexOptions repos w with
  | (Err err, w) => (w, foldl (fun c id => onError id err c) c repos)
  | (Ok opts, w) => (w, forceItems onSuccess onError opts c)
  end.

Definition ForceIterateIndexOptions (onSuccess : IndexOptions -> C -> C)
  (onError : Z -> error -> C -> C) (repos : list Z)
  (st : sourcegraphClient W * W * C) : sourcegraphClient W * W * C :=
  let '(s, w, c) := st in
  let batchSize := batchSize s in
  let getIndexOptions := forceGetIndexOptions s in
  let '(w, c) :=
    foldl (forceBatch getIndexOptions onSuccess onError) (w, c)
          (batched repos batchSize) in
  (s, w, c).

End Iterate.
End Client.

(** ** The file-system fake *)

Module Fake.

(** [sourcegraphFake] stands in for the control plane by scanning a
    directory of git repositories.  What the scan finds is the state of the
    file system and of git: the repositories [visitRepos] visits, in order,
    and the error the walk ends with, if any; the number in a repository's
    SG_ID file, if there is one; which marker files exist; the number in
    SG_PRIORITY; the modification time of SG_DOCUMENT_RANKS; and the
    branches git resolves. *)
Record sourcegraphFake : Type := {
  RootDir : string;
  visitRepos : list string * option error;
  readID : string -> option Z;
  exists_ : string -> string -> bool;
  float : string -> string -> Z;
  ranksModTime : string -> option string;
  getBranches : string -> result (list zoekt.RepositoryBranch);
  filepath_Join : string -> string -> string;
}.

(** [sf.id]: the ID in SG_ID when the file holds a number, [fakeID]
    otherwise. *)
Definition id (sf : sourcegraphFake) (name : string) : Z :=
  match readID sf name with
  | Some n => GoInt.uint32 n
  | None => fakeID name
  end.

Definition getCloneURL (sf : sourcegraphFake) (name : string) : string :=
  filepath_Join sf (RootDir sf) name.

(** [sf.getIndexOptions]: the options, and the error of resolving the
    branches if there is one. *)
Definition getIndexOptions (sf : sourcegraphFake) (name : string)
  : IndexOptions * option error :=
  let opts (branches : option (list zoekt.RepositoryBranch)) := {|
    LargeFiles := None;
    Symbols := true;
    Branches := branches;
    RepoID := id sf name;
    Name := name;
    CloneURL := getCloneURL sf name;
    Priority := float sf name "SG_PRIORITY";
    DocumentRanksVersion := default "" (ranksModTime sf name);
    Public := negb (exists_ sf name "SG_PRIVATE");
    Fork := exists_ sf name "SG_FORK";
    Archived := exists_ sf name "SG_ARCHIVED";
    LanguageMap := None;
  |} in
  match getBranches sf name with
  | Err err => (opts None, Some err)
  | Ok branches => (opts (Some branches), None)
  end.

Definition zeroItem : indexOptionsItem :=
  {| Options := zeroIndexOptions; Error := "" |}.

(** [sf.GetIndexOptions]: one item for every requested ID, at the index of
    the ID; an ID the scan does not come across keeps the zero item and is
    marked "not found". *)
Definition GetIndexOptions (sf : sourcegraphFake) (repos : list Z)
  : result (list indexOptionsItem) :=
  let reposIdx : gmap Z nat :=
    foldl (fun m '(i, id) => <[ id := i ]> m) ∅ (imap (fun i id => (i, id)) repos) in
  let items :=
    foldl (fun items name =>
             match reposIdx !! id sf name with
             | None => items
             | Some idx =>
                 match getIndexOptions sf name with
                 | (_, Some err) =>
                     <[ idx := {| Options := zeroIndexOptions; Error := err |} ]> items
                 | (opts, None) =>
                     <[ idx := {| Options := opts; Error := "" |} ]> items
                 end
             end)
          (replicate (length repos) zeroItem) (visitRepos sf).1 in
  match (visitRepos sf).2 with
  | Some err => Err err
  | None =>
      Ok (map (fun item =>
                 if String.eqb (Error item) "" && (RepoID (Options item) =? 0)
                 then {| Options := Options item; Error := "not found" |}
                 else item)
              items)
  end.

(** The items of a successful [GetIndexOptions]. *)
Definition GetIndexOptions_items (sf : sourcegraphFake) (repos : list Z)
  : list indexOptionsItem :=
  match GetIndexOptions sf repos with
  | Ok items => items
  | Err _ => []
  end.

(** [sf.ForceIterateIndexOptions]: all IDs in one call. *)
Definition ForceIterateIndexOptions {C} (sf : sourcegraphFake)
  (onSuccess : IndexOptions -> C -> C) (onError : Z -> error -> C -> C)
  (repos : list Z) (c : C) : C :=
  match GetIndexOptions sf repos with
  | Err err => foldl (fun c id => onError id err c) c repos
  | Ok opts => forceItems onSuccess onError opts c
  end.

(** A directory with one repository, whose SG_ID file says 3. *)
Definition oneRepository : sourcegraphFake := {|
  RootDir := "/data/repos";
  visitRepos := (["github.com/a/b"], None);
  readID := fun name => if String.eqb name "github.com/a/b" then Some 3 else None;
  exists_ := fun _ _ => false;
  float := fun _ _ => 0;
  ranksModTime := fun _ => None;
  getBranches := fun _ =>
    Ok [ {| zoekt.Name := "HEAD"; zoekt.Version := "deadbeef" |} ];
  filepath_Join := fun a b => a +:+ "/" +:+ b;
|}.

End Fake.

(** ** Consumers that keep what they are called with *)

(** A consumer that keeps the options it is called with, in order. *)
Definition record (o : IndexOptions) (log : list IndexOptions) : list IndexOptions :=
  log ++ [o].

(** The two callbacks of [ForceIterateIndexOptions], kept the same way. *)
Inductive Callback : Type :=
| OnSuccess (o : IndexOptions)
| OnError (id : Z) (err : error).

Definition recordSuccess (o : IndexOptions) (log : list Callback) : list Callback :=
  log ++ [OnSuccess o].

Definition recordError (id : Z) (err : error) (log : list Callback) : list Callback :=
  log ++ [OnError id err].

(** The repository a callback is about. *)
Definition callbackRepo (cb : Callback) : Z :=
  match cb with
  | OnSuccess o => RepoID o
  | OnError id _ => id
  end.

(** ** A scripted control plane

    A world for running the client on concrete inputs: a clock that ticks at
    every reading, a fixed number the random source reduces into the range
    asked for, and a peer that answers the calls in the order of a script
    and keeps every request it receives.  A response body names the
    document it carries; the decoders look the document up. *)

Module Scripted.

(** A 64-bit platform. *)
#[global] Instance amd64 : GoArch := {|
  intBits := 64;
  intBits_cases := or_intror eq_refl;
|}.

(** A runtime that ranges over a map in the order of its keys' encoding. *)
#[global] Instance mapOrder : MapRange := {|
  rangeMap := map_to_list;
  rangeMap_perm := fun m => reflexivity (map_to_list m);
|}.

Record World : Type := {
  clock : Z;
  entropy : Z;
  answers : list (result http.Response);
  rpcAnswers : list (result proto.SearchConfigurationResponse);
  received : list http.Request;
  rpcReceived : list proto.SearchConfigurationRequest;
}.

Definition Do (req : http.Request) (w : World) : result http.Response * World :=
  let w' rest :=
    {| clock := clock w; entropy := entropy w; answers := rest;
       rpcAnswers := rpcAnswers w; received := received w ++ [req];
       rpcReceived := rpcReceived w |} in
  match answers w with
  | [] => (Err "connection refused", w' [])
  | r :: rest => (r, w' rest)
  end.

Definition SearchConfiguration (req : proto.SearchConfigurationRequest)
  (w : World) : result proto.SearchConfigurationResponse * World :=
  let w' rest :=
    {| clock := clock w; entropy := entropy w; answers := answers w;
       rpcAnswers := rest; received := received w;
       rpcReceived := rpcReceived w ++ [req] |} in
  match rpcAnswers w with
  | [] => (Err "unavailable", w' [])
  | r :: rest => (r, w' rest)
  end.

Definition grpc : proto.ZoektConfigurationServiceClient World := {|
  proto.SearchConfiguration := SearchConfiguration;
  proto.List := fun _ w => (Ok {| proto.ListRepoIds := [1; 2; 3] |}, w);
|}.

Definition Now (w : World) : Z * World :=
  (clock w,
   {| clock := clock w + 1; entropy := entropy w; answers := answers w;
      rpcAnswers := rpcAnswers w; received := received w;
      rpcReceived := rpcReceived w |}).

Definition Int63n (n : Z) (w : World) : Z * World := (entropy w mod n, w).

Definition repo (id : Z) (name : string) : IndexOptions := {|
  LargeFiles := None; Symbols := true;
  Branches := Some [ {| zoekt.Name := "HEAD"; zoekt.Version := "deadbeef" |} ];
  RepoID := id; Name := name; CloneURL := ""; Priority := 0;
  DocumentRanksVersion := ""; Public := true; Fork := false;
  Archived := false; LanguageMap := Some ∅;
|}.

Definition found (id : Z) (name : string) : indexOptionsItem :=
  {| Options := repo id name; Error := "" |}.

Definition failed (id : Z) (msg : string) : indexOptionsItem :=
  {| Options := {| LargeFiles := None; Symbols := false; Branches := None;
                   RepoID := id; Name := ""; CloneURL := ""; Priority := 0;
                   DocumentRanksVersion := ""; Public := false; Fork := false;
                   Archived := false; LanguageMap := None |};
     Error := msg |}.

(** The documents a body can carry. *)
Definition Decode_items (b : http.Body) : list (result indexOptionsItem) :=
  if String.eqb (http.bytes b) "options-1-2" then
    [Ok (found 1 "repo1"); Ok (failed 2 "not found")]
  else if String.eqb (http.bytes b) "options-3" then [Ok (found 3 "repo3")]
  else if String.eqb (http.bytes b) "options-0" then [Ok (failed 0 "not found")]
  else if String.eqb (http.bytes b) "" then []
  else [Err "invalid character"].

Definition Decode_repoIDs (b : http.Body) : result (list Z) :=
  if String.eqb (http.bytes b) "ids-1-2-3" then Ok [1; 2; 3]
  else Err "invalid character".

Definition NewRequest (method url body : string) : result http.Request :=
  Ok {| http.Method := method; http.URL := url; http.Header := ∅;
        http.Payload := body |}.

Lemma NewRequest_fresh method url body req :
  NewRequest method url body = Ok req ->
  req = {| http.Method := method; http.URL := url; http.Header := ∅;
           http.Payload := body |}.
Proof. by intros [= <-]. Qed.

Lemma Int63n_range n w : 0 < n -> 0 <= (Int63n n w).1 < n.
Proof. intros Hn. unfold Int63n. simpl. apply Z.mod_pos_bound. exact Hn. Qed.

#[global] Instance env : GoEnv World := {|
  time_Now := Now;
  rand_Int63n := Int63n;
  rand_Int63n_range := Int63n_range;
  url_ResolveReference := fun root p => root +:+ p;
  path_Join := fun a b => if String.eqb b "" then a else a +:+ "/" +:+ b;
  strconv_Quote := fun s => s;
  retryablehttp_NewRequest := NewRequest;
  retryablehttp_NewRequest_fresh := NewRequest_fresh;
  json_Marshal_listRequest := fun host ids =>
    Ok (host +:+ ":" +:+ String.concat "," (map GoInt.Itoa ids));
  json_Decode_repoIDs := Decode_repoIDs;
  json_Decode_items := Decode_items;
|}.

Definition respond (doc fingerprint : string) : result http.Response :=
  Ok {| http.StatusCode := 200; http.Status := "200 OK";
        http.RespHeader := {[ fingerprintHeader := fingerprint ]};
        http.RespBody := {| http.bytes := doc; http.readErr := None |} |}.

Definition world (script : list (result http.Response))
  (rpc : list (result proto.SearchConfigurationResponse)) (rnd : Z) : World :=
  {| clock := 1000; entropy := rnd; answers := script; rpcAnswers := rpc;
     received := []; rpcReceived := [] |}.

Definition client (batchSize : Z) : sourcegraphClient World :=
  newSourcegraphClient 0 Do "http://sourcegraph" "indexserver-0"
    [WithBatchSize batchSize].

(** [List] followed by one run of the closure it returns. *)
Definition listAndIterate (indexed : list Z) (s : sourcegraphClient World)
  (w : World) : option (sourcegraphClient World * World * list IndexOptions) :=
  match List indexed s w with
  | (Ok r, s, w) => Some (IterateIndexOptions r record (s, w, []))
  | (Err _, _, _) => None
  end.

(** A client that holds the fingerprint [fp] and whose reset is not due. *)
Definition clientHolding (fp : string) (batchSize : Z) : sourcegraphClient World :=
  withConfigFingerprint fp (withConfigFingerprintReset 1000000 (client batchSize)).

(** Three repositories, resolved in batches of two. *)
Definition bothBatchesAnswer : list (result http.Response) :=
  [respond "ids-1-2-3" ""; respond "options-1-2" "F1"; respond "options-3" "F2"].

Definition secondBatchFails : list (result http.Response) :=
  [respond "ids-1-2-3" ""; respond "options-1-2" "F1"; Err "i/o timeout"].

Definition firstBatchFails : list (result http.Response) :=
  [respond "ids-1-2-3" ""; Err "i/o timeout"; respond "options-3" "F2"].

(** Forced resolution of the three repositories, and of a repository the
    control plane does not know, which it reports without an ID. *)
Definition forcedAnswers : list (result http.Response) :=
  [respond "options-1-2" "F1"; respond "options-3" "F2"].

Definition unknownRepository : list (result http.Response) :=
  [respond "options-0" "F1"].

(** No request received so far carries a fingerprint. *)
Definition noFingerprintSeen (w : World) : Prop :=
  Forall (fun req => http.Header req !! fingerprintHeader = None) (received w)
  /\ Forall (fun req => proto.ReqFingerprint req = None) (rpcReceived w).

(** The same over gRPC: a client with gRPC enabled, and the two replies. *)
Definition grpcClientOf (batchSize : Z) : sourcegraphClient World :=
  newSourcegraphClient 0 Do "http://sourcegraph" "indexserver-0"
    [WithBatchSize batchSize; WithGRPCClient grpc; WithShouldUseGRPC true].

Definition wire (id : Z) (name err : string) : proto.ZoektIndexOptions := {|
  proto.RepoId := id; proto.LargeFiles := None; proto.Symbols := true;
  proto.Branches := Some [ {| proto.branch.Name := "HEAD";
                              proto.branch.Version := "deadbeef" |} ];
  proto.Name := name; proto.Priority := 0; proto.DocumentRanksVersion := "";
  proto.Public := true; proto.Fork := false; proto.Archived := false;
  proto.Error := err; proto.LanguageMap := None;
|}.

Definition token (n : Z) : option proto.Fingerprint :=
  Some {| proto.Identifier := n; proto.GeneratedAt := 0 |}.

Definition bothBatchesAnswerGRPC
  : list (result proto.SearchConfigurationResponse) :=
  [ Ok {| proto.UpdatedOptions := [wire 1 "repo1" ""; wire 2 "" "not found"];
          proto.RespFingerprint := token 1 |};
    Ok {| proto.UpdatedOptions := [wire 3 "repo3" ""];
          proto.RespFingerprint := token 2 |} ].

End Scripted.

(** ** Vocabulary of the statements *)

(** The stored fingerprint of a client, in the representation of the
    transport in use. *)
Inductive fingerprint : Type :=
| viaREST (fp : string)
| viaGRPC (fp : option proto.Fingerprint).

Definition storedFingerprint {W} (grpc : bool) (s : sourcegraphClient W)
  : fingerprint :=
  if grpc then viaGRPC (configFingerprintProto s) else viaREST (configFingerprint s).

(** A reply with its fingerprint put in that representation. *)
Definition tagWith {W X FP} (tag : FP -> fingerprint) (r : result (X * FP) * W)
  : result (X * fingerprint) * W :=
  match r with
  | (Ok (x, fp), w) => (Ok (x, tag fp), w)
  | (Err err, w) => (Err err, w)
  end.

(** The transport call that a pass started on the client [s] makes for one
    batch: it carries the fingerprint stored in [s] when the pass starts. *)
Definition passCall {W} `{!GoEnv W} `{!GoArch} (grpc : bool) (s : sourcegraphClient W)
  (repos : list Z) (w : W) : result (list indexOptionsItem * fingerprint) * W :=
  if grpc
  then tagWith viaGRPC (getIndexOptionsGRPC s (configFingerprintProto s) repos w)
  else tagWith viaREST (getIndexOptionsREST s (configFingerprint s) repos w).

(** The replies to the calls made for the successive batches, and the world
    they leave. *)
Fixpoint exchange {W X} (call : list Z -> W -> result X * W)
  (batches : list (list Z)) (w : W) : list (result X) * W :=
  match batches with
  | [] => ([], w)
  | repos :: batches =>
      let '(r, w) := call repos w in
      let '(rs, w) := exchange call batches w in
      (r :: rs, w)
  end.

Definition replies {W X} (call : list Z -> W -> result X * W)
  (batches : list (list Z)) (w : W) : list (result X) :=
  (exchange call batches w).1.

(** The callbacks one item of a forced batch leads to. *)
Definition itemCallbacks (o : indexOptionsItem) : list Callback :=
  if String.eqb (Error o) "" then [OnSuccess (Options o)]
  else if 0 <? RepoID (Options o) then [OnError (RepoID (Options o)) (Error o)]
  else [].

(** The callbacks one forced batch leads to, given the reply to its call. *)
Definition batchCallbacks (repos : list Z) (r : result (list indexOptionsItem))
  : list Callback :=
  match r with
  | Err err => map (fun id => OnError id err) repos
  | Ok opts => concat (map itemCallbacks opts)
  end.

(** The first-batch gate shared by the two variants of
    [mkGetIndexOptionsFunc], over the fingerprint field it works on. *)
Definition gate {W FP} (setFp : FP -> sourcegraphClient W -> sourcegraphClient W)
  (fetch : sourcegraphClient W -> FP -> list Z -> W ->
           result (list indexOptionsItem * FP) * W)
  (startingFingerPrint : FP) : list Z -> bool * sourcegraphClient W * W ->
  result (list indexOptionsItem) * (bool * sourcegraphClient W * W) :=
  fun repos '(first, s, w) =>
    match fetch s startingFingerPrint repos w with
    | (Err err, w) => (Err err, (false, setFp startingFingerPrint s, w))
    | (Ok (options, nextFingerPrint), w) =>
        if first
        then (Ok options, (false, setFp nextFingerPrint s, w))
        else (Ok options, (first, s, w))
    end.

(** What the gate does to the pair of [first] and the stored fingerprint on
    one reply. *)
Definition gateStep {X FP} (starting : FP) (st : bool * FP)
  (r : result (X * FP)) : bool * FP :=
  match r with
  | Err _ => (false, starting)
  | Ok (_, next) => if st.1 then (false, next) else st
  end.

(** What the consumer sees of one reply. *)
Definition consume {C FP} (f : IndexOptions -> C -> C) (c : C)
  (r : result (list indexOptionsItem * FP)) : C :=
  match r with
  | Err _ => c
  | Ok (options, _) => deliver f options c
  end.

(** ** The rest of the client: index status and document ranks *)

(** Modelled from the spec: the messages of the two remaining calls, "list
    of (repository ID, branch/commit pairs, index completion time)" and
    "mean rank plus path to rank mapping"; their declarations are generated
    code outside the sources.  An element of a repeated message field is a
    pointer and may be nil; a getter on a nil message returns the zero
    value. *)
Module protoStatus.
Record Repository : Type := {
  RepoId : Z;                                     (* uint32 *)
  Branches : option (list (option proto.branch.ZoektRepositoryBranch));
  IndexTimeUnix : Z;                              (* int64 *)
}.

Record UpdateIndexStatusRequest : Type := {
  Repositories : option (list (option Repository));
}.

Record DocumentRanksResponse : Type := {
  MeanRank : Z;                                   (* float64, its bit pattern *)
  Paths : option (gmap string Z);                 (* map[string]float64 *)
}.

Definition GetName (b : option proto.branch.ZoektRepositoryBranch) : string :=
  match b with Some b => proto.branch.Name b | None => "" end.

Definition GetVersion (b : option proto.branch.ZoektRepositoryBranch) : string :=
  match b with Some b => proto.branch.Version b | None => "" end.

Definition GetRepoId (r : option Repository) : Z :=
  match r with Some r => RepoId r | None => 0 end.

Definition GetBranches (r : option Repository)
  : option (list (option proto.branch.ZoektRepositoryBranch)) :=
  match r with Some r => Branches r | None => None end.

Definition GetIndexTimeUnix (r : option Repository) : Z :=
  match r with Some r => IndexTimeUnix r | None => 0 end.
End protoStatus.

Module status.
Record indexStatus : Type := {
  RepoID : Z;                                     (* uint32 *)
  Branches : option (list zoekt.RepositoryBranch);
  IndexTimeUnix : Z;                              (* int64 *)
}.

Record updateIndexStatusRequest : Type := {
  Repositories : option (list indexStatus);
}.
End status.

Record RepoPathRanks : Type := {
  MeanRank : Z;                                   (* float64, its bit pattern *)
  Paths : option (gmap string Z);                 (* map[string]float64 *)
}.

(** [updateIndexStatusRequest.ToProto] *)
Definition updateIndexStatusRequest_ToProto (u : status.updateIndexStatusRequest)
  : protoStatus.UpdateIndexStatusRequest :=
  let repositories :=
    foldl (fun acc repo =>
             let branches :=
               foldl (fun acc branch =>
                        acc ++ [Some {| proto.branch.Name := zoekt.Name branch;
                                        proto.branch.Version := zoekt.Version branch |}])
                     [] (elems (status.Branches repo)) in
             acc ++ [Some {| protoStatus.RepoId := status.RepoID repo;
                             protoStatus.Branches := Some branches;
                             protoStatus.IndexTimeUnix := status.IndexTimeUnix repo |}])
          [] (elems (status.Repositories u)) in
  {| protoStatus.Repositories := Some repositories |}.

(** [updateIndexStatusRequest.FromProto] *)
Definition updateIndexStatusRequest_FromProto
  (x : protoStatus.UpdateIndexStatusRequest) : status.updateIndexStatusRequest :=
  let repositories :=
    foldl (fun acc repo =>
             let branches :=
               foldl (fun acc branch =>
                        acc ++ [ {| zoekt.Name := protoStatus.GetName branch;
                                    zoekt.Version := protoStatus.GetVersion branch |} ])
                     [] (elems (protoStatus.GetBranches repo)) in
             acc ++ [ {| status.RepoID := protoStatus.GetRepoId repo;
                         status.Branches := Some branches;
                         status.IndexTimeUnix := protoStatus.GetIndexTimeUnix repo |} ])
          [] (elems (protoStatus.Repositories x)) in
  {| status.Repositories := Some repositories |}.

(** [RepoPathRanks.FromProto] and [RepoPathRanks.ToProto]: both copy the map
    entry by entry into a map they make. *)
Definition RepoPathRanks_FromProto `{MapRange}
  (x : protoStatus.DocumentRanksResponse) : RepoPathRanks :=
  let ranks :=
    foldl (fun (m : gmap string Z) '(filePath, rank) => <[ filePath := rank ]> m)
          ∅ (default [] (rangeMap <$> protoStatus.Paths x)) in
  {| MeanRank := protoStatus.MeanRank x; Paths := Some ranks |}.

Definition RepoPathRanks_ToProto `{MapRange} (r : RepoPathRanks)
  : protoStatus.DocumentRanksResponse :=
  let paths :=
    foldl (fun (m : gmap string Z) '(filePath, rank) => <[ filePath := rank ]> m)
          ∅ (default [] (rangeMap <$> Paths r)) in
  {| protoStatus.MeanRank := MeanRank r; protoStatus.Paths := Some paths |}.

(** What these calls take from the libraries besides [GoEnv]: the JSON
    encoding of a status request, the decoding of ranks, and [io.ReadAll]. *)
Class StatusEnv : Type := {
  json_Marshal_indexStatus : status.updateIndexStatusRequest -> result string;
  json_Unmarshal_ranks : string -> result RepoPathRanks;
}.

Definition zeroRepoPathRanks : RepoPathRanks := {| MeanRank := 0; Paths := None |}.

(** [strings.Trim(s, "/")] *)
Fixpoint trimLeftSlash (s : string) : string :=
  match s with
  | String "/" rest => trimLeftSlash rest
  | _ => s
  end.

Fixpoint trimRightSlash (s : string) : string :=
  match s with
  | EmptyString => EmptyString
  | String c rest =>
      match trimRightSlash rest with
      | EmptyString => if Ascii.eqb c "/" then EmptyString else String c EmptyString
      | rest' => String c rest'
      end
  end.

Definition trimSlash (s : string) : string := trimRightSlash (trimLeftSlash s).

Section Status.
Context {W : Type} `{!GoEnv W} `{!GoArch} `{!StatusEnv} `{!MapRange}.

(** [io.ReadAll] on a response body. *)
Definition ReadAll (b : http.Body) : result string :=
  match http.readErr b with
  | Some e => Err e
  | None => Ok (http.bytes b)
  end.

(** [sourcegraphClient.get] *)
Definition get (s : sourcegraphClient W) (u : string) (w : W) : result string * W :=
  match retryablehttp_NewRequest "GET" u "" with
  | Err err => (Err err, w)
  | Ok req =>
    match doRequest s req w with
    | (Err err, w) => (Err err, w)
    | (Ok resp, w) =>
      if negb (http.StatusCode resp =? http.StatusOK) then
        match http.ReadAllLimit 1024 (http.RespBody resp) with
        | Err err => (Err err, w)
        | Ok b => (Err (urlError "Get" u (http.Status resp +:+ ": " +:+ b)), w)
        end
      else (ReadAll (http.RespBody resp), w)
    end
  end.

Definition getDocumentRanksREST (s : sourcegraphClient W) (repoName : string)
  (w : W) : result RepoPathRanks * W :=
  let u := url_ResolveReference (Root s)
             ("/.internal/ranks/" +:+ trimSlash repoName +:+ "/documents") in
  match get s u w with
  | (Err err, w) => (Err err, w)
  | (Ok b, w) =>
    match json_Unmarshal_ranks b with
    | Err err => (Err err, w)
    | Ok ranks => (Ok ranks, w)
    end
  end.

(** The remaining two methods of the gRPC client are arguments here: the
    record of the interface above holds the two calls of the resolver. *)
Definition getDocumentRanksGRPC
  (DocumentRanks : string -> W -> result protoStatus.DocumentRanksResponse * W)
  (repoName : string) (w : W) : result RepoPathRanks * W :=
  match DocumentRanks repoName w with
  | (Err err, w) => (Err err, w)
  | (Ok resp, w) => (Ok (RepoPathRanks_FromProto resp), w)
  end.

Definition GetDocumentRanks
  (DocumentRanks : string -> W -> result protoStatus.DocumentRanksResponse * W)
  (s : sourcegraphClient W) (repoName : string) (w : W)
  : result RepoPathRanks * W :=
  if useGRPC s then getDocumentRanksGRPC DocumentRanks repoName w
  else getDocumentRanksREST s repoName w.

Definition updateIndexStatusGRPC
  (UpdateIndexStatus : protoStatus.UpdateIndexStatusRequest -> W -> result unit * W)
  (r : status.updateIndexStatusRequest) (w : W) : option error * W :=
  match UpdateIndexStatus (updateIndexStatusRequest_ToProto r) w with
  | (Err err, w) => (Some ("failed to update index status: " +:+ err), w)
  | (Ok _, w) => (None, w)
  end.

Definition updateIndexStatusREST (s : sourcegraphClient W)
  (r : status.updateIndexStatusRequest) (w : W) : option error * W :=
  match json_Marshal_indexStatus r with
  | Err err => (Some err, w)
  | Ok payload =>
    let u := url_ResolveReference (Root s) "/.internal/search/index-status" in
    match retryablehttp_NewRequest "POST" u payload with
    | Err err => (Some err, w)
    | Ok req =>
      let req := http.SetHeader "Content-Type" "application/json; charset=utf-8" req in
      match doRequest s req w with
      | (Err err, w) => (Some err, w)
      | (Ok resp, w) =>
        if negb (http.StatusCode resp =? http.StatusOK) then
          (Some ("failed to update index status: status " +:+ http.Status resp), w)
        else (None, w)
      end
    end
  end.

(** [UpdateIndexStatus] sends a request to Sourcegraph to confirm that the
    given repositories have been indexed. *)
Definition UpdateIndexStatus
  (rpc : protoStatus.UpdateIndexStatusRequest -> W -> result unit * W)
  (s : sourcegraphClient W) (repositories : option (list status.indexStatus)) (w : W)
  : option error * W :=
  let r := {| status.Repositories := repositories |} in
  if useGRPC s then updateIndexStatusGRPC rpc r w
  else updateIndexStatusREST s r w.

End Status.

(** A request as [doRequest] sends it: made as the internal user. *)
Definition asInternal (req : http.Request) : Prop :=
  http.GetHeader "X-Sourcegraph-Actor-UID" (http.Header req) = "internal".

(** A property of the world that the HTTP peer keeps on every request of the
    internal user. *)
Definition keptOnInternal {W} (s : sourcegraphClient W) (I : W -> Prop) : Prop :=
  forall req w, asInternal req -> I w -> I (restClient s req w).2.

(** ** The rest of the fake *)

(** How a Go call ends: it returns, returns an error, or panics. *)
Inductive outcome (A : Type) : Type :=
| Returns (a : A)
| Fails (e : error)
| Panics (msg : string).
Arguments Returns {A} a.
Arguments Fails {A} e.
Arguments Panics {A} msg.

(** float64 arithmetic of the runtime, on bit patterns; the bit pattern of
    0.0 is 0. *)
Class Float64 : Type := {
  strconv_ParseFloat : string -> option Z;
  float_add : Z -> Z -> Z;
  float_div : Z -> Z -> Z;
  float_of_int : Z -> Z;
}.

(** [strings.Split(s, sep)] for a separator of one byte: the fields between
    the separators, at least one. *)
Fixpoint Split (sep : ascii) (s : string) : list string :=
  match s with
  | EmptyString => [EmptyString]
  | String c rest =>
      if Ascii.eqb c sep then EmptyString :: Split sep rest
      else match Split sep rest with
           | field :: fields => String c field :: fields
           | [] => [String c EmptyString]
           end
  end.

(** [floats64]: the loop over the parts, on the slice [r] built so far; an
    error ends it with nil. *)
Fixpoint floats64_parts `{Float64} (parts : list string) (r : option (list Z))
  : option (list Z) :=
  match parts with
  | [] => r
  | rank :: parts =>
      match strconv_ParseFloat rank with
      | None => None
      | Some f => floats64_parts parts (Some (elems r ++ [f]))
      end
  end.

Definition floats64 `{Float64} (s : string) : option (list Z) :=
  floats64_parts (Split "," s) None.

Module FakeScan.

(** One turn of the loop of [sf.GetIndexOptions] over the visited
    repositories, on the index map and the items. *)
Definition fakeStep (sf : Fake.sourcegraphFake) (reposIdx : gmap Z nat)
  (items : list indexOptionsItem) (name : string) : list indexOptionsItem :=
  match reposIdx !! Fake.id sf name with
  | None => items
  | Some idx =>
      match Fake.getIndexOptions sf name with
      | (_, Some err) =>
          <[ idx := {| Options := zeroIndexOptions; Error := err |} ]> items
      | (opts, None) =>
          <[ idx := {| Options := opts; Error := "" |} ]> items
      end
  end.


(** The item the loop writes for a visited repository: its options, or the
    error of reading them and nothing else. *)
Definition fakeItem (sf : Fake.sourcegraphFake) (name : string) : indexOptionsItem :=
  match Fake.getIndexOptions sf name with
  | (_, Some err) => {| Options := zeroIndexOptions; Error := err |}
  | (opts, None) => {| Options := opts; Error := "" |}
  end.

(** The last loop of [sf.GetIndexOptions] on one item: an item without an
    error and without an ID is marked "not found". *)
Definition marked (item : indexOptionsItem) : indexOptionsItem :=
  if String.eqb (Error item) "" && (RepoID (Options item) =? 0)
  then {| Options := Options item; Error := "not found" |}
  else item.

(** The item of an index that the loop over the directory never writes. *)
Definition notFound : indexOptionsItem :=
  {| Options := zeroIndexOptions; Error := "not found" |}.

(** [sf.ListRepoIDs]: the IDs of the repositories the walk visits, and the
    error of the walk. *)
Definition ListRepoIDs (sf : Fake.sourcegraphFake) : list Z * option error :=
  (map (Fake.id sf) (Fake.visitRepos sf).1, (Fake.visitRepos sf).2).

(** The closure of [sf.List]: an error of [GetIndexOptions] is logged and
    ignored, an item with an error is logged and skipped. *)
Definition iterate {C} (sf : Fake.sourcegraphFake) (repos : list Z)
  (f : IndexOptions -> C -> C) (c : C) : C :=
  let opts := match Fake.GetIndexOptions sf repos with
              | Ok opts => opts
              | Err _ => []
              end in
  foldl (fun c opt => if negb (String.eqb (Error opt) "") then c
                      else f (Options opt) c)
        c opts.

(** [sf.List]; the closure reads the directory when it runs. *)
Definition List {C} (sf : Fake.sourcegraphFake)
  : result (list Z * (Fake.sourcegraphFake -> (IndexOptions -> C -> C) -> C -> C)) :=
  match ListRepoIDs sf with
  | (_, Some err) => Err err
  | (repos, None) => Ok (repos, fun sf f c => iterate sf repos f c)
  end.

(** [sf.GetDocumentRanks] on the outcome of opening SG_DOCUMENT_RANKS: the
    lines the scanner yields and the error it ends with, if any.  The ranks
    start as [RepoPathRanks{}], whose map is nil. *)
Definition GetDocumentRanks `{Float64}
  (file : result (list string * option error)) : outcome RepoPathRanks :=
  match file with
  | Err err => Fails err
  | Ok (lines, scanErr) =>
    let scanned :=
      foldl (fun (st : outcome (option (gmap string Z) * Z * Z)) s =>
               match st with
               | Returns (paths, sum, count) =>
                   let pathRanks := Split "009" s in
                   match pathRanks !! 1%nat with
                   | None => Panics "index out of range [1] with length 1"
                   | Some field =>
                       match strconv_ParseFloat field with
                       | None => Returns (paths, sum, count)
                       | Some rank =>
                           match paths with
                           | None => Panics "assignment to entry in nil map"
                           | Some m =>
                               Returns (Some (<[ default "" (pathRanks !! 0%nat) := rank ]> m),
                                        float_add sum rank, count + 1)
                           end
                       end
                   end
               | _ => st
               end)
            (Returns (None, 0, 0)) lines in
    match scanned with
    | Returns (paths, sum, count) =>
        match scanErr with
        | Some err => Fails err
        | None => Returns {| MeanRank := float_div sum (float_of_int count);
                             Paths := paths |}
        end
    | Fails err => Fails err
    | Panics msg => Panics msg
    end
  end.

End FakeScan.

(** A line the loop of the fake's [GetDocumentRanks] gets past: it has a
    second field, which is not a number. *)
Definition skipped `{Float64} (s : string) : Prop :=
  exists field, Split "009" s !! 1%nat = Some field
                /\ strconv_ParseFloat field = None.

(** An item as the client hands it on: the clone URL is the one the client
    computes from the name. *)
Definition withClientURL {W} `{!GoEnv W} (s : sourcegraphClient W) (item : indexOptionsItem)
  : indexOptionsItem :=
  {| Options := withCloneURL (getCloneURL s (Name (Options item))) (Options item);
     Error := Error item |}.

(** ** Two more peers to run the client against *)

Module Peers.

(** A gRPC service that owns exactly the repositories the replica reports,
    and knows no options. *)
Definition echo {W} : proto.ZoektConfigurationServiceClient W := {|
  proto.SearchConfiguration := fun _ w =>
    (Ok {| proto.UpdatedOptions := []; proto.RespFingerprint := None |}, w);
  proto.List := fun req w => (Ok {| proto.ListRepoIds := proto.IndexedIds req |}, w);
|}.

Definition echoClient : sourcegraphClient Scripted.World :=
  newSourcegraphClient 0 Scripted.Do "http://sourcegraph" "indexserver-0"
    [WithGRPCClient echo; WithShouldUseGRPC true].


(** Status requests that are encoded as the number of their repositories,
    and ranks that are never decoded. *)
#[global] Instance statusCodec : StatusEnv := {|
  json_Marshal_indexStatus := fun r =>
    Ok (GoInt.Itoa (Z.of_nat (length (elems (status.Repositories r)))));
  json_Unmarshal_ranks := fun _ => Err "unexpected end of JSON input";
|}.

End Peers.


(** * The search types and their gRPC messages (api_proto.go)

    The conversions between the types of package zoekt and the messages of
    grpc/v1.  Neither the struct declarations nor the generated messages
    are among the sources; the records below hold the fields the
    conversions read and write, with the types the conversions show: a
    field that goes through [int(...)] one way and [int64(...)] the other
    is a Go int on one side and an int64 on the other, a field that is
    copied has the same type on both sides.  A [float64] is its bit
    pattern, a [[]byte] a string that may be nil.

    A pointer to a message or to a struct is an [option], [None] being nil.
    A generated getter returns the field, or the zero value of the field
    when the message pointer is nil ([getter]).  A method with a pointer
    receiver that does not check for nil takes the struct itself: calling
    it on nil panics. *)

Set Warnings "-register-all".

Definition uint16 (x : Z) : Z := x mod 2^16.

Definition float64 : Type := Z.
Definition bytes : Type := option string.

Definition getter {M A} (field : M -> A) (zero : A) (p : option M) : A :=
  match p with
  | Some m => field m
  | None => zero
  end.

(** [dst := make([]B, len(src)); for i, x := range src { dst[i] = f(x) }] *)
Definition fill {A B} (zero : B) (f : A -> B) (src : list A) : list B :=
  foldl (fun dst '(i, x) => <[ i := f x ]> dst)
        (replicate (length src) zero)
        (imap (fun i x => (i, x)) src).

(** The order in which a [range] visits the entries of a map, for maps of
    every type: some enumeration of the entries, each exactly once. *)
Class RangeOrder : Type := {
  rangeOver : forall {K} `{Countable K} {V}, gmap K V -> list (K * V);
  rangeOver_perm : forall {K} `{Countable K} {V} (m : gmap K V),
      rangeOver m ≡ₚ map_to_list m;
}.

(** ** The messages of grpc/v1 *)

Module v1.

Module Location.
Record t : Type := mk {
  ByteOffset : Z;                               (* uint32 *)
  LineNumber : Z;                               (* uint32 *)
  Column : Z;                                   (* uint32 *)
}.
End Location.

Module Range.
Record t : Type := mk {
  Start : option Location.t;
  End_ : option Location.t;
}.
End Range.

Module SymbolInfo.
Record t : Type := mk {
  Sym : string;
  Kind : string;
  Parent : string;
  ParentKind : string;
}.
End SymbolInfo.

Module LineFragmentMatch.
Record t : Type := mk {
  LineOffset : Z;                               (* int64 *)
  Offset : Z;                                   (* uint32 *)
  MatchLength : Z;                              (* int64 *)
  SymbolInfo : option SymbolInfo.t;
}.
End LineFragmentMatch.

Module LineMatch.
Record t : Type := mk {
  Line : bytes;
  LineStart : Z;                                (* int64 *)
  LineEnd : Z;                                  (* int64 *)
  LineNumber : Z;                               (* int64 *)
  Before : bytes;
  After : bytes;
  FileName : bool;
  Score : float64;
  DebugScore : string;
  LineFragments : option (list (option LineFragmentMatch.t));
}.
End LineMatch.

Module ChunkMatch.
Record t : Type := mk {
  Content : bytes;
  ContentStart : option Location.t;
  FileName : bool;
  Ranges : option (list (option Range.t));
  SymbolInfo : option (list (option SymbolInfo.t));
  Score : float64;
  DebugScore : string;
}.
End ChunkMatch.

Module FileMatch.
Record t : Type := mk {
  Score : float64; Debug : string;
  FileName : bytes;
  Repository : string;
  Branches : option (list string);
  LineMatches : option (list (option LineMatch.t));
  ChunkMatches : option (list (option ChunkMatch.t));
  RepositoryId : Z;                             (* uint32 *)
  RepositoryPriority : float64;
  Content : bytes;
  Checksum : bytes;
  Language : string;
  SubRepositoryName : string;
  SubRepositoryPath : string;
  Version : string;
}.
End FileMatch.

(** [durationpb.Duration] *)
Module Duration.
Record t : Type := mk {
  Seconds : Z;                                  (* int64 *)
  Nanos : Z;                                    (* int32 *)
}.
End Duration.

(** [timestamppb.Timestamp] *)
Module Timestamp.
Record t : Type := mk {
  Seconds : Z;                                  (* int64 *)
  Nanos : Z;                                    (* int32 *)
}.
End Timestamp.

Module Stats.
Record t : Type := mk {
  ContentBytesLoaded : Z;                       (* int64 *)
  IndexBytesLoaded : Z;                         (* int64 *)
  Crashes : Z;                                  (* int64 *)
  Duration : option Duration.t;
  FileCount : Z;
  ShardFilesConsidered : Z;
  FilesConsidered : Z;
  FilesLoaded : Z;
  FilesSkipped : Z;
  ShardsScanned : Z;
  ShardsSkipped : Z;
  ShardsSkippedFilter : Z;
  MatchCount : Z;
  NgramMatches : Z;
  Wait : option Duration.t;
  RegexpsConsidered : Z;
  FlushReason : Z;                              (* the enum, an int32 *)
}.
End Stats.

Module Progress.
Record t : Type := mk {
  Priority : float64;
  MaxPendingPriority : float64;
}.
End Progress.

Module SearchResponse.
Record t : Type := mk {
  Stats : option Stats.t;
  Progress : option Progress.t;
  Files : option (list (option FileMatch.t));
  RepoUrls : option (gmap string string);
  LineFragments : option (gmap string string);
}.
End SearchResponse.

Module RepositoryBranch.
Record t : Type := mk {
  Name : string;
  Version : string;
}.
End RepositoryBranch.

Module Repository.
Inductive t : Type := mk {
  Id : Z;                                       (* uint32 *)
  Name : string;
  Url : string;
  Source : string;
  Branches : option (list (option RepositoryBranch.t));
  SubRepoMap : option (gmap string (option t));
  CommitUrlTemplate : string;
  FileUrlTemplate : string;
  LineFragmentTemplate : string;
  Priority : float64;
  RawConfig : option (gmap string string);
  Rank : Z;                                     (* uint32 *)
  IndexOptions : string;
  HasSymbols : bool;
  Tombstone : bool;
  LatestCommitDate : option Timestamp.t;
  FileTombstones : option (list string);
}.
End Repository.

Module IndexMetadata.
Record t : Type := mk {
  IndexFormatVersion : Z;                       (* int64 *)
  IndexFeatureVersion : Z;                      (* int64 *)
  IndexMinReaderVersion : Z;                    (* int64 *)
  IndexTime : option Timestamp.t;
  PlainAscii : bool;
  LanguageMap : option (gmap string Z);         (* map[string]uint32 *)
  ZoektVersion : string;
  Id : string;
}.
End IndexMetadata.

Module RepoStats.
Record t : Type := mk {
  Repos : Z;                                    (* int64 *)
  Shards : Z;                                   (* int64 *)
  Documents : Z;                                (* int64 *)
  IndexBytes : Z;
  ContentBytes : Z;
  NewLinesCount : Z;
  DefaultBranchNewLinesCount : Z;
  OtherBranchesNewLinesCount : Z;
}.
End RepoStats.

Module RepoListEntry.
Record t : Type := mk {
  Repository : option Repository.t;
  IndexMetadata : option IndexMetadata.t;
  Stats : option RepoStats.t;
}.
End RepoListEntry.

Module MinimalRepoListEntry.
Record t : Type := mk {
  HasSymbols : bool;
  Branches : option (list (option RepositoryBranch.t));
}.
End MinimalRepoListEntry.

Module ListResponse.
Record t : Type := mk {
  Repos : option (list (option RepoListEntry.t));
  ReposMap : option (gmap Z (option MinimalRepoListEntry.t));
  Crashes : Z;                                  (* int64 *)
  Stats : option RepoStats.t;
  Minimal : option (gmap Z (option MinimalRepoListEntry.t));
}.
End ListResponse.

Module ListOptions.
Record t : Type := mk {
  Field : Z;                                    (* the enum, an int32 *)
  Minimal : bool;
}.
End ListOptions.

Module SearchOptions.
Record t : Type := mk {
  EstimateDocCount : bool;
  Whole : bool;
  ShardMaxMatchCount : Z;                       (* int64 *)
  TotalMaxMatchCount : Z;                       (* int64 *)
  ShardRepoMaxMatchCount : Z;                   (* int64 *)
  MaxWallTime : option Duration.t;
  FlushWallTime : option Duration.t;
  MaxDocDisplayCount : Z;                       (* int64 *)
  NumContextLines : Z;                          (* int64 *)
  ChunkMatches : bool;
  UseDocumentRanks : bool;
  DocumentRanksWeight : float64;
  Trace : bool;
  DebugScore : bool;
  SpanContext : option (gmap string string);
}.
End SearchOptions.

End v1.

(** ** The types of package zoekt *)

(** [time.Time], as the runtime declares it: the wall and monotonic
    readings and the location pointer. *)
Record Time : Type := {
  wall : Z;
  ext : Z;
  loc : Z;
}.

Module api.

Module Location.
Record t : Type := mk {
  ByteOffset : Z;
  LineNumber : Z;
  Column : Z;
}.
End Location.

Module Range.
Record t : Type := mk {
  Start : Location.t;
  End_ : Location.t;
}.
End Range.

Module Symbol.
Record t : Type := mk {
  Sym : string;
  Kind : string;
  Parent : string;
  ParentKind : string;
}.
End Symbol.

Module LineFragmentMatch.
Record t : Type := mk {
  LineOffset : Z;                               (* int *)
  Offset : Z;                                   (* uint32 *)
  MatchLength : Z;                              (* int *)
  SymbolInfo : option Symbol.t;
}.
Definition zero : t := mk 0 0 0 None.
End LineFragmentMatch.

Module LineMatch.
Record t : Type := mk {
  Line : bytes;
  LineStart : Z;                                (* int *)
  LineEnd : Z;                                  (* int *)
  LineNumber : Z;                               (* int *)
  Before : bytes;
  After : bytes;
  FileName : bool;
  Score : float64;
  DebugScore : string;
  LineFragments : option (list LineFragmentMatch.t);
}.
Definition zero : t := mk None 0 0 0 None None false 0 "" None.
End LineMatch.

Module ChunkMatch.
Record t : Type := mk {
  Content : bytes;
  ContentStart : Location.t;
  FileName : bool;
  Ranges : option (list Range.t);
  SymbolInfo : option (list (option Symbol.t));
  Score : float64;
  DebugScore : string;
}.
Definition zero : t := mk None (Location.mk 0 0 0) false None None 0 "".
End ChunkMatch.

Module FileMatch.
Record t : Type := mk {
  Score : float64; Debug : string;
  FileName : bytes;
  Repository : string;
  Branches : option (list string);
  LineMatches : option (list LineMatch.t);
  ChunkMatches : option (list ChunkMatch.t);
  RepositoryID : Z;                             (* uint32 *)
  RepositoryPriority : float64;
  Content : bytes;
  Checksum : bytes;
  Language : string;
  SubRepositoryName : string;
  SubRepositoryPath : string;
  Version : string;
}.
Definition zero : t :=
  mk 0 "" None "" None None None 0 0 None None "" "" "" "".
End FileMatch.

Module Stats.
Record t : Type := mk {
  ContentBytesLoaded : Z;                       (* int64 *)
  IndexBytesLoaded : Z;                         (* int64 *)
  Crashes : Z;                                  (* int *)
  Duration : Z;                                 (* time.Duration, an int64 *)
  FileCount : Z;                                (* int, as are the counts below *)
  ShardFilesConsidered : Z;
  FilesConsidered : Z;
  FilesLoaded : Z;
  FilesSkipped : Z;
  ShardsScanned : Z;
  ShardsSkipped : Z;
  ShardsSkippedFilter : Z;
  MatchCount : Z;
  NgramMatches : Z;
  Wait : Z;                                     (* time.Duration *)
  RegexpsConsidered : Z;
  FlushReason : Z;                              (* FlushReason, an integer type *)
}.
End Stats.

Module Progress.
Record t : Type := mk {
  Priority : float64;
  MaxPendingPriority : float64;
}.
End Progress.

Module SearchResult.
Record t : Type := mk {
  Stats : Stats.t;
  Progress : Progress.t;
  Files : option (list FileMatch.t);
  RepoURLs : option (gmap string string);
  LineFragments : option (gmap string string);
}.
End SearchResult.

Module Repository.
Inductive t : Type := mk {
  ID : Z;                                       (* uint32 *)
  Name : string;
  URL : string;
  Source : string;
  Branches : option (list zoekt.RepositoryBranch);
  SubRepoMap : option (gmap string (option t));
  CommitURLTemplate : string;
  FileURLTemplate : string;
  LineFragmentTemplate : string;
  priority : float64;
  RawConfig : option (gmap string string);
  Rank : Z;                                     (* uint16 *)
  IndexOptions : string;
  HasSymbols : bool;
  Tombstone : bool;
  LatestCommitDate : Time;
  FileTombstones : option (gmap string unit);   (* map[string]struct{} *)
}.
End Repository.

Module IndexMetadata.
Record t : Type := mk {
  IndexFormatVersion : Z;                       (* int *)
  IndexFeatureVersion : Z;                      (* int *)
  IndexMinReaderVersion : Z;                    (* int *)
  IndexTime : Time;
  PlainASCII : bool;
  LanguageMap : option (gmap string Z);         (* map[string]uint16 *)
  ZoektVersion : string;
  ID : string;
}.
End IndexMetadata.

Module RepoStats.
Record t : Type := mk {
  Repos : Z;                                    (* int *)
  Shards : Z;                                   (* int *)
  Documents : Z;                                (* int *)
  IndexBytes : Z;
  ContentBytes : Z;
  NewLinesCount : Z;
  DefaultBranchNewLinesCount : Z;
  OtherBranchesNewLinesCount : Z;
}.
End RepoStats.

Module RepoListEntry.
Record t : Type := mk {
  Repository : Repository.t;
  IndexMetadata : IndexMetadata.t;
  Stats : RepoStats.t;
}.
End RepoListEntry.

Module MinimalRepoListEntry.
Record t : Type := mk {
  HasSymbols : bool;
  Branches : option (list zoekt.RepositoryBranch);
}.
End MinimalRepoListEntry.

Module RepoList.
Record t : Type := mk {
  Repos : option (list (option RepoListEntry.t));
  ReposMap : option (gmap Z MinimalRepoListEntry.t);
  Crashes : Z;                                  (* int *)
  Stats : RepoStats.t;
  Minimal : option (gmap Z (option MinimalRepoListEntry.t));
}.
End RepoList.

Module ListOptions.
Record t : Type := mk {
  Field : Z;                                    (* RepoListField, an integer type *)
  Minimal : bool;
}.
End ListOptions.

Module SearchOptions.
Record t : Type := mk {
  EstimateDocCount : bool;
  Whole : bool;
  ShardMaxMatchCount : Z;                       (* int *)
  TotalMaxMatchCount : Z;                       (* int *)
  ShardRepoMaxMatchCount : Z;                   (* int *)
  MaxWallTime : Z;                              (* time.Duration *)
  FlushWallTime : Z;                            (* time.Duration *)
  MaxDocDisplayCount : Z;                       (* int *)
  NumContextLines : Z;                          (* int *)
  ChunkMatches : bool;
  UseDocumentRanks : bool;
  DocumentRanksWeight : float64;
  Trace : bool;
  DebugScore : bool;
  SpanContext : option (gmap string string);
}.
End SearchOptions.

End api.

(** ** What the conversions take from their surroundings *)

(** The well-known types: [durationpb.New] and [AsDuration],
    [timestamppb.New] and [AsTime].  A duration that is made into a message
    and read back is the same duration. *)
Class WellKnown : Type := {
  durationpb_New : Z -> v1.Duration.t;
  AsDuration : option v1.Duration.t -> Z;
  AsDuration_New : forall d,
      - 2^63 <= d < 2^63 -> AsDuration (Some (durationpb_New d)) = d;
  timestamppb_New : Time -> v1.Timestamp.t;
  AsTime : option v1.Timestamp.t -> Time;
}.

(** The named flush reasons and repository list fields, on both sides.
    The constants are declared outside the sources.  The cases of one
    switch differ from each other, or the switch would not compile; the
    values of a generated enum differ from each other. *)
Class Enums : Type := {
  FlushReasonTimerExpired : Z;
  FlushReasonFinalFlush : Z;
  FlushReasonMaxSize : Z;
  v1_FlushReason_UNKNOWN : Z;
  v1_FlushReason_TIMER_EXPIRED : Z;
  v1_FlushReason_FINAL_FLUSH : Z;
  v1_FlushReason_MAX_SIZE : Z;
  FlushReason_cases :
    NoDup [FlushReasonTimerExpired; FlushReasonFinalFlush; FlushReasonMaxSize];
  v1_FlushReason_cases :
    NoDup [v1_FlushReason_UNKNOWN; v1_FlushReason_TIMER_EXPIRED;
           v1_FlushReason_FINAL_FLUSH; v1_FlushReason_MAX_SIZE];
  RepoListFieldRepos : Z;
  RepoListFieldMinimal : Z;
  RepoListFieldReposMap : Z;
  v1_ListOptions_REPO_LIST_FIELD_REPOS : Z;
  v1_ListOptions_REPO_LIST_FIELD_MINIMAL : Z;
  v1_ListOptions_REPO_LIST_FIELD_REPOS_MAP : Z;
  RepoListField_cases :
    NoDup [RepoListFieldRepos; RepoListFieldMinimal; RepoListFieldReposMap];
  v1_RepoListField_cases :
    NoDup [v1_ListOptions_REPO_LIST_FIELD_REPOS;
           v1_ListOptions_REPO_LIST_FIELD_MINIMAL;
           v1_ListOptions_REPO_LIST_FIELD_REPOS_MAP];
}.

(** ** Matches *)

Section Conversions.
Context `{GoArch} `{WellKnown} `{Enums} `{MapRange} `{RangeOrder}.

Definition LocationFromProto (p : option v1.Location.t) : api.Location.t :=
  {| api.Location.ByteOffset := getter v1.Location.ByteOffset 0 p;
     api.Location.LineNumber := getter v1.Location.LineNumber 0 p;
     api.Location.Column := getter v1.Location.Column 0 p |}.

Definition Location_ToProto (l : api.Location.t) : v1.Location.t :=
  {| v1.Location.ByteOffset := api.Location.ByteOffset l;
     v1.Location.LineNumber := api.Location.LineNumber l;
     v1.Location.Column := api.Location.Column l |}.

Definition RangeFromProto (p : option v1.Range.t) : api.Range.t :=
  {| api.Range.Start := LocationFromProto (getter v1.Range.Start None p);
     api.Range.End_ := LocationFromProto (getter v1.Range.End_ None p) |}.

Definition Range_ToProto (r : api.Range.t) : v1.Range.t :=
  {| v1.Range.Start := Some (Location_ToProto (api.Range.Start r));
     v1.Range.End_ := Some (Location_ToProto (api.Range.End_ r)) |}.

Definition SymbolFromProto (p : option v1.SymbolInfo.t) : option api.Symbol.t :=
  match p with
  | None => None
  | Some _ =>
      Some {| api.Symbol.Sym := getter v1.SymbolInfo.Sym "" p;
              api.Symbol.Kind := getter v1.SymbolInfo.Kind "" p;
              api.Symbol.Parent := getter v1.SymbolInfo.Parent "" p;
              api.Symbol.ParentKind := getter v1.SymbolInfo.ParentKind "" p |}
  end.

Definition Symbol_ToProto (s : option api.Symbol.t) : option v1.SymbolInfo.t :=
  match s with
  | None => None
  | Some s =>
      Some {| v1.SymbolInfo.Sym := api.Symbol.Sym s;
              v1.SymbolInfo.Kind := api.Symbol.Kind s;
              v1.SymbolInfo.Parent := api.Symbol.Parent s;
              v1.SymbolInfo.ParentKind := api.Symbol.ParentKind s |}
  end.

Definition LineFragmentMatchFromProto (p : option v1.LineFragmentMatch.t)
  : api.LineFragmentMatch.t :=
  {| api.LineFragmentMatch.LineOffset :=
       Go_int (getter v1.LineFragmentMatch.LineOffset 0 p);
     api.LineFragmentMatch.Offset := getter v1.LineFragmentMatch.Offset 0 p;
     api.LineFragmentMatch.MatchLength :=
       Go_int (getter v1.LineFragmentMatch.MatchLength 0 p);
     api.LineFragmentMatch.SymbolInfo :=
       SymbolFromProto (getter v1.LineFragmentMatch.SymbolInfo None p) |}.

Definition LineFragmentMatch_ToProto (lfm : api.LineFragmentMatch.t)
  : v1.LineFragmentMatch.t :=
  {| v1.LineFragmentMatch.LineOffset :=
       GoInt.int64 (api.LineFragmentMatch.LineOffset lfm);
     v1.LineFragmentMatch.Offset := api.LineFragmentMatch.Offset lfm;
     v1.LineFragmentMatch.MatchLength :=
       GoInt.int64 (api.LineFragmentMatch.MatchLength lfm);
     v1.LineFragmentMatch.SymbolInfo :=
       Symbol_ToProto (api.LineFragmentMatch.SymbolInfo lfm) |}.

Definition LineMatchFromProto (p : option v1.LineMatch.t) : api.LineMatch.t :=
  let lineFragments :=
    fill api.LineFragmentMatch.zero LineFragmentMatchFromProto
         (elems (getter v1.LineMatch.LineFragments None p)) in
  {| api.LineMatch.Line := getter v1.LineMatch.Line None p;
     api.LineMatch.LineStart := Go_int (getter v1.LineMatch.LineStart 0 p);
     api.LineMatch.LineEnd := Go_int (getter v1.LineMatch.LineEnd 0 p);
     api.LineMatch.LineNumber := Go_int (getter v1.LineMatch.LineNumber 0 p);
     api.LineMatch.Before := getter v1.LineMatch.Before None p;
     api.LineMatch.After := getter v1.LineMatch.After None p;
     api.LineMatch.FileName := getter v1.LineMatch.FileName false p;
     api.LineMatch.Score := getter v1.LineMatch.Score 0 p;
     api.LineMatch.DebugScore := getter v1.LineMatch.DebugScore "" p;
     api.LineMatch.LineFragments := Some lineFragments |}.

Definition LineMatch_ToProto (lm : api.LineMatch.t) : v1.LineMatch.t :=
  let fragments :=
    fill None (fun fragment => Some (LineFragmentMatch_ToProto fragment))
         (elems (api.LineMatch.LineFragments lm)) in
  {| v1.LineMatch.Line := api.LineMatch.Line lm;
     v1.LineMatch.LineStart := GoInt.int64 (api.LineMatch.LineStart lm);
     v1.LineMatch.LineEnd := GoInt.int64 (api.LineMatch.LineEnd lm);
     v1.LineMatch.LineNumber := GoInt.int64 (api.LineMatch.LineNumber lm);
     v1.LineMatch.Before := api.LineMatch.Before lm;
     v1.LineMatch.After := api.LineMatch.After lm;
     v1.LineMatch.FileName := api.LineMatch.FileName lm;
     v1.LineMatch.Score := api.LineMatch.Score lm;
     v1.LineMatch.DebugScore := api.LineMatch.DebugScore lm;
     v1.LineMatch.LineFragments := Some fragments |}.

Definition ChunkMatchFromProto (p : option v1.ChunkMatch.t) : api.ChunkMatch.t :=
  let ranges :=
    fill (api.Range.mk (api.Location.mk 0 0 0) (api.Location.mk 0 0 0))
         RangeFromProto (elems (getter v1.ChunkMatch.Ranges None p)) in
  let symbols :=
    fill None SymbolFromProto (elems (getter v1.ChunkMatch.SymbolInfo None p)) in
  {| api.ChunkMatch.Content := getter v1.ChunkMatch.Content None p;
     api.ChunkMatch.ContentStart :=
       LocationFromProto (getter v1.ChunkMatch.ContentStart None p);
     api.ChunkMatch.FileName := getter v1.ChunkMatch.FileName false p;
     api.ChunkMatch.Ranges := Some ranges;
     api.ChunkMatch.SymbolInfo := Some symbols;
     api.ChunkMatch.Score := getter v1.ChunkMatch.Score 0 p;
     api.ChunkMatch.DebugScore := getter v1.ChunkMatch.DebugScore "" p |}.

Definition ChunkMatch_ToProto (cm : api.ChunkMatch.t) : v1.ChunkMatch.t :=
  let ranges :=
    fill None (fun r => Some (Range_ToProto r))
         (elems (api.ChunkMatch.Ranges cm)) in
  let symbolInfo :=
    fill None Symbol_ToProto (elems (api.ChunkMatch.SymbolInfo cm)) in
  {| v1.ChunkMatch.Content := api.ChunkMatch.Content cm;
     v1.ChunkMatch.ContentStart :=
       Some (Location_ToProto (api.ChunkMatch.ContentStart cm));
     v1.ChunkMatch.FileName := api.ChunkMatch.FileName cm;
     v1.ChunkMatch.Ranges := Some ranges;
     v1.ChunkMatch.SymbolInfo := Some symbolInfo;
     v1.ChunkMatch.Score := api.ChunkMatch.Score cm;
     v1.ChunkMatch.DebugScore := api.ChunkMatch.DebugScore cm |}.

Definition FileMatchFromProto (p : option v1.FileMatch.t) : api.FileMatch.t :=
  let lineMatches :=
    fill api.LineMatch.zero LineMatchFromProto
         (elems (getter v1.FileMatch.LineMatches None p)) in
  let chunkMatches :=
    fill api.ChunkMatch.zero ChunkMatchFromProto
         (elems (getter v1.FileMatch.ChunkMatches None p)) in
  {| api.FileMatch.Score := getter v1.FileMatch.Score 0 p;
     api.FileMatch.Debug := getter v1.FileMatch.Debug "" p;
     api.FileMatch.FileName := getter v1.FileMatch.FileName None p;
     api.FileMatch.Repository := getter v1.FileMatch.Repository "" p;
     api.FileMatch.Branches := getter v1.FileMatch.Branches None p;
     api.FileMatch.LineMatches := Some lineMatches;
     api.FileMatch.ChunkMatches := Some chunkMatches;
     api.FileMatch.RepositoryID := getter v1.FileMatch.RepositoryId 0 p;
     api.FileMatch.RepositoryPriority :=
       getter v1.FileMatch.RepositoryPriority 0 p;
     api.FileMatch.Content := getter v1.FileMatch.Content None p;
     api.FileMatch.Checksum := getter v1.FileMatch.Checksum None p;
     api.FileMatch.Language := getter v1.FileMatch.Language "" p;
     api.FileMatch.SubRepositoryName :=
       getter v1.FileMatch.SubRepositoryName "" p;
     api.FileMatch.SubRepositoryPath :=
       getter v1.FileMatch.SubRepositoryPath "" p;
     api.FileMatch.Version := getter v1.FileMatch.Version "" p |}.

Definition FileMatch_ToProto (m : api.FileMatch.t) : v1.FileMatch.t :=
  let lineMatches :=
    fill None (fun lm => Some (LineMatch_ToProto lm))
         (elems (api.FileMatch.LineMatches m)) in
  let chunkMatches :=
    fill None (fun cm => Some (ChunkMatch_ToProto cm))
         (elems (api.FileMatch.ChunkMatches m)) in
  {| v1.FileMatch.Score := api.FileMatch.Score m;
     v1.FileMatch.Debug := api.FileMatch.Debug m;
     v1.FileMatch.FileName := api.FileMatch.FileName m;
     v1.FileMatch.Repository := api.FileMatch.Repository m;
     v1.FileMatch.Branches := api.FileMatch.Branches m;
     v1.FileMatch.LineMatches := Some lineMatches;
     v1.FileMatch.ChunkMatches := Some chunkMatches;
     v1.FileMatch.RepositoryId := api.FileMatch.RepositoryID m;
     v1.FileMatch.RepositoryPriority := api.FileMatch.RepositoryPriority m;
     v1.FileMatch.Content := api.FileMatch.Content m;
     v1.FileMatch.Checksum := api.FileMatch.Checksum m;
     v1.FileMatch.Language := api.FileMatch.Language m;
     v1.FileMatch.SubRepositoryName := api.FileMatch.SubRepositoryName m;
     v1.FileMatch.SubRepositoryPath := api.FileMatch.SubRepositoryPath m;
     v1.FileMatch.Version := api.FileMatch.Version m |}.

(** ** Statistics and search results *)

Definition FlushReasonFromProto (p : Z) : Z :=
  if decide (p = v1_FlushReason_TIMER_EXPIRED) then FlushReasonTimerExpired
  else if decide (p = v1_FlushReason_FINAL_FLUSH) then FlushReasonFinalFlush
  else if decide (p = v1_FlushReason_MAX_SIZE) then FlushReasonMaxSize
  else 0.

Definition FlushReason_ToProto (fr : Z) : Z :=
  if decide (fr = FlushReasonTimerExpired) then v1_FlushReason_TIMER_EXPIRED
  else if decide (fr = FlushReasonFinalFlush) then v1_FlushReason_FINAL_FLUSH
  else if decide (fr = FlushReasonMaxSize) then v1_FlushReason_MAX_SIZE
  else v1_FlushReason_UNKNOWN.

(** [Generate], on the draw of [rand.Int()], which is not negative. *)
Definition FlushReason_Generate (draw : Z) : Z :=
  match draw mod 4 with
  | 1 => FlushReasonMaxSize
  | 2 => FlushReasonFinalFlush
  | 3 => FlushReasonTimerExpired
  | _ => 0
  end.

Definition StatsFromProto (p : option v1.Stats.t) : api.Stats.t :=
  {| api.Stats.ContentBytesLoaded := getter v1.Stats.ContentBytesLoaded 0 p;
     api.Stats.IndexBytesLoaded := getter v1.Stats.IndexBytesLoaded 0 p;
     api.Stats.Crashes := Go_int (getter v1.Stats.Crashes 0 p);
     api.Stats.Duration := AsDuration (getter v1.Stats.Duration None p);
     api.Stats.FileCount := Go_int (getter v1.Stats.FileCount 0 p);
     api.Stats.ShardFilesConsidered :=
       Go_int (getter v1.Stats.ShardFilesConsidered 0 p);
     api.Stats.FilesConsidered := Go_int (getter v1.Stats.FilesConsidered 0 p);
     api.Stats.FilesLoaded := Go_int (getter v1.Stats.FilesLoaded 0 p);
     api.Stats.FilesSkipped := Go_int (getter v1.Stats.FilesSkipped 0 p);
     api.Stats.ShardsScanned := Go_int (getter v1.Stats.ShardsScanned 0 p);
     api.Stats.ShardsSkipped := Go_int (getter v1.Stats.ShardsSkipped 0 p);
     api.Stats.ShardsSkippedFilter :=
       Go_int (getter v1.Stats.ShardsSkippedFilter 0 p);
     api.Stats.MatchCount := Go_int (getter v1.Stats.MatchCount 0 p);
     api.Stats.NgramMatches := Go_int (getter v1.Stats.NgramMatches 0 p);
     api.Stats.Wait := AsDuration (getter v1.Stats.Wait None p);
     api.Stats.RegexpsConsidered :=
       Go_int (getter v1.Stats.RegexpsConsidered 0 p);
     api.Stats.FlushReason :=
       FlushReasonFromProto (getter v1.Stats.FlushReason 0 p) |}.

Definition Stats_ToProto (s : api.Stats.t) : v1.Stats.t :=
  {| v1.Stats.ContentBytesLoaded := api.Stats.ContentBytesLoaded s;
     v1.Stats.IndexBytesLoaded := api.Stats.IndexBytesLoaded s;
     v1.Stats.Crashes := GoInt.int64 (api.Stats.Crashes s);
     v1.Stats.Duration := Some (durationpb_New (api.Stats.Duration s));
     v1.Stats.FileCount := GoInt.int64 (api.Stats.FileCount s);
     v1.Stats.ShardFilesConsidered :=
       GoInt.int64 (api.Stats.ShardFilesConsidered s);
     v1.Stats.FilesConsidered := GoInt.int64 (api.Stats.FilesConsidered s);
     v1.Stats.FilesLoaded := GoInt.int64 (api.Stats.FilesLoaded s);
     v1.Stats.FilesSkipped := GoInt.int64 (api.Stats.FilesSkipped s);
     v1.Stats.ShardsScanned := GoInt.int64 (api.Stats.ShardsScanned s);
     v1.Stats.ShardsSkipped := GoInt.int64 (api.Stats.ShardsSkipped s);
     v1.Stats.ShardsSkippedFilter :=
       GoInt.int64 (api.Stats.ShardsSkippedFilter s);
     v1.Stats.MatchCount := GoInt.int64 (api.Stats.MatchCount s);
     v1.Stats.NgramMatches := GoInt.int64 (api.Stats.NgramMatches s);
     v1.Stats.Wait := Some (durationpb_New (api.Stats.Wait s));
     v1.Stats.RegexpsConsidered := GoInt.int64 (api.Stats.RegexpsConsidered s);
     v1.Stats.FlushReason := FlushReason_ToProto (api.Stats.FlushReason s) |}.

Definition ProgressFromProto (p : option v1.Progress.t) : api.Progress.t :=
  {| api.Progress.Priority := getter v1.Progress.Priority 0 p;
     api.Progress.MaxPendingPriority :=
       getter v1.Progress.MaxPendingPriority 0 p |}.

Definition Progress_ToProto (p : api.Progress.t) : v1.Progress.t :=
  {| v1.Progress.Priority := api.Progress.Priority p;
     v1.Progress.MaxPendingPriority := api.Progress.MaxPendingPriority p |}.

Definition SearchResultFromProto (p : option v1.SearchResponse.t)
  : option api.SearchResult.t :=
  match p with
  | None => None
  | Some m =>
      let files :=
        fill api.FileMatch.zero FileMatchFromProto
             (elems (getter v1.SearchResponse.Files None p)) in
      Some {| api.SearchResult.Stats :=
                StatsFromProto (getter v1.SearchResponse.Stats None p);
              api.SearchResult.Progress :=
                ProgressFromProto (getter v1.SearchResponse.Progress None p);
              api.SearchResult.Files := Some files;
              api.SearchResult.RepoURLs := v1.SearchResponse.RepoUrls m;
              api.SearchResult.LineFragments :=
                v1.SearchResponse.LineFragments m |}
  end.

Definition SearchResult_ToProto (sr : option api.SearchResult.t)
  : option v1.SearchResponse.t :=
  match sr with
  | None => None
  | Some sr =>
      let files :=
        fill None (fun file => Some (FileMatch_ToProto file))
             (elems (api.SearchResult.Files sr)) in
      Some {| v1.SearchResponse.Stats :=
                Some (Stats_ToProto (api.SearchResult.Stats sr));
              v1.SearchResponse.Progress :=
                Some (Progress_ToProto (api.SearchResult.Progress sr));
              v1.SearchResponse.Files := Some files;
              v1.SearchResponse.RepoUrls := api.SearchResult.RepoURLs sr;
              v1.SearchResponse.LineFragments :=
                api.SearchResult.LineFragments sr |}
  end.

End Conversions.

(** ** What comes back from a round trip *)

(** A slice that went through [make]: never nil. *)
Definition made {A} (s : option (list A)) : option (list A) := Some (elems s).

Definition LineMatch_made (lm : api.LineMatch.t) : api.LineMatch.t :=
  {| api.LineMatch.Line := api.LineMatch.Line lm;
     api.LineMatch.LineStart := api.LineMatch.LineStart lm;
     api.LineMatch.LineEnd := api.LineMatch.LineEnd lm;
     api.LineMatch.LineNumber := api.LineMatch.LineNumber lm;
     api.LineMatch.Before := api.LineMatch.Before lm;
     api.LineMatch.After := api.LineMatch.After lm;
     api.LineMatch.FileName := api.LineMatch.FileName lm;
     api.LineMatch.Score := api.LineMatch.Score lm;
     api.LineMatch.DebugScore := api.LineMatch.DebugScore lm;
     api.LineMatch.LineFragments := made (api.LineMatch.LineFragments lm) |}.

Definition ChunkMatch_made (cm : api.ChunkMatch.t) : api.ChunkMatch.t :=
  {| api.ChunkMatch.Content := api.ChunkMatch.Content cm;
     api.ChunkMatch.ContentStart := api.ChunkMatch.ContentStart cm;
     api.ChunkMatch.FileName := api.ChunkMatch.FileName cm;
     api.ChunkMatch.Ranges := made (api.ChunkMatch.Ranges cm);
     api.ChunkMatch.SymbolInfo := made (api.ChunkMatch.SymbolInfo cm);
     api.ChunkMatch.Score := api.ChunkMatch.Score cm;
     api.ChunkMatch.DebugScore := api.ChunkMatch.DebugScore cm |}.

Definition FileMatch_made (m : api.FileMatch.t) : api.FileMatch.t :=
  {| api.FileMatch.Score := api.FileMatch.Score m;
     api.FileMatch.Debug := api.FileMatch.Debug m;
     api.FileMatch.FileName := api.FileMatch.FileName m;
     api.FileMatch.Repository := api.FileMatch.Repository m;
     api.FileMatch.Branches := api.FileMatch.Branches m;
     api.FileMatch.LineMatches :=
       Some (map LineMatch_made (elems (api.FileMatch.LineMatches m)));
     api.FileMatch.ChunkMatches :=
       Some (map ChunkMatch_made (elems (api.FileMatch.ChunkMatches m)));
     api.FileMatch.RepositoryID := api.FileMatch.RepositoryID m;
     api.FileMatch.RepositoryPriority := api.FileMatch.RepositoryPriority m;
     api.FileMatch.Content := api.FileMatch.Content m;
     api.FileMatch.Checksum := api.FileMatch.Checksum m;
     api.FileMatch.Language := api.FileMatch.Language m;
     api.FileMatch.SubRepositoryName := api.FileMatch.SubRepositoryName m;
     api.FileMatch.SubRepositoryPath := api.FileMatch.SubRepositoryPath m;
     api.FileMatch.Version := api.FileMatch.Version m |}.

(** The fields of type int hold an int. *)
Definition LineFragmentMatch_ints `{GoArch} (lfm : api.LineFragmentMatch.t) : Prop :=
  isInt (api.LineFragmentMatch.LineOffset lfm)
  /\ isInt (api.LineFragmentMatch.MatchLength lfm).

Definition LineMatch_ints `{GoArch} (lm : api.LineMatch.t) : Prop :=
  isInt (api.LineMatch.LineStart lm)
  /\ isInt (api.LineMatch.LineEnd lm)
  /\ isInt (api.LineMatch.LineNumber lm)
  /\ Forall LineFragmentMatch_ints (elems (api.LineMatch.LineFragments lm)).

Definition FileMatch_ints `{GoArch} (m : api.FileMatch.t) : Prop :=
  Forall LineMatch_ints (elems (api.FileMatch.LineMatches m)).

Definition Stats_ints `{GoArch} (s : api.Stats.t) : Prop :=
  Forall isInt
    [api.Stats.Crashes s; api.Stats.FileCount s;
     api.Stats.ShardFilesConsidered s; api.Stats.FilesConsidered s;
     api.Stats.FilesLoaded s; api.Stats.FilesSkipped s;
     api.Stats.ShardsScanned s; api.Stats.ShardsSkipped s;
     api.Stats.ShardsSkippedFilter s; api.Stats.MatchCount s;
     api.Stats.NgramMatches s; api.Stats.RegexpsConsidered s]
  /\ Forall (fun d => - 2^63 <= d < 2^63)
       [api.Stats.Duration s; api.Stats.Wait s].

(** The flush reason as the two switches leave it. *)
Definition Stats_flushed `{Enums} (s : api.Stats.t) : api.Stats.t :=
  {| api.Stats.ContentBytesLoaded := api.Stats.ContentBytesLoaded s;
     api.Stats.IndexBytesLoaded := api.Stats.IndexBytesLoaded s;
     api.Stats.Crashes := api.Stats.Crashes s;
     api.Stats.Duration := api.Stats.Duration s;
     api.Stats.FileCount := api.Stats.FileCount s;
     api.Stats.ShardFilesConsidered := api.Stats.ShardFilesConsidered s;
     api.Stats.FilesConsidered := api.Stats.FilesConsidered s;
     api.Stats.FilesLoaded := api.Stats.FilesLoaded s;
     api.Stats.FilesSkipped := api.Stats.FilesSkipped s;
     api.Stats.ShardsScanned := api.Stats.ShardsScanned s;
     api.Stats.ShardsSkipped := api.Stats.ShardsSkipped s;
     api.Stats.ShardsSkippedFilter := api.Stats.ShardsSkippedFilter s;
     api.Stats.MatchCount := api.Stats.MatchCount s;
     api.Stats.NgramMatches := api.Stats.NgramMatches s;
     api.Stats.Wait := api.Stats.Wait s;
     api.Stats.RegexpsConsidered := api.Stats.RegexpsConsidered s;
     api.Stats.FlushReason :=
       FlushReasonFromProto (FlushReason_ToProto (api.Stats.FlushReason s)) |}.

Definition namedFlushReason `{Enums} (fr : Z) : Prop :=
  fr ∈ [FlushReasonTimerExpired; FlushReasonFinalFlush; FlushReasonMaxSize].

#[global] Instance namedFlushReason_dec `{Enums} (fr : Z) :
  Decision (namedFlushReason fr).
Proof. unfold namedFlushReason. apply _. Defined.

Definition SearchResult_made `{Enums} (sr : api.SearchResult.t) : api.SearchResult.t :=
  {| api.SearchResult.Stats := Stats_flushed (api.SearchResult.Stats sr);
     api.SearchResult.Progress := api.SearchResult.Progress sr;
     api.SearchResult.Files :=
       Some (map FileMatch_made (elems (api.SearchResult.Files sr)));
     api.SearchResult.RepoURLs := api.SearchResult.RepoURLs sr;
     api.SearchResult.LineFragments := api.SearchResult.LineFragments sr |}.

Definition SearchResult_ints `{GoArch} (sr : api.SearchResult.t) : Prop :=
  Stats_ints (api.SearchResult.Stats sr)
  /\ Forall FileMatch_ints (elems (api.SearchResult.Files sr)).

(** ** Repositories and repository lists *)

Section Repositories.
Context `{GoArch} `{WellKnown} `{Enums} `{MapRange} `{RangeOrder}.

Definition RepositoryBranchFromProto (p : option v1.RepositoryBranch.t)
  : zoekt.RepositoryBranch :=
  {| zoekt.Name := getter v1.RepositoryBranch.Name "" p;
     zoekt.Version := getter v1.RepositoryBranch.Version "" p |}.

Definition RepositoryBranch_ToProto (r : zoekt.RepositoryBranch)
  : v1.RepositoryBranch.t :=
  {| v1.RepositoryBranch.Name := zoekt.Name r;
     v1.RepositoryBranch.Version := zoekt.Version r |}.

Definition zeroBranch : zoekt.RepositoryBranch :=
  {| zoekt.Name := ""; zoekt.Version := "" |}.

(** [RepositoryFromProto] once the sub-repositories are converted: the other
    loops and the struct it returns. *)
Definition RepositoryFromProto_fields (p : option v1.Repository.t)
  (subRepoMap : gmap string (option api.Repository.t)) : api.Repository.t :=
  let branches :=
    fill zeroBranch RepositoryBranchFromProto
         (elems (getter v1.Repository.Branches None p)) in
  let fileTombstones :=
    foldl (fun (acc : gmap string unit) file => <[ file := tt ]> acc) ∅
          (elems (getter v1.Repository.FileTombstones None p)) in
  {| api.Repository.ID := getter v1.Repository.Id 0 p;
     api.Repository.Name := getter v1.Repository.Name "" p;
     api.Repository.URL := getter v1.Repository.Url "" p;
     api.Repository.Source := getter v1.Repository.Source "" p;
     api.Repository.Branches := Some branches;
     api.Repository.SubRepoMap := Some subRepoMap;
     api.Repository.CommitURLTemplate :=
       getter v1.Repository.CommitUrlTemplate "" p;
     api.Repository.FileURLTemplate := getter v1.Repository.FileUrlTemplate "" p;
     api.Repository.LineFragmentTemplate :=
       getter v1.Repository.LineFragmentTemplate "" p;
     api.Repository.priority := getter v1.Repository.Priority 0 p;
     api.Repository.RawConfig := getter v1.Repository.RawConfig None p;
     api.Repository.Rank := uint16 (getter v1.Repository.Rank 0 p);
     api.Repository.IndexOptions := getter v1.Repository.IndexOptions "" p;
     api.Repository.HasSymbols := getter v1.Repository.HasSymbols false p;
     api.Repository.Tombstone := getter v1.Repository.Tombstone false p;
     api.Repository.LatestCommitDate :=
       AsTime (getter v1.Repository.LatestCommitDate None p);
     api.Repository.FileTombstones := Some fileTombstones |}.

(** The body of [RepositoryFromProto], with [rec] for the call of itself in
    the loop over the sub-repositories. *)
Definition RepositoryFromProto_body
  (rec : option v1.Repository.t -> api.Repository.t)
  (p : option v1.Repository.t) : api.Repository.t :=
  let subRepoMap :=
    foldl (fun (acc : gmap string (option api.Repository.t)) '(name, repo) =>
             <[ name := Some (rec repo) ]> acc)
          ∅ (rangeOver (default ∅ (getter v1.Repository.SubRepoMap None p))) in
  RepositoryFromProto_fields p subRepoMap.

(** [RepositoryFromProto] on a message that is not nil.  The loop over the
    sub-repositories assigns every name once, whatever the order it ranges
    in; here it is the map over the entries, which is what lets the
    recursion be seen to end.  [RepositoryFromProto_unfold] shows that the
    function satisfies the equation of the source, loop included. *)
Fixpoint RepositoryFromProto' (p : v1.Repository.t) : api.Repository.t :=
  RepositoryFromProto_fields (Some p)
    match v1.Repository.SubRepoMap p with
    | Some m =>
        (fun repo : option v1.Repository.t =>
           Some match repo with
                | Some q => RepositoryFromProto' q
                | None => RepositoryFromProto_fields None ∅
                end) <$> m
    | None => ∅
    end.

Definition RepositoryFromProto (p : option v1.Repository.t) : api.Repository.t :=
  match p with
  | Some p => RepositoryFromProto' p
  | None => RepositoryFromProto_fields None ∅
  end.

(** [Repository.ToProto] once the sub-repositories are converted. *)
Definition Repository_ToProto_fields (r : api.Repository.t)
  (subRepoMap : gmap string (option v1.Repository.t)) : v1.Repository.t :=
  let branches :=
    fill None (fun branch => Some (RepositoryBranch_ToProto branch))
         (elems (api.Repository.Branches r)) in
  let fileTombstones :=
    foldl (fun acc '(file, _) => acc ++ [file]) []
          (rangeOver (default ∅ (api.Repository.FileTombstones r))) in
  {| v1.Repository.Id := api.Repository.ID r;
     v1.Repository.Name := api.Repository.Name r;
     v1.Repository.Url := api.Repository.URL r;
     v1.Repository.Source := api.Repository.Source r;
     v1.Repository.Branches := Some branches;
     v1.Repository.SubRepoMap := Some subRepoMap;
     v1.Repository.CommitUrlTemplate := api.Repository.CommitURLTemplate r;
     v1.Repository.FileUrlTemplate := api.Repository.FileURLTemplate r;
     v1.Repository.LineFragmentTemplate := api.Repository.LineFragmentTemplate r;
     v1.Repository.Priority := api.Repository.priority r;
     v1.Repository.RawConfig := api.Repository.RawConfig r;
     v1.Repository.Rank := GoInt.uint32 (api.Repository.Rank r);
     v1.Repository.IndexOptions := api.Repository.IndexOptions r;
     v1.Repository.HasSymbols := api.Repository.HasSymbols r;
     v1.Repository.Tombstone := api.Repository.Tombstone r;
     v1.Repository.LatestCommitDate :=
       Some (timestamppb_New (api.Repository.LatestCommitDate r));
     v1.Repository.FileTombstones := Some fileTombstones |}.

Definition Repository_ToProto_body
  (rec : option api.Repository.t -> option v1.Repository.t)
  (r : option api.Repository.t) : option v1.Repository.t :=
  match r with
  | None => None
  | Some r =>
      let subRepoMap :=
        foldl (fun (acc : gmap string (option v1.Repository.t)) '(name, repo) =>
                 <[ name := rec repo ]> acc)
              ∅ (rangeOver (default ∅ (api.Repository.SubRepoMap r))) in
      Some (Repository_ToProto_fields r subRepoMap)
  end.

(** [Repository.ToProto] on a receiver that is not nil; the loop over the
    sub-repositories as in [RepositoryFromProto'], the equation of the
    source in [Repository_ToProto_unfold]. *)
Fixpoint Repository_ToProto' (r : api.Repository.t) : v1.Repository.t :=
  Repository_ToProto_fields r
    match api.Repository.SubRepoMap r with
    | Some m =>
        (fun repo : option api.Repository.t =>
           match repo with
           | Some q => Some (Repository_ToProto' q)
           | None => None
           end) <$> m
    | None => ∅
    end.

Definition Repository_ToProto (r : option api.Repository.t)
  : option v1.Repository.t :=
  match r with
  | Some r => Some (Repository_ToProto' r)
  | None => None
  end.

Definition IndexMetadataFromProto (p : option v1.IndexMetadata.t)
  : api.IndexMetadata.t :=
  let languageMap :=
    foldl (fun (acc : gmap string Z) '(language, id) =>
             <[ language := uint16 id ]> acc)
          ∅ (default [] (rangeMap <$> getter v1.IndexMetadata.LanguageMap None p)) in
  {| api.IndexMetadata.IndexFormatVersion :=
       Go_int (getter v1.IndexMetadata.IndexFormatVersion 0 p);
     api.IndexMetadata.IndexFeatureVersion :=
       Go_int (getter v1.IndexMetadata.IndexFeatureVersion 0 p);
     api.IndexMetadata.IndexMinReaderVersion :=
       Go_int (getter v1.IndexMetadata.IndexMinReaderVersion 0 p);
     api.IndexMetadata.IndexTime :=
       AsTime (getter v1.IndexMetadata.IndexTime None p);
     api.IndexMetadata.PlainASCII := getter v1.IndexMetadata.PlainAscii false p;
     api.IndexMetadata.LanguageMap := Some languageMap;
     api.IndexMetadata.ZoektVersion := getter v1.IndexMetadata.ZoektVersion "" p;
     api.IndexMetadata.ID := getter v1.IndexMetadata.Id "" p |}.

Definition IndexMetadata_ToProto (m : option api.IndexMetadata.t)
  : option v1.IndexMetadata.t :=
  match m with
  | None => None
  | Some m =>
      let languageMap :=
        foldl (fun (acc : gmap string Z) '(language, id) =>
                 <[ language := GoInt.uint32 id ]> acc)
              ∅ (default [] (rangeMap <$> api.IndexMetadata.LanguageMap m)) in
      Some {| v1.IndexMetadata.IndexFormatVersion :=
                GoInt.int64 (api.IndexMetadata.IndexFormatVersion m);
              v1.IndexMetadata.IndexFeatureVersion :=
                GoInt.int64 (api.IndexMetadata.IndexFeatureVersion m);
              v1.IndexMetadata.IndexMinReaderVersion :=
                GoInt.int64 (api.IndexMetadata.IndexMinReaderVersion m);
              v1.IndexMetadata.IndexTime :=
                Some (timestamppb_New (api.IndexMetadata.IndexTime m));
              v1.IndexMetadata.PlainAscii := api.IndexMetadata.PlainASCII m;
              v1.IndexMetadata.LanguageMap := Some languageMap;
              v1.IndexMetadata.ZoektVersion := api.IndexMetadata.ZoektVersion m;
              v1.IndexMetadata.Id := api.IndexMetadata.ID m |}
  end.

Definition RepoStatsFromProto (p : option v1.RepoStats.t) : api.RepoStats.t :=
  {| api.RepoStats.Repos := Go_int (getter v1.RepoStats.Repos 0 p);
     api.RepoStats.Shards := Go_int (getter v1.RepoStats.Shards 0 p);
     api.RepoStats.Documents := Go_int (getter v1.RepoStats.Documents 0 p);
     api.RepoStats.IndexBytes := getter v1.RepoStats.IndexBytes 0 p;
     api.RepoStats.ContentBytes := getter v1.RepoStats.ContentBytes 0 p;
     api.RepoStats.NewLinesCount := getter v1.RepoStats.NewLinesCount 0 p;
     api.RepoStats.DefaultBranchNewLinesCount :=
       getter v1.RepoStats.DefaultBranchNewLinesCount 0 p;
     api.RepoStats.OtherBranchesNewLinesCount :=
       getter v1.RepoStats.OtherBranchesNewLinesCount 0 p |}.

Definition RepoStats_ToProto (s : api.RepoStats.t) : v1.RepoStats.t :=
  {| v1.RepoStats.Repos := GoInt.int64 (api.RepoStats.Repos s);
     v1.RepoStats.Shards := GoInt.int64 (api.RepoStats.Shards s);
     v1.RepoStats.Documents := GoInt.int64 (api.RepoStats.Documents s);
     v1.RepoStats.IndexBytes := api.RepoStats.IndexBytes s;
     v1.RepoStats.ContentBytes := api.RepoStats.ContentBytes s;
     v1.RepoStats.NewLinesCount := api.RepoStats.NewLinesCount s;
     v1.RepoStats.DefaultBranchNewLinesCount :=
       api.RepoStats.DefaultBranchNewLinesCount s;
     v1.RepoStats.OtherBranchesNewLinesCount :=
       api.RepoStats.OtherBranchesNewLinesCount s |}.

Definition RepoListEntryFromProto (p : option v1.RepoListEntry.t)
  : option api.RepoListEntry.t :=
  match p with
  | None => None
  | Some _ =>
      Some {| api.RepoListEntry.Repository :=
                RepositoryFromProto (getter v1.RepoListEntry.Repository None p);
              api.RepoListEntry.IndexMetadata :=
                IndexMetadataFromProto
                  (getter v1.RepoListEntry.IndexMetadata None p);
              api.RepoListEntry.Stats :=
                RepoStatsFromProto (getter v1.RepoListEntry.Stats None p) |}
  end.

Definition RepoListEntry_ToProto (r : option api.RepoListEntry.t)
  : option v1.RepoListEntry.t :=
  match r with
  | None => None
  | Some r =>
      Some {| v1.RepoListEntry.Repository :=
                Repository_ToProto (Some (api.RepoListEntry.Repository r));
              v1.RepoListEntry.IndexMetadata :=
                IndexMetadata_ToProto (Some (api.RepoListEntry.IndexMetadata r));
              v1.RepoListEntry.Stats :=
                Some (RepoStats_ToProto (api.RepoListEntry.Stats r)) |}
  end.

Definition MinimalRepoListEntryFromProto (p : option v1.MinimalRepoListEntry.t)
  : api.MinimalRepoListEntry.t :=
  let branches :=
    fill zeroBranch RepositoryBranchFromProto
         (elems (getter v1.MinimalRepoListEntry.Branches None p)) in
  {| api.MinimalRepoListEntry.HasSymbols :=
       getter v1.MinimalRepoListEntry.HasSymbols false p;
     api.MinimalRepoListEntry.Branches := Some branches |}.

Definition MinimalRepoListEntry_ToProto (m : api.MinimalRepoListEntry.t)
  : v1.MinimalRepoListEntry.t :=
  let branches :=
    fill None (fun branch => Some (RepositoryBranch_ToProto branch))
         (elems (api.MinimalRepoListEntry.Branches m)) in
  {| v1.MinimalRepoListEntry.HasSymbols := api.MinimalRepoListEntry.HasSymbols m;
     v1.MinimalRepoListEntry.Branches := Some branches |}.

Definition RepoListFromProto (p : option v1.ListResponse.t) : api.RepoList.t :=
  let repos :=
    fill None RepoListEntryFromProto
         (elems (getter v1.ListResponse.Repos None p)) in
  let reposMap :=
    foldl (fun (acc : gmap Z api.MinimalRepoListEntry.t) '(id, mle) =>
             <[ id := MinimalRepoListEntryFromProto mle ]> acc)
          ∅ (rangeOver (default ∅ (getter v1.ListResponse.ReposMap None p))) in
  let minimal :=
    foldl (fun (acc : gmap Z (option api.MinimalRepoListEntry.t)) '(id, mle) =>
             let m := MinimalRepoListEntryFromProto mle in
             <[ id := Some m ]> acc)
          ∅ (rangeOver (default ∅ (getter v1.ListResponse.Minimal None p))) in
  {| api.RepoList.Repos := Some repos;
     api.RepoList.ReposMap := Some reposMap;
     api.RepoList.Crashes := Go_int (getter v1.ListResponse.Crashes 0 p);
     api.RepoList.Stats := RepoStatsFromProto (getter v1.ListResponse.Stats None p);
     api.RepoList.Minimal := Some minimal |}.

(** One turn of the loop of [RepoList.ToProto] over [Minimal], as long as
    no turn has panicked.  [MinimalRepoListEntry.ToProto] does not check its
    receiver: on an entry that is nil it panics. *)
Definition minimalStep
  (acc : outcome (gmap Z (option v1.MinimalRepoListEntry.t)))
  (entry : Z * option api.MinimalRepoListEntry.t)
  : outcome (gmap Z (option v1.MinimalRepoListEntry.t)) :=
  let '(id, repo) := entry in
  match acc, repo with
  | Returns minimal, Some repo =>
      Returns (<[ id := Some (MinimalRepoListEntry_ToProto repo) ]> minimal)
  | Returns _, None =>
      Panics "invalid memory address or nil pointer dereference"
  | _, _ => acc
  end.

(** [RepoList.ToProto].  The converted [repos] are not what the message
    gets. *)
Definition RepoList_ToProto (r : api.RepoList.t) : outcome v1.ListResponse.t :=
  let repos :=
    fill None RepoListEntry_ToProto (elems (api.RepoList.Repos r)) in
  let reposMap :=
    foldl (fun (acc : gmap Z (option v1.MinimalRepoListEntry.t)) '(id, repo) =>
             <[ id := Some (MinimalRepoListEntry_ToProto repo) ]> acc)
          ∅ (rangeOver (default ∅ (api.RepoList.ReposMap r))) in
  let minimal :=
    foldl minimalStep (Returns ∅)
          (rangeOver (default ∅ (api.RepoList.Minimal r))) in
  match minimal with
  | Returns minimal =>
      Returns {| v1.ListResponse.Repos := Some [];
                 v1.ListResponse.ReposMap := Some reposMap;
                 v1.ListResponse.Crashes := GoInt.int64 (api.RepoList.Crashes r);
                 v1.ListResponse.Stats :=
                   Some (RepoStats_ToProto (api.RepoList.Stats r));
                 v1.ListResponse.Minimal := Some minimal |}
  | Fails err => Fails err
  | Panics msg => Panics msg
  end.

(** ** Options *)

Definition ListOptions_ToProto (l : option api.ListOptions.t)
  : option v1.ListOptions.t :=
  match l with
  | None => None
  | Some l =>
      let field :=
        if decide (api.ListOptions.Field l = RepoListFieldRepos)
        then v1_ListOptions_REPO_LIST_FIELD_REPOS
        else if decide (api.ListOptions.Field l = RepoListFieldMinimal)
        then v1_ListOptions_REPO_LIST_FIELD_MINIMAL
        else if decide (api.ListOptions.Field l = RepoListFieldReposMap)
        then v1_ListOptions_REPO_LIST_FIELD_REPOS_MAP
        else 0 in
      Some {| v1.ListOptions.Field := field;
              v1.ListOptions.Minimal := api.ListOptions.Minimal l |}
  end.

Definition ListOptionsFromProto (p : option v1.ListOptions.t)
  : option api.ListOptions.t :=
  match p with
  | None => None
  | Some _ =>
      let field :=
        if decide (getter v1.ListOptions.Field 0 p
                   = v1_ListOptions_REPO_LIST_FIELD_REPOS)
        then RepoListFieldRepos
        else if decide (getter v1.ListOptions.Field 0 p
                        = v1_ListOptions_REPO_LIST_FIELD_MINIMAL)
        then RepoListFieldMinimal
        else if decide (getter v1.ListOptions.Field 0 p
                        = v1_ListOptions_REPO_LIST_FIELD_REPOS_MAP)
        then RepoListFieldReposMap
        else 0 in
      Some {| api.ListOptions.Field := field;
              api.ListOptions.Minimal := getter v1.ListOptions.Minimal false p |}
  end.

Definition SearchOptionsFromProto (p : option v1.SearchOptions.t)
  : option api.SearchOptions.t :=
  match p with
  | None => None
  | Some _ =>
      Some {| api.SearchOptions.EstimateDocCount :=
                getter v1.SearchOptions.EstimateDocCount false p;
              api.SearchOptions.Whole := getter v1.SearchOptions.Whole false p;
              api.SearchOptions.ShardMaxMatchCount :=
                Go_int (getter v1.SearchOptions.ShardMaxMatchCount 0 p);
              api.SearchOptions.TotalMaxMatchCount :=
                Go_int (getter v1.SearchOptions.TotalMaxMatchCount 0 p);
              api.SearchOptions.ShardRepoMaxMatchCount :=
                Go_int (getter v1.SearchOptions.ShardRepoMaxMatchCount 0 p);
              api.SearchOptions.MaxWallTime :=
                AsDuration (getter v1.SearchOptions.MaxWallTime None p);
              api.SearchOptions.FlushWallTime :=
                AsDuration (getter v1.SearchOptions.FlushWallTime None p);
              api.SearchOptions.MaxDocDisplayCount :=
                Go_int (getter v1.SearchOptions.MaxDocDisplayCount 0 p);
              api.SearchOptions.NumContextLines :=
                Go_int (getter v1.SearchOptions.NumContextLines 0 p);
              api.SearchOptions.ChunkMatches :=
                getter v1.SearchOptions.ChunkMatches false p;
              api.SearchOptions.UseDocumentRanks :=
                getter v1.SearchOptions.UseDocumentRanks false p;
              api.SearchOptions.DocumentRanksWeight :=
                getter v1.SearchOptions.DocumentRanksWeight 0 p;
              api.SearchOptions.Trace := getter v1.SearchOptions.Trace false p;
              api.SearchOptions.DebugScore := false;
              api.SearchOptions.SpanContext :=
                getter v1.SearchOptions.SpanContext None p |}
  end.

Definition SearchOptions_ToProto (s : option api.SearchOptions.t)
  : option v1.SearchOptions.t :=
  match s with
  | None => None
  | Some s =>
      Some {| v1.SearchOptions.EstimateDocCount :=
                api.SearchOptions.EstimateDocCount s;
              v1.SearchOptions.Whole := api.SearchOptions.Whole s;
              v1.SearchOptions.ShardMaxMatchCount :=
                GoInt.int64 (api.SearchOptions.ShardMaxMatchCount s);
              v1.SearchOptions.TotalMaxMatchCount :=
                GoInt.int64 (api.SearchOptions.TotalMaxMatchCount s);
              v1.SearchOptions.ShardRepoMaxMatchCount :=
                GoInt.int64 (api.SearchOptions.ShardRepoMaxMatchCount s);
              v1.SearchOptions.MaxWallTime :=
                Some (durationpb_New (api.SearchOptions.MaxWallTime s));
              v1.SearchOptions.FlushWallTime :=
                Some (durationpb_New (api.SearchOptions.FlushWallTime s));
              v1.SearchOptions.MaxDocDisplayCount :=
                GoInt.int64 (api.SearchOptions.MaxDocDisplayCount s);
              v1.SearchOptions.NumContextLines :=
                GoInt.int64 (api.SearchOptions.NumContextLines s);
              v1.SearchOptions.ChunkMatches := api.SearchOptions.ChunkMatches s;
              v1.SearchOptions.UseDocumentRanks :=
                api.SearchOptions.UseDocumentRanks s;
              v1.SearchOptions.DocumentRanksWeight :=
                api.SearchOptions.DocumentRanksWeight s;
              v1.SearchOptions.Trace := api.SearchOptions.Trace s;
              v1.SearchOptions.DebugScore := api.SearchOptions.DebugScore s;
              v1.SearchOptions.SpanContext := api.SearchOptions.SpanContext s |}
  end.

End Repositories.

(** ** What comes back from a round trip, continued *)

Section Normal.
Context `{GoArch} `{WellKnown} `{Enums}.

(** How deep the sub-repositories of a repository nest. *)
Fixpoint depth (r : api.Repository.t) : nat :=
  S match api.Repository.SubRepoMap r with
    | Some m =>
        map_fold (fun _ (repo : option api.Repository.t) (n : nat) =>
                    Nat.max match repo with
                            | Some q => depth q
                            | None => 0%nat
                            end n)
                 0%nat m
    | None => 0%nat
    end.

Definition Repository_made_fields (r : api.Repository.t)
  (subRepoMap : gmap string (option api.Repository.t)) : api.Repository.t :=
  {| api.Repository.ID := api.Repository.ID r;
     api.Repository.Name := api.Repository.Name r;
     api.Repository.URL := api.Repository.URL r;
     api.Repository.Source := api.Repository.Source r;
     api.Repository.Branches := made (api.Repository.Branches r);
     api.Repository.SubRepoMap := Some subRepoMap;
     api.Repository.CommitURLTemplate := api.Repository.CommitURLTemplate r;
     api.Repository.FileURLTemplate := api.Repository.FileURLTemplate r;
     api.Repository.LineFragmentTemplate := api.Repository.LineFragmentTemplate r;
     api.Repository.priority := api.Repository.priority r;
     api.Repository.RawConfig := api.Repository.RawConfig r;
     api.Repository.Rank := uint16 (api.Repository.Rank r);
     api.Repository.IndexOptions := api.Repository.IndexOptions r;
     api.Repository.HasSymbols := api.Repository.HasSymbols r;
     api.Repository.Tombstone := api.Repository.Tombstone r;
     api.Repository.LatestCommitDate :=
       AsTime (Some (timestamppb_New (api.Repository.LatestCommitDate r)));
     api.Repository.FileTombstones :=
       Some (default ∅ (api.Repository.FileTombstones r)) |}.

(** The repository without a single field set, as [RepositoryFromProto]
    makes it from a nil message: its slices and maps are empty, not nil. *)
Definition emptyRepository : api.Repository.t :=
  RepositoryFromProto_fields None ∅.

(** A repository as it comes back: slices and maps made, at every depth, the
    commit date as the timestamp gives it back, and an empty repository
    where a sub-repository was nil. *)
Fixpoint Repository_made (r : api.Repository.t) : api.Repository.t :=
  Repository_made_fields r
    match api.Repository.SubRepoMap r with
    | Some m =>
        (fun repo : option api.Repository.t =>
           Some match repo with
                | Some q => Repository_made q
                | None => emptyRepository
                end) <$> m
    | None => ∅
    end.

Definition IndexMetadata_made (m : api.IndexMetadata.t) : api.IndexMetadata.t :=
  {| api.IndexMetadata.IndexFormatVersion := api.IndexMetadata.IndexFormatVersion m;
     api.IndexMetadata.IndexFeatureVersion :=
       api.IndexMetadata.IndexFeatureVersion m;
     api.IndexMetadata.IndexMinReaderVersion :=
       api.IndexMetadata.IndexMinReaderVersion m;
     api.IndexMetadata.IndexTime :=
       AsTime (Some (timestamppb_New (api.IndexMetadata.IndexTime m)));
     api.IndexMetadata.PlainASCII := api.IndexMetadata.PlainASCII m;
     api.IndexMetadata.LanguageMap :=
       Some (uint16 <$> default ∅ (api.IndexMetadata.LanguageMap m));
     api.IndexMetadata.ZoektVersion := api.IndexMetadata.ZoektVersion m;
     api.IndexMetadata.ID := api.IndexMetadata.ID m |}.

Definition RepoListEntry_made (e : api.RepoListEntry.t) : api.RepoListEntry.t :=
  {| api.RepoListEntry.Repository :=
       Repository_made (api.RepoListEntry.Repository e);
     api.RepoListEntry.IndexMetadata :=
       IndexMetadata_made (api.RepoListEntry.IndexMetadata e);
     api.RepoListEntry.Stats := api.RepoListEntry.Stats e |}.

Definition RepoStats_ints (s : api.RepoStats.t) : Prop :=
  isInt (api.RepoStats.Repos s) /\ isInt (api.RepoStats.Shards s)
  /\ isInt (api.RepoStats.Documents s).

Definition RepoListEntry_ints (e : api.RepoListEntry.t) : Prop :=
  isInt (api.IndexMetadata.IndexFormatVersion (api.RepoListEntry.IndexMetadata e))
  /\ isInt (api.IndexMetadata.IndexFeatureVersion
              (api.RepoListEntry.IndexMetadata e))
  /\ isInt (api.IndexMetadata.IndexMinReaderVersion
              (api.RepoListEntry.IndexMetadata e))
  /\ RepoStats_ints (api.RepoListEntry.Stats e).

Definition MinimalRepoListEntry_made (m : api.MinimalRepoListEntry.t)
  : api.MinimalRepoListEntry.t :=
  {| api.MinimalRepoListEntry.HasSymbols := api.MinimalRepoListEntry.HasSymbols m;
     api.MinimalRepoListEntry.Branches :=
       made (api.MinimalRepoListEntry.Branches m) |}.

(** A repository list as it comes back: without its [Repos]. *)
Definition RepoList_made (r : api.RepoList.t) : api.RepoList.t :=
  {| api.RepoList.Repos := Some [];
     api.RepoList.ReposMap :=
       Some (MinimalRepoListEntry_made <$> default ∅ (api.RepoList.ReposMap r));
     api.RepoList.Crashes := api.RepoList.Crashes r;
     api.RepoList.Stats := api.RepoList.Stats r;
     api.RepoList.Minimal :=
       Some ((fun e : option api.MinimalRepoListEntry.t =>
                MinimalRepoListEntry_made <$> e)
             <$> default ∅ (api.RepoList.Minimal r)) |}.

Definition namedRepoListField (field : Z) : Prop :=
  field ∈ [RepoListFieldRepos; RepoListFieldMinimal; RepoListFieldReposMap].

Definition SearchOptions_ints (s : api.SearchOptions.t) : Prop :=
  Forall isInt
    [api.SearchOptions.ShardMaxMatchCount s;
     api.SearchOptions.TotalMaxMatchCount s;
     api.SearchOptions.ShardRepoMaxMatchCount s;
     api.SearchOptions.MaxDocDisplayCount s;
     api.SearchOptions.NumContextLines s]
  /\ Forall (fun d => - 2^63 <= d < 2^63)
       [api.SearchOptions.MaxWallTime s; api.SearchOptions.FlushWallTime s].

(** Search options without the request for debug scores. *)
Definition withoutDebugScore (s : api.SearchOptions.t) : api.SearchOptions.t :=
  {| api.SearchOptions.EstimateDocCount := api.SearchOptions.EstimateDocCount s;
     api.SearchOptions.Whole := api.SearchOptions.Whole s;
     api.SearchOptions.ShardMaxMatchCount := api.SearchOptions.ShardMaxMatchCount s;
     api.SearchOptions.TotalMaxMatchCount := api.SearchOptions.TotalMaxMatchCount s;
     api.SearchOptions.ShardRepoMaxMatchCount :=
       api.SearchOptions.ShardRepoMaxMatchCount s;
     api.SearchOptions.MaxWallTime := api.SearchOptions.MaxWallTime s;
     api.SearchOptions.FlushWallTime := api.SearchOptions.FlushWallTime s;
     api.SearchOptions.MaxDocDisplayCount := api.SearchOptions.MaxDocDisplayCount s;
     api.SearchOptions.NumContextLines := api.SearchOptions.NumContextLines s;
     api.SearchOptions.ChunkMatches := api.SearchOptions.ChunkMatches s;
     api.SearchOptions.UseDocumentRanks := api.SearchOptions.UseDocumentRanks s;
     api.SearchOptions.DocumentRanksWeight :=
       api.SearchOptions.DocumentRanksWeight s;
     api.SearchOptions.Trace := api.SearchOptions.Trace s;
     api.SearchOptions.DebugScore := false;
     api.SearchOptions.SpanContext := api.SearchOptions.SpanContext s |}.

End Normal.

(** ** A runtime to run the conversions on

    The well-known types as their packages compute them,
    with times that are wall-clock readings in UTC; enum values that are
    all different; and maps that are ranged over in the order of their
    keys' encoding. *)

Module Runtime.

Definition Second : Z := 1000000000.

(** [durationpb.New]: the seconds and the remaining nanoseconds, both with
    the sign of the duration. *)
Definition newDuration (d : Z) : v1.Duration.t :=
  let nanos := d in
  let secs := nanos ÷ Second in
  let nanos := GoInt.int64 (nanos - GoInt.int64 (secs * Second)) in
  {| v1.Duration.Seconds := secs; v1.Duration.Nanos := GoInt.int32 nanos |}.

(** [AsDuration]: seconds and nanoseconds added up, saturating. *)
Definition asDuration (x : option v1.Duration.t) : Z :=
  let secs := getter v1.Duration.Seconds 0 x in
  let nanos := getter v1.Duration.Nanos 0 x in
  let d := GoInt.int64 (secs * Second) in
  let overflow := negb (d ÷ Second =? secs) in
  let d := GoInt.int64 (d + nanos) in
  let overflow := overflow || ((secs <? 0) && (nanos <? 0) && (0 <? d)) in
  let overflow := overflow || ((0 <? secs) && (0 <? nanos) && (d <? 0)) in
  if overflow && (secs <? 0) then - 2^63
  else if overflow && (0 <? secs) then 2^63 - 1
  else d.

Lemma asDuration_newDuration (d : Z) :
  - 2^63 <= d < 2^63 -> asDuration (Some (newDuration d)) = d.
Proof.
  intros Hd. unfold asDuration, newDuration, Second. simpl getter.
  assert (int64_small : forall x, - 2^63 <= x < 2^63 -> GoInt.int64 x = x).
  { intros x Hx. unfold GoInt.int64. rewrite Z.mod_small by lia. lia. }
  pose proof (Z.quot_rem' d 1000000000) as Hqr.
  pose proof (Z.rem_bound_abs d 1000000000 ltac:(lia)) as Hrem.
  assert (Hsign : 0 <= d -> 0 <= Z.rem d 1000000000)
    by (intros; apply Z.rem_nonneg; lia).
  assert (Hsign' : d <= 0 -> Z.rem d 1000000000 <= 0)
    by (intros; apply Z.rem_nonpos; lia).
  set (q := d ÷ 1000000000) in *. set (r := Z.rem d 1000000000) in *.
  assert (Hq : - 2^63 <= q * 1000000000 < 2^63) by lia.
  rewrite (int64_small (q * 1000000000)) by exact Hq.
  replace (d - q * 1000000000) with r by lia.
  rewrite (int64_small r) by lia.
  assert (Hr32 : GoInt.int32 r = r).
  { unfold GoInt.int32. rewrite Z.mod_small by lia. lia. }
  rewrite Hr32. rewrite Z.quot_mul by lia. rewrite Z.eqb_refl. simpl negb.
  replace (q * 1000000000 + r) with d by lia.
  rewrite int64_small by exact Hd.
  assert (Hneg : (q <? 0) && (r <? 0) && (0 <? d) = false).
  { destruct (Z.ltb_spec q 0), (Z.ltb_spec r 0), (Z.ltb_spec 0 d);
      simpl; try reflexivity. lia. }
  assert (Hpos : (0 <? q) && (0 <? r) && (d <? 0) = false).
  { destruct (Z.ltb_spec 0 q), (Z.ltb_spec 0 r), (Z.ltb_spec d 0);
      simpl; try reflexivity. lia. }
  rewrite Hneg, Hpos. reflexivity.
Qed.

#[global] Instance wellKnown : WellKnown := {|
  durationpb_New := newDuration;
  AsDuration := asDuration;
  AsDuration_New := asDuration_newDuration;
  timestamppb_New := fun t =>
    {| v1.Timestamp.Seconds := ext t; v1.Timestamp.Nanos := GoInt.int32 (wall t) |};
  AsTime := fun x =>
    {| wall := getter v1.Timestamp.Nanos 0 x;
       ext := getter v1.Timestamp.Seconds 0 x;
       loc := 0 |};
|}.

Lemma distinct3 (a b c : Z) :
  (a =? b) || (a =? c) || (b =? c) = false -> NoDup [a; b; c].
Proof.
  intros Hne. apply orb_false_elim in Hne as [Hne Hbc].
  apply orb_false_elim in Hne as [Hab Hac].
  apply Z.eqb_neq in Hab, Hac, Hbc.
  repeat (apply NoDup_cons; split;
          [rewrite ?elem_of_cons, elem_of_nil; intuition lia |]).
  apply NoDup_nil_2.
Qed.

Lemma distinct4 (a b c d : Z) :
  (a =? b) || (a =? c) || (a =? d) || (b =? c) || (b =? d) || (c =? d) = false ->
  NoDup [a; b; c; d].
Proof.
  intros Hne.
  repeat (apply orb_false_elim in Hne as [Hne ?]).
  repeat match goal with
         | Hx : (_ =? _) = false |- _ => apply Z.eqb_neq in Hx
         end.
  repeat (apply NoDup_cons; split;
          [rewrite ?elem_of_cons, elem_of_nil; intuition lia |]).
  apply NoDup_nil_2.
Qed.

#[global] Instance enums : Enums := {|
  FlushReasonTimerExpired := 1;
  FlushReasonFinalFlush := 2;
  FlushReasonMaxSize := 4;
  v1_FlushReason_UNKNOWN := 0;
  v1_FlushReason_TIMER_EXPIRED := 1;
  v1_FlushReason_FINAL_FLUSH := 2;
  v1_FlushReason_MAX_SIZE := 3;
  FlushReason_cases := distinct3 1 2 4 eq_refl;
  v1_FlushReason_cases := distinct4 0 1 2 3 eq_refl;
  RepoListFieldRepos := 0;
  RepoListFieldMinimal := 1;
  RepoListFieldReposMap := 2;
  v1_ListOptions_REPO_LIST_FIELD_REPOS := 1;
  v1_ListOptions_REPO_LIST_FIELD_MINIMAL := 2;
  v1_ListOptions_REPO_LIST_FIELD_REPOS_MAP := 3;
  RepoListField_cases := distinct3 0 1 2 eq_refl;
  v1_RepoListField_cases := distinct3 1 2 3 eq_refl;
|}.

#[global] Instance rangeOrder : RangeOrder := {|
  rangeOver := fun K _ _ V (m : gmap K V) => map_to_list m;
  rangeOver_perm := fun K _ _ V (m : gmap K V) => reflexivity (map_to_list m);
|}.

(** A file match with one line match that has no fragments and one chunk
    match without ranges. *)
Definition oneLine : api.FileMatch.t :=
  {| api.FileMatch.Score := 0; api.FileMatch.Debug := "";
     api.FileMatch.FileName := Some "main.go";
     api.FileMatch.Repository := "github.com/a/b";
     api.FileMatch.Branches := Some ["HEAD"];
     api.FileMatch.LineMatches :=
       Some [ {| api.LineMatch.Line := Some "func main() {";
                 api.LineMatch.LineStart := 13; api.LineMatch.LineEnd := 27;
                 api.LineMatch.LineNumber := 3;
                 api.LineMatch.Before := None; api.LineMatch.After := None;
                 api.LineMatch.FileName := false; api.LineMatch.Score := 0;
                 api.LineMatch.DebugScore := "";
                 api.LineMatch.LineFragments := None |} ];
     api.FileMatch.ChunkMatches :=
       Some [ {| api.ChunkMatch.Content := Some "func main() {";
                 api.ChunkMatch.ContentStart := api.Location.mk 13 3 1;
                 api.ChunkMatch.FileName := false;
                 api.ChunkMatch.Ranges := None;
                 api.ChunkMatch.SymbolInfo := Some [None];
                 api.ChunkMatch.Score := 0;
                 api.ChunkMatch.DebugScore := "" |} ];
     api.FileMatch.RepositoryID := 3;
     api.FileMatch.RepositoryPriority := 0;
     api.FileMatch.Content := None; api.FileMatch.Checksum := None;
     api.FileMatch.Language := "Go";
     api.FileMatch.SubRepositoryName := "";
     api.FileMatch.SubRepositoryPath := "";
     api.FileMatch.Version := "deadbeef" |}.

(** Statistics of a search that was flushed for a reason without a name. *)
Definition flushedForNoReason : api.Stats.t :=
  {| api.Stats.ContentBytesLoaded := 4096; api.Stats.IndexBytesLoaded := 512;
     api.Stats.Crashes := 0; api.Stats.Duration := 1500000000;
     api.Stats.FileCount := 1; api.Stats.ShardFilesConsidered := 1;
     api.Stats.FilesConsidered := 2; api.Stats.FilesLoaded := 1;
     api.Stats.FilesSkipped := 0; api.Stats.ShardsScanned := 1;
     api.Stats.ShardsSkipped := 0; api.Stats.ShardsSkippedFilter := 0;
     api.Stats.MatchCount := 1; api.Stats.NgramMatches := 7;
     api.Stats.Wait := -1; api.Stats.RegexpsConsidered := 0;
     api.Stats.FlushReason := 3 |}.

(** A repository with a nil sub-repository, nil branches and one file
    tombstone. *)
Definition withNilSubRepository : api.Repository.t :=
  {| api.Repository.ID := 3; api.Repository.Name := "github.com/a/b";
     api.Repository.URL := ""; api.Repository.Source := "";
     api.Repository.Branches := None;
     api.Repository.SubRepoMap := Some {[ "vendor/x" := None ]};
     api.Repository.CommitURLTemplate := "";
     api.Repository.FileURLTemplate := "";
     api.Repository.LineFragmentTemplate := "";
     api.Repository.priority := 0; api.Repository.RawConfig := None;
     api.Repository.Rank := 7; api.Repository.IndexOptions := "";
     api.Repository.HasSymbols := true; api.Repository.Tombstone := false;
     api.Repository.LatestCommitDate := {| wall := 0; ext := 1700000000; loc := 0 |};
     api.Repository.FileTombstones := Some {[ "old.go" := tt ]} |}.

Definition oneEntry : api.RepoListEntry.t :=
  {| api.RepoListEntry.Repository := withNilSubRepository;
     api.RepoListEntry.IndexMetadata :=
       {| api.IndexMetadata.IndexFormatVersion := 16;
          api.IndexMetadata.IndexFeatureVersion := 12;
          api.IndexMetadata.IndexMinReaderVersion := 16;
          api.IndexMetadata.IndexTime := {| wall := 0; ext := 1700000000; loc := 0 |};
          api.IndexMetadata.PlainASCII := true;
          api.IndexMetadata.LanguageMap := Some {[ "Go" := 5 ]};
          api.IndexMetadata.ZoektVersion := "";
          api.IndexMetadata.ID := "shard-0" |};
     api.RepoListEntry.Stats := api.RepoStats.mk 1 1 10 4096 8192 100 100 0 |}.

(** A repository list with one entry in [Repos] and, in [Minimal], the
    entry [minimal] for the repository 3. *)
Definition listOfOne (minimal : option api.MinimalRepoListEntry.t)
  : api.RepoList.t :=
  {| api.RepoList.Repos := Some [Some oneEntry];
     api.RepoList.ReposMap := None;
     api.RepoList.Crashes := 0;
     api.RepoList.Stats := api.RepoStats.mk 1 1 10 4096 8192 100 100 0;
     api.RepoList.Minimal := Some {[ 3 := minimal ]} |}.

(** Search options that ask for debug scores. *)
Definition debugging : api.SearchOptions.t :=
  {| api.SearchOptions.EstimateDocCount := false;
     api.SearchOptions.Whole := false;
     api.SearchOptions.ShardMaxMatchCount := 100;
     api.SearchOptions.TotalMaxMatchCount := 1000;
     api.SearchOptions.ShardRepoMaxMatchCount := 10;
     api.SearchOptions.MaxWallTime := 10 * Second;
     api.SearchOptions.FlushWallTime := 500000000;
     api.SearchOptions.MaxDocDisplayCount := 50;
     api.SearchOptions.NumContextLines := 3;
     api.SearchOptions.ChunkMatches := true;
     api.SearchOptions.UseDocumentRanks := false;
     api.SearchOptions.DocumentRanksWeight := 0;
     api.SearchOptions.Trace := false;
     api.SearchOptions.DebugScore := true;
     api.SearchOptions.SpanContext := None |}.

End Runtime.
(** * Properties *)

(** ** Integers and [fakeID] *)

Lemma uint32_range x : 0 <= GoInt.uint32 x < 2^32.
Proof. unfold GoInt.uint32. apply Z.mod_pos_bound. lia. Qed.

Lemma uint32_small x : 0 <= x < 2^32 -> GoInt.uint32 x = x.
Proof. intros Hx. unfold GoInt.uint32. apply Z.mod_small. exact Hx. Qed.

Lemma uint32_int32 x : 0 <= x < 2^32 -> GoInt.uint32 (GoInt.int32 x) = x.
Proof.
  intros Hx. unfold GoInt.uint32, GoInt.int32.
  destruct (Z_lt_ge_dec x (2^31)) as [Hlo | Hhi].
  - rewrite (Z.mod_small (x + 2^31)) by lia.
    replace (x + 2^31 - 2^31) with x by lia.
    apply Z.mod_small. lia.
  - replace (x + 2^31) with (x - 2^31 + 1 * 2^32) by lia.
    rewrite Z.mod_add by lia.
    rewrite (Z.mod_small (x - 2^31)) by lia.
    replace (x - 2^31 - 2^31) with (x + (-1) * 2^32) by lia.
    rewrite Z.mod_add by lia.
    apply Z.mod_small. lia.
Qed.

Lemma uint8_int32 x : 0 <= x < 2^8 -> GoInt.uint8 (GoInt.int32 x) = x.
Proof.
  intros Hx. unfold GoInt.uint8, GoInt.int32.
  rewrite (Z.mod_small (x + 2^31)) by lia.
  replace (x + 2^31 - 2^31) with x by lia.
  apply Z.mod_small. exact Hx.
Qed.

Lemma int64_small x : - 2^63 <= x < 2^63 -> GoInt.int64 x = x.
Proof.
  intros Hx. unfold GoInt.int64.
  rewrite Z.mod_small by lia. lia.
Qed.

Lemma int64_range x : - 2^63 <= GoInt.int64 x < 2^63.
Proof.
  unfold GoInt.int64.
  pose proof (Z.mod_pos_bound (x + 2^63) (2^64)). lia.
Qed.

Lemma int64_le x : 0 <= x -> GoInt.int64 x <= x.
Proof.
  intros Hx. destruct (Z_lt_ge_dec x (2^63)) as [Hlo | Hhi].
  - rewrite int64_small; lia.
  - pose proof (int64_range x). lia.
Qed.

(** C9.  [fakeID] is a function of the name alone, and its value lies
    between 1 and 2^31 - 1; in particular it is never the zero repository
    ID. *)
Theorem fakeID_deterministic_positive (name name' : string) :
  (name = name' -> fakeID name = fakeID name') /\
  1 <= fakeID name <= 2^31 - 1 /\
  fakeID name <> 0.
Proof.
  split; [intros ->; reflexivity |].
  assert (Hrange : 1 <= fakeID name <= 2^31 - 1).
  { unfold fakeID.
    pose proof (Z.mod_pos_bound (CRC32.ChecksumIEEE name) (2^31 - 1)) as Hm.
    rewrite (uint32_small (_ mod _)) by lia.
    rewrite uint32_small by lia. lia. }
  split; [exact Hrange | lia].
Qed.

Lemma fakeID_witness :
  fakeID "github.com/sourcegraph/zoekt" = fakeID "github.com/sourcegraph/zoekt" /\
  1 <= fakeID "github.com/sourcegraph/zoekt" <= 2^31 - 1.
Proof.
  pose proof (fakeID_deterministic_positive
                "github.com/sourcegraph/zoekt" "github.com/sourcegraph/zoekt")
    as (Hdet & Hrange & _).
  split; [apply Hdet; reflexivity | exact Hrange].
Defined.

(** ** The reset interval *)

Section ResetInterval.
Context {W : Type} `{!GoEnv W} `{!GoArch}.

(** The interval before jitter is at least five minutes, fits an int64 with
    room to spare, and never exceeds the exact value of a minute for every
    500 repos (the product wraps for more than 153 722 867 IDs). *)
Lemma nextReset_base (n : Z) :
  0 <= n ->
  let next := GoInt.int64 (n * Minute) ÷ 500 in
  let next := if next <? 5 * Minute then 5 * Minute else next in
  5 * Minute <= next <= Z.max (5 * Minute) (n * Minute / 500) /\
  next < 2^62.
Proof.
  intros Hn. cbv zeta.
  pose proof (int64_range (n * Minute)) as Hr.
  assert (HM : Minute = 60000000000) by reflexivity.
  destruct (Z.ltb_spec (GoInt.int64 (n * Minute) ÷ 500) (5 * Minute)) as [Hlt | Hge].
  - split; [lia |]. rewrite HM. lia.
  - assert (Hpos : 0 <= GoInt.int64 (n * Minute)).
    { destruct (Z_lt_ge_dec (GoInt.int64 (n * Minute)) 0) as [Hneg | Hok]; [| lia].
      pose proof (Z.quot_opp_l (- GoInt.int64 (n * Minute)) 500 ltac:(lia)) as Ho.
      rewrite Z.opp_involutive in Ho.
      pose proof (Z.quot_pos (- GoInt.int64 (n * Minute)) 500 ltac:(lia) ltac:(lia)).
      lia. }
    rewrite Z.quot_div_nonneg in * by lia.
    pose proof (int64_le (n * Minute) ltac:(lia)) as Hle.
    pose proof (Z.div_le_mono _ _ 500 ltac:(lia) Hle) as Hdiv.
    pose proof (Z.div_le_upper_bound (GoInt.int64 (n * Minute)) 500 (2^61)
                  ltac:(lia) ltac:(lia)).
    split; lia.
Qed.

(** The interval with its jitter: at least five minutes, at most five
    quarters of the larger of five minutes and a minute for every 500 IDs. *)
Lemma nextReset_bounds (indexed : list Z) (w : W) :
  let d := (nextReset indexed w).1 in
  let n := Z.of_nat (length indexed) in
  5 * Minute <= d /\
  4 * d <= 5 * Z.max (5 * Minute) (n * Minute / 500).
Proof.
  cbv zeta. unfold nextReset.
  pose proof (nextReset_base (Z.of_nat (length indexed)) ltac:(lia)) as Hbase.
  cbv zeta in Hbase.
  set (next := if _ <? _ then _ else _) in *.
  destruct Hbase as [[Hlo Hhi] Hfit].
  assert (HM : Minute = 60000000000) by reflexivity.
  assert (Hq : next ÷ 4 = next / 4) by (apply Z.quot_div_nonneg; lia).
  pose proof (rand_Int63n_range (next ÷ 4) w) as Hj.
  destruct (rand_Int63n (next ÷ 4) w) as [jitter w2] eqn:Hdraw. simpl in *.
  assert (0 < next ÷ 4) by (rewrite Hq; apply Z.div_str_pos; lia).
  specialize (Hj ltac:(assumption)).
  assert (4 * (next / 4) <= next) by (apply Z.mul_div_le; lia).
  rewrite int64_small by lia.
  rewrite Hq in Hj. lia.
Qed.

(** What [List] leaves of the client: untouched while the reset is not due;
    otherwise both fingerprints cleared and the deadline moved to the second
    reading of the clock plus the new interval. *)
Lemma List_client {C} (indexed : list Z) (s0 s1 : sourcegraphClient W) (w0 w1 : W)
  (r : SourcegraphListResult W C) :
  let afterIDs := (listRepoIDs s0 indexed w0).2 in
  let now := (time_Now afterIDs).1 in
  let drawn := nextReset indexed (time_Now afterIDs).2 in
  List indexed s0 w0 = (Ok r, s1, w1) ->
  s1 = if configFingerprintReset s0 <? now
       then withConfigFingerprint ""
              (withConfigFingerprintProto None
                 (withConfigFingerprintReset ((time_Now drawn.2).1 + drawn.1) s0))
       else s0.
Proof.
  cbv zeta. unfold List.
  destruct (listRepoIDs s0 indexed w0) as [[repos | err] w]; [| done]. simpl.
  destruct (time_Now w) as [now w2]. simpl.
  destruct (configFingerprintReset s0 <? now).
  - destruct (nextReset indexed w2) as [next w3]. simpl.
    destruct (time_Now w3) as [now2 w4]. simpl.
    by intros [= _ <- _].
  - by intros [= _ <- _].
Qed.

(** C4, as the code has it.  When [List] finds the reset deadline passed,
    the new deadline is the reading of the clock plus an interval [d] that
    is at least 5 minutes and at most 1.25 times the larger of 5 minutes
    and a minute for every 500 indexed IDs, for every number of indexed IDs
    and every draw of the random source. *)
Theorem List_reset_interval {C} (indexed : list Z) (s0 s1 : sourcegraphClient W)
  (w0 w1 : W) (r : SourcegraphListResult W C) :
  let afterIDs := (listRepoIDs s0 indexed w0).2 in
  let now := (time_Now afterIDs).1 in
  let drawn := nextReset indexed (time_Now afterIDs).2 in
  let d := drawn.1 in
  let n := Z.of_nat (length indexed) in
  List indexed s0 w0 = (Ok r, s1, w1) ->
  configFingerprintReset s0 < now ->
  configFingerprintReset s1 = (time_Now drawn.2).1 + d
  /\ 5 * Minute <= d
  /\ 4 * d <= 5 * Z.max (5 * Minute) (n * Minute / 500).
Proof.
  cbv zeta. intros HList Hdue.
  pose proof (List_client _ _ _ _ _ _ HList) as Hs1. cbv zeta in Hs1.
  apply Z.ltb_lt in Hdue. rewrite Hdue in Hs1. subst s1.
  split; [reflexivity |]. apply nextReset_bounds.
Qed.

End ResetInterval.

Lemma List_reset_interval_witness :
  exists r s1 w1,
    List (C := list IndexOptions) [1; 2; 3]
      (Scripted.client 2) (Scripted.world Scripted.bothBatchesAnswer [] 74999999999)
    = (Ok r, s1, w1)
    /\ configFingerprintReset s1 = 1001 + (5 * Minute + 74999999999).
Proof.
  eassert (HList : List (C := list IndexOptions) [1; 2; 3]
                     (Scripted.client 2)
                     (Scripted.world Scripted.bothBatchesAnswer [] 74999999999)
                   = (Ok _, _, _)) by reflexivity.
  pose proof (List_reset_interval _ _ _ _ _ _ HList) as Hreset.
  cbv zeta in Hreset.
  destruct Hreset as (Hdeadline & _); [vm_compute; reflexivity |].
  eexists _, _, _. split; [exact HList |].
  eapply eq_trans; [exact Hdeadline | vm_compute; reflexivity].
Defined.

(** C4, as the claim words it, fails.  A new client has its reset due; with
    no indexed IDs the claimed upper bound is exactly 5 minutes, and any
    draw but 0 puts the interval above it.  The scripted clock reads 1001
    when the deadline is set. *)
Lemma List_reset_interval_exceeds_claimed_bound :
  exists r s1 w1,
    List (C := list IndexOptions) []
      (Scripted.client 2) (Scripted.world Scripted.bothBatchesAnswer [] 1)
    = (Ok r, s1, w1)
    /\ let indexed : list Z := [] in
       let d := configFingerprintReset s1 - 1001 in
       let n := Z.of_nat (length indexed) in
       d = 5 * Minute + 1
       /\ ~ (5 * Minute <= d /\ 4 * (d - 5 * Minute) <= 5 * (n * Minute / 500)).
Proof.
  eexists _, _, _. split; [reflexivity |].
  cbv zeta. split; [vm_compute; reflexivity |].
  vm_compute. intros [_ H]. apply H. reflexivity.
Qed.

(** ** The conversions from and to the wire *)

(** Appending inside a loop builds the image of the list ranged over. *)
Lemma foldl_append_map {A B} (g : A -> B) (l : list A) (acc : list B) :
  foldl (fun acc x => acc ++ [g x]) acc l = acc ++ map g l.
Proof.
  revert acc. induction l as [| x l IH]; intros acc; simpl.
  - by rewrite app_nil_r.
  - rewrite IH. by rewrite <- app_assoc.
Qed.

Lemma foldl_append_map_pair {A B D} (g : A -> B -> D) (l : list (A * B))
  (acc : list D) :
  foldl (fun acc '(a, b) => acc ++ [g a b]) acc l = acc ++ map (fun ab => g ab.1 ab.2) l.
Proof.
  revert acc. induction l as [| [a b] l IH]; intros acc; simpl.
  - by rewrite app_nil_r.
  - rewrite IH. by rewrite <- app_assoc.
Qed.

(** Assigning the entries of a list to a map one after the other. *)
Lemma foldl_insert_list_to_map (l : list (string * Z)) (m : gmap string Z) :
  foldl (fun m kv => <[ kv.1 := kv.2 ]> m) m l = list_to_map (reverse l) ∪ m.
Proof.
  revert m. induction l as [| [k v] l IH]; intros m; simpl.
  - by rewrite (left_id_L ∅ (∪)).
  - rewrite IH, reverse_cons, list_to_map_app, <- (assoc_L (∪)).
    f_equal. simpl.
    by rewrite (insert_union_singleton_l m), insert_empty.
Qed.

(** Ranging over a map in any order and assigning every entry to a fresh map
    gives the map back. *)
Lemma rebuild_map `{MapRange} (m : gmap string Z) :
  foldl (fun m kv => <[ kv.1 := kv.2 ]> m) ∅ (rangeMap m) = m.
Proof.
  rewrite foldl_insert_list_to_map, (right_id_L ∅ (∪)).
  rewrite <- (list_to_map_to_list m) at 2.
  apply list_to_map_proper.
  - rewrite reverse_Permutation, rangeMap_perm. apply NoDup_fst_map_to_list.
  - by rewrite reverse_Permutation, rangeMap_perm.
Qed.

(** C10.  An item whose [Branches] and [LanguageMap] are not nil, whose
    [RepoID] is a uint32 and whose [LanguageMap] values are uint8 comes back
    from [ToProto] and [FromProto] equal on every field but [CloneURL],
    which is empty. *)
Theorem FromProto_ToProto `{MapRange} (o : indexOptionsItem)
  (branches : list zoekt.RepositoryBranch) (languageMap : gmap string Z) :
  Branches (Options o) = Some branches ->
  LanguageMap (Options o) = Some languageMap ->
  0 <= RepoID (Options o) < 2^32 ->
  map_Forall (fun _ parser => 0 <= parser < 2^8) languageMap ->
  FromProto (ToProto o) =
    {| Options := withCloneURL "" (Options o); Error := Error o |}.
Proof.
  destruct o as [[lf sy br id nm cu pr dv pu fo ar lm] er]. simpl.
  intros -> -> Hid Hlm.
  unfold FromProto, ToProto, withCloneURL, elems. simpl.
  rewrite !foldl_append_map. simpl.
  rewrite (foldl_append_map_pair
             (fun lang parser => {| proto.Language := lang;
                                    proto.Ctags := GoInt.int32 parser |})).
  simpl. rewrite uint32_int32 by exact Hid.
  do 2 f_equal.
  - f_equal. rewrite map_map. rewrite <- (map_id branches) at 2.
    apply map_ext. by intros [].
  - f_equal.
    rewrite <- (rebuild_map languageMap) at 2.
    assert (Hall : Forall (fun kv : string * Z => 0 <= kv.2 < 2^8)
                          (rangeMap languageMap)).
    { rewrite rangeMap_perm. apply map_Forall_to_list in Hlm.
      eapply Forall_impl; [exact Hlm |]. by intros []. }
    generalize (∅ : gmap string Z).
    induction Hall as [| [k v] l Hv _ IH]; intros m0; simpl; [done |].
    simpl in Hv. rewrite uint8_int32 by exact Hv. apply IH.
Qed.

Lemma FromProto_ToProto_witness :
  let o := {| Options := {| LargeFiles := Some ["*.min.js"]; Symbols := true;
                            Branches := Some [ {| zoekt.Name := "HEAD";
                                                  zoekt.Version := "deadbeef" |} ];
                            RepoID := 4294967295; Name := "github.com/a/b";
                            CloneURL := "http://sourcegraph/.internal/git/github.com/a/b";
                            Priority := 7; DocumentRanksVersion := "v1";
                            Public := true; Fork := false; Archived := true;
                            LanguageMap := Some {[ "go" := 255 ]} |};
              Error := "" |} in
  0 <= RepoID (Options o) < 2^32 /\
  FromProto (ToProto o) =
    {| Options := withCloneURL "" (Options o); Error := Error o |}.
Proof.
  cbv zeta. split; [simpl; lia |].
  eapply FromProto_ToProto; [reflexivity | reflexivity | simpl; lia |].
  apply map_Forall_singleton. lia.
Defined.

(** ** The first-batch gate *)

(** The replies depend on the call pointwise. *)
Lemma exchange_ext {W X} (call call' : list Z -> W -> result X * W)
  (batches : list (list Z)) (w : W) :
  (forall repos w, call repos w = call' repos w) ->
  exchange call batches w = exchange call' batches w.
Proof.
  intros Hext. revert w. induction batches as [| repos batches IH]; intros w; simpl.
  - reflexivity.
  - rewrite Hext. destruct (call' repos w) as [r w']. by rewrite IH.
Qed.

Section Gate.
Context {W : Type} `{!GoEnv W} `{!GoArch} {C FP : Type}.
Variable tag : FP -> fingerprint.
Variable setFp : FP -> sourcegraphClient W -> sourcegraphClient W.
Variable getFp : sourcegraphClient W -> FP.
Variable fetch : sourcegraphClient W -> FP -> list Z -> W ->
                 result (list indexOptionsItem * FP) * W.
Hypothesis fetch_setFp :
  forall v s fp repos w, fetch (setFp v s) fp repos w = fetch s fp repos w.
Hypothesis getFp_setFp : forall v s, getFp (setFp v s) = v.
Hypothesis setFp_setFp : forall a b s, setFp a (setFp b s) = setFp a s.
Hypothesis setFp_getFp : forall s, setFp (getFp s) s = s.

(** A pass, batch after batch: the world and the consumer follow the
    replies, and the client changes in its fingerprint only, as [gateStep]
    has it. *)
Lemma gate_pass (f : IndexOptions -> C -> C) (starting : FP)
  (batches : list (list Z)) :
  forall (first : bool) (s : sourcegraphClient W) (w : W) (c : C),
    let ex := exchange (fun repos w => tagWith tag (fetch s starting repos w))
                       batches w in
    let g := foldl (gateStep (tag starting)) (first, tag (getFp s)) ex.1 in
    exists fp,
      foldl (iterateBatch (gate setFp fetch starting) f) (first, s, w, c) batches
      = (g.1, setFp fp s, ex.2, foldl (consume f) c ex.1)
      /\ tag fp = g.2.
Proof.
  induction batches as [| repos batches IH]; intros first s w c; cbv zeta.
  - exists (getFp s). simpl. by rewrite setFp_getFp.
  - simpl.
    destruct (fetch s starting repos w) as [[[options next] | err] w1] eqn:Hf;
      simpl.
    + destruct first.
      * destruct (IH false (setFp next s) w1 (deliver f options c)) as (fp & Hrun & Hfp).
        rewrite (exchange_ext _ (fun repos w => tagWith tag (fetch s starting repos w)))
          in Hrun, Hfp by (intros; by rewrite fetch_setFp).
        rewrite getFp_setFp, setFp_setFp in *.
        destruct (exchange _ batches w1) as [rs w2]. simpl in *.
        exists fp. by rewrite Hrun.
      * destruct (IH false s w1 (deliver f options c)) as (fp & Hrun & Hfp).
        destruct (exchange _ batches w1) as [rs w2]. simpl in *.
        exists fp. by rewrite Hrun.
    + destruct (IH false (setFp starting s) w1 c) as (fp & Hrun & Hfp).
      rewrite (exchange_ext _ (fun repos w => tagWith tag (fetch s starting repos w)))
        in Hrun, Hfp by (intros; by rewrite fetch_setFp).
      rewrite getFp_setFp, setFp_setFp in *.
      destruct (exchange _ batches w1) as [rs w2]. simpl in *.
      exists fp. by rewrite Hrun.
Qed.

End Gate.

(** Once [first] is false the stored fingerprint stays, until a reply fails:
    then it is the starting fingerprint, for good. *)
Lemma gateStep_settled {X FP} (starting v : FP) (rs : list (result (X * FP))) :
  foldl (gateStep starting) (false, v) rs
  = (false, if forallb isOk rs then v else starting).
Proof.
  revert v. induction rs as [| [[x next] | err] rs IH]; intros v; simpl.
  - reflexivity.
  - apply IH.
  - rewrite IH. by destruct (forallb isOk rs).
Qed.

Lemma gateStep_first {X FP} (starting v : FP) (r : result (X * FP))
  (rs : list (result (X * FP))) :
  foldl (gateStep starting) (true, v) (r :: rs)
  = (false, match r with
            | Ok (_, next) => if forallb isOk rs then next else starting
            | Err _ => starting
            end).
Proof.
  destruct r as [[x next] | err]; simpl; rewrite gateStep_settled;
    [reflexivity | by destruct (forallb isOk rs)].
Qed.

Section Pass.
Context {W : Type} `{!GoEnv W} `{!GoArch} {C : Type}.

(** The two variants of [mkGetIndexOptionsFunc] are the gate, on the field
    of their transport. *)
Lemma mkGetIndexOptionsFuncREST_gate (s : sourcegraphClient W) :
  mkGetIndexOptionsFuncREST s
  = gate withConfigFingerprint getIndexOptionsREST (configFingerprint s).
Proof. reflexivity. Qed.

Lemma mkGetIndexOptionsFuncGRPC_gate (s : sourcegraphClient W) :
  mkGetIndexOptionsFuncGRPC s
  = gate withConfigFingerprintProto getIndexOptionsGRPC (configFingerprintProto s).
Proof. reflexivity. Qed.

(** The transport calls read nothing of the fingerprint fields. *)
Lemma decodeItems_frame (s s' : sourcegraphClient W)
  (stream : list (result indexOptionsItem)) (opts : list indexOptionsItem) :
  Root s' = Root s ->
  decodeItems s' stream opts = decodeItems s stream opts.
Proof.
  intros HRoot. revert opts.
  induction stream as [| [opt | err] stream IH]; intros opts; simpl;
    [reflexivity | | reflexivity].
  unfold getCloneURL. rewrite HRoot. apply IH.
Qed.

Lemma getIndexOptionsREST_frame (v : string) (s : sourcegraphClient W)
  (fp : string) (repos : list Z) (w : W) :
  getIndexOptionsREST (withConfigFingerprint v s) fp repos w
  = getIndexOptionsREST s fp repos w.
Proof.
  unfold getIndexOptionsREST. simpl.
  destruct (retryablehttp_NewRequest _ _ _) as [req | err]; [| reflexivity].
  unfold doRequest. simpl.
  destruct (restClient s _ w) as [[resp | err] w']; [| reflexivity].
  destruct (negb _); [reflexivity |].
  by rewrite (decodeItems_frame s (withConfigFingerprint v s)).
Qed.

Lemma getIndexOptionsGRPC_frame (v : option proto.Fingerprint)
  (s : sourcegraphClient W) (fp : option proto.Fingerprint) (repos : list Z)
  (w : W) :
  getIndexOptionsGRPC (withConfigFingerprintProto v s) fp repos w
  = getIndexOptionsGRPC s fp repos w.
Proof. reflexivity. Qed.

Lemma withConfigFingerprint_same (s : sourcegraphClient W) :
  withConfigFingerprint (configFingerprint s) s = s.
Proof. by destruct s. Qed.

Lemma withConfigFingerprintProto_same (s : sourcegraphClient W) :
  withConfigFingerprintProto (configFingerprintProto s) s = s.
Proof. by destruct s. Qed.

(** The closure [List] returns is [iterate] on the IDs it returns, with the
    batch size and the transport of the client [List] was called on. *)
Lemma List_closure (indexed : list Z) (s0 s1 : sourcegraphClient W) (w0 w1 : W)
  (r : SourcegraphListResult W C) :
  List indexed s0 w0 = (Ok r, s1, w1) ->
  IterateIndexOptions r
  = iterate (IDs r) (batchSize s0)
      (if useGRPC s0 then mkGetIndexOptionsFuncGRPC else mkGetIndexOptionsFuncREST).
Proof.
  unfold List. destruct (listRepoIDs s0 indexed w0) as [[repos | err] w]; [| done].
  destruct (time_Now w) as [now w'].
  destruct (configFingerprintReset s0 <? now).
  - destruct (nextReset indexed w') as [next w''].
    destruct (time_Now w'') as [now' w'''].
    intros [= <- _ _]. reflexivity.
  - intros [= <- _ _]. reflexivity.
Qed.

(** A pass of the closure, run on the client [s]: the consumer is fed the
    replies in order, the world is the one the calls leave, and the client
    changes in the fingerprint of its transport only, as [gateStep] has it
    from [first = true]. *)
Lemma pass_spec (indexed : list Z) (s0 s1 : sourcegraphClient W) (w0 w1 : W)
  (r : SourcegraphListResult W C) :
  List indexed s0 w0 = (Ok r, s1, w1) ->
  forall (f : IndexOptions -> C -> C) (s : sourcegraphClient W) (w : W) (c : C),
    let grpc := useGRPC s0 in
    let ex := exchange (passCall grpc s) (batched (IDs r) (batchSize s0)) w in
    exists s',
      IterateIndexOptions r f (s, w, c) = (s', ex.2, foldl (consume f) c ex.1)
      /\ storedFingerprint grpc s'
         = (foldl (gateStep (storedFingerprint grpc s))
                  (true, storedFingerprint grpc s) ex.1).2
      /\ s' = (if grpc
               then withConfigFingerprintProto (configFingerprintProto s') s
               else withConfigFingerprint (configFingerprint s') s).
Proof.
  intros HList f s w c. cbv zeta.
  rewrite (List_closure _ _ _ _ _ _ HList). unfold iterate, passCall, storedFingerprint.
  destruct (useGRPC s0).
  - rewrite mkGetIndexOptionsFuncGRPC_gate.
    destruct (gate_pass viaGRPC withConfigFingerprintProto configFingerprintProto
                getIndexOptionsGRPC getIndexOptionsGRPC_frame
                (fun _ _ => eq_refl) (fun _ _ _ => eq_refl)
                withConfigFingerprintProto_same
                f (configFingerprintProto s) (batched (IDs r) (batchSize s0))
                true s w c) as (fp & Hrun & Hfp).
    rewrite Hrun. eexists. split; [reflexivity |]. split; [exact Hfp | reflexivity].
  - rewrite mkGetIndexOptionsFuncREST_gate.
    destruct (gate_pass viaREST withConfigFingerprint configFingerprint
                getIndexOptionsREST getIndexOptionsREST_frame
                (fun _ _ => eq_refl) (fun _ _ _ => eq_refl)
                withConfigFingerprint_same
                f (configFingerprint s) (batched (IDs r) (batchSize s0))
                true s w c) as (fp & Hrun & Hfp).
    rewrite Hrun. eexists. split; [reflexivity |]. split; [exact Hfp | reflexivity].
Qed.

End Pass.

Section PassProperties.
Context {W : Type} `{!GoEnv W} `{!GoArch} {C : Type}.

(** The fingerprint a pass leaves: the one of the first reply when every
    call succeeded, the one the pass started with when a call failed. *)
Lemma pass_fingerprint (indexed : list Z) (s0 s1 : sourcegraphClient W)
  (w0 w1 : W) (r : SourcegraphListResult W C) :
  List indexed s0 w0 = (Ok r, s1, w1) ->
  forall (f : IndexOptions -> C -> C) (s : sourcegraphClient W) (w : W) (c : C),
    let grpc := useGRPC s0 in
    storedFingerprint grpc (IterateIndexOptions r f (s, w, c)).1.1
    = match replies (passCall grpc s) (batched (IDs r) (batchSize s0)) w with
      | [] => storedFingerprint grpc s
      | Ok (_, fp) :: rest =>
          if forallb isOk rest then fp else storedFingerprint grpc s
      | Err _ :: _ => storedFingerprint grpc s
      end.
Proof.
  intros HList f s w c. cbv zeta.
  destruct (pass_spec _ _ _ _ _ _ HList f s w c) as (s' & Hrun & Hfp & _).
  rewrite Hrun. simpl. rewrite Hfp. unfold replies.
  destruct (exchange _ _ w).1 as [| rep rest]; [reflexivity |].
  rewrite gateStep_first. by destruct rep as [[options fp] | err].
Qed.

(** What a pass hands to the consumer. *)
Lemma pass_consumer (indexed : list Z) (s0 s1 : sourcegraphClient W)
  (w0 w1 : W) (r : SourcegraphListResult W C) :
  List indexed s0 w0 = (Ok r, s1, w1) ->
  forall (f : IndexOptions -> C -> C) (s : sourcegraphClient W) (w : W) (c : C),
    (IterateIndexOptions r f (s, w, c)).2
    = foldl (consume f) c
        (replies (passCall (useGRPC s0) s) (batched (IDs r) (batchSize s0)) w).
Proof.
  intros HList f s w c.
  destruct (pass_spec _ _ _ _ _ _ HList f s w c) as (s' & Hrun & _).
  by rewrite Hrun.
Qed.

(** C1, as the code has it.  In a pass whose first batch succeeds, the
    later batches leave the stored fingerprint at the one the first batch
    returned as long as they succeed (what they return is dropped); a later
    batch that fails puts the fingerprint the pass started with back, and
    there it stays. *)
Theorem later_batches_keep_or_restore (indexed : list Z)
  (s0 s1 : sourcegraphClient W) (w0 w1 : W) (r : SourcegraphListResult W C)
  (f : IndexOptions -> C -> C) (s : sourcegraphClient W) (w : W) (c : C)
  (options : list indexOptionsItem) (fp : fingerprint)
  (rest : list (result (list indexOptionsItem * fingerprint))) :
  List indexed s0 w0 = (Ok r, s1, w1) ->
  replies (passCall (useGRPC s0) s) (batched (IDs r) (batchSize s0)) w
    = Ok (options, fp) :: rest ->
  storedFingerprint (useGRPC s0) (IterateIndexOptions r f (s, w, c)).1.1
  = if forallb isOk rest then fp else storedFingerprint (useGRPC s0) s.
Proof.
  intros HList Hreplies.
  pose proof (pass_fingerprint _ _ _ _ _ _ HList f s w c) as Hpass.
  cbv zeta in Hpass. by rewrite Hreplies in Hpass.
Qed.

(** C3.  When the first call of a pass fails, the fingerprint stored after
    the pass is the one stored when the pass began, whatever the later
    batches do.  For a pass run on the client as [List] returned it, with
    the reset not due, that is the fingerprint held before [List] was
    called. *)
Theorem first_batch_failure_keeps_fingerprint (indexed : list Z)
  (s0 s1 : sourcegraphClient W) (w0 w1 : W) (r : SourcegraphListResult W C)
  (f : IndexOptions -> C -> C) (s : sourcegraphClient W) (w : W) (c : C)
  (err : error) (rest : list (result (list indexOptionsItem * fingerprint))) :
  List indexed s0 w0 = (Ok r, s1, w1) ->
  replies (passCall (useGRPC s0) s) (batched (IDs r) (batchSize s0)) w
    = Err err :: rest ->
  storedFingerprint (useGRPC s0) (IterateIndexOptions r f (s, w, c)).1.1
  = storedFingerprint (useGRPC s0) s
  /\ (s = s1 ->
      (time_Now (listRepoIDs s0 indexed w0).2).1 <= configFingerprintReset s0 ->
      storedFingerprint (useGRPC s0) (IterateIndexOptions r f (s, w, c)).1.1
      = storedFingerprint (useGRPC s0) s0).
Proof.
  intros HList Hreplies.
  pose proof (pass_fingerprint _ _ _ _ _ _ HList f s w c) as Hpass.
  cbv zeta in Hpass. rewrite Hreplies in Hpass.
  split; [exact Hpass |].
  intros -> Hnotdue. rewrite Hpass.
  pose proof (List_client _ _ _ _ _ _ HList) as Hs1. cbv zeta in Hs1.
  apply Z.ltb_ge in Hnotdue. by rewrite Hnotdue in Hs1; subst s1.
Qed.

End PassProperties.

(** C2.  When every call of a pass succeeds, the fingerprint stored after
    the pass is the one the first batch returned, not the last.  In the
    scenario of three repositories resolved in batches of two, where the
    first batch returns options for 1, "not found" for 2 and the fingerprint
    F1, and the second returns options for 3 and F2, the consumer is called
    for 1 and 3 and the stored fingerprint is F1. *)
Theorem first_batch_fingerprint_is_stored :
  (forall (W C : Type) (E : GoEnv W) (A : GoArch) (indexed : list Z)
          (s0 s1 : sourcegraphClient W) (w0 w1 : W)
          (r : SourcegraphListResult W C) (f : IndexOptions -> C -> C)
          (s : sourcegraphClient W) (w : W) (c : C)
          (options : list indexOptionsItem) (fp : fingerprint)
          (rest : list (result (list indexOptionsItem * fingerprint))),
      List indexed s0 w0 = (Ok r, s1, w1) ->
      replies (passCall (useGRPC s0) s) (batched (IDs r) (batchSize s0)) w
        = Ok (options, fp) :: rest ->
      Forall (fun reply => isOk reply = true) rest ->
      storedFingerprint (useGRPC s0) (IterateIndexOptions r f (s, w, c)).1.1 = fp)
  /\ (exists s' w' log,
        Scripted.listAndIterate []
          (Scripted.client 2) (Scripted.world Scripted.bothBatchesAnswer [] 0)
        = Some (s', w', log)
        /\ configFingerprint s' = "F1"
        /\ map RepoID log = [1; 3]).
Proof.
  split.
  - intros W C E A indexed s0 s1 w0 w1 r f s w c options fp rest HList Hreplies Hok.
    pose proof (pass_fingerprint _ _ _ _ _ _ HList f s w c) as Hpass.
    cbv zeta in Hpass. rewrite Hreplies in Hpass. rewrite Hpass.
    clear Hreplies Hpass.
    induction Hok as [| reply rest Hreply _ IH]; simpl; [reflexivity |].
    by rewrite Hreply.
  - eexists _, _, _. split; [vm_compute; reflexivity |]. split; reflexivity.
Qed.

Lemma first_batch_fingerprint_is_stored_witness :
  exists r s1 w1,
    List (C := list IndexOptions) []
      (Scripted.client 2) (Scripted.world Scripted.bothBatchesAnswer [] 0)
    = (Ok r, s1, w1)
    /\ storedFingerprint false (IterateIndexOptions r record (s1, w1, [])).1.1
       = viaREST "F1".
Proof.
  eexists _, _, _. split; [reflexivity |].
  eapply (proj1 first_batch_fingerprint_is_stored Scripted.World _ _ _ []
            (Scripted.client 2) _ (Scripted.world Scripted.bothBatchesAnswer [] 0));
    [reflexivity | vm_compute; reflexivity | repeat constructor].
Defined.

Lemma later_batches_keep_or_restore_witness :
  exists r s1 w1,
    List (C := list IndexOptions) []
      (Scripted.clientHolding "F0" 2)
      (Scripted.world Scripted.secondBatchFails [] 0)
    = (Ok r, s1, w1)
    /\ storedFingerprint false (IterateIndexOptions r record (s1, w1, [])).1.1
       = viaREST "F0".
Proof.
  eexists _, _, _. split; [reflexivity |].
  erewrite (later_batches_keep_or_restore []
              (Scripted.clientHolding "F0" 2) _
              (Scripted.world Scripted.secondBatchFails [] 0));
    [| reflexivity | vm_compute; reflexivity].
  reflexivity.
Defined.

Lemma first_batch_failure_keeps_fingerprint_witness :
  exists r s1 w1,
    List (C := list IndexOptions) []
      (Scripted.clientHolding "F0" 2)
      (Scripted.world Scripted.firstBatchFails [] 0)
    = (Ok r, s1, w1)
    /\ storedFingerprint false (IterateIndexOptions r record (s1, w1, [])).1.1
       = viaREST "F0".
Proof.
  eexists _, _, _. split; [reflexivity |].
  eapply proj1.
  eapply (first_batch_failure_keeps_fingerprint []
            (Scripted.clientHolding "F0" 2) _
            (Scripted.world Scripted.firstBatchFails [] 0) _ _ record);
    [reflexivity | vm_compute; reflexivity].
Defined.

(** C1, as the claim words it, fails.  The client holds F0, the first batch
    succeeds and returns F1, the second batch fails: the second call changes
    the stored fingerprint again, from F1 back to F0. *)
Lemma later_failure_mutates_fingerprint :
  exists r s1 w1,
    List (C := list IndexOptions) []
      (Scripted.clientHolding "F0" 2)
      (Scripted.world Scripted.secondBatchFails [] 0)
    = (Ok r, s1, w1)
    /\ map (fun reply => match reply with
                         | Ok (_, fp) => Some fp
                         | Err _ => None
                         end)
           (replies (passCall false s1) (batched (IDs r) (batchSize s1)) w1)
       = [Some (viaREST "F1"); None]
    /\ configFingerprint (IterateIndexOptions r record (s1, w1, [])).1.1 = "F0"
    /\ configFingerprint (IterateIndexOptions r record (s1, w1, [])).1.1 <> "F1".
Proof.
  eexists _, _, _. split; [reflexivity |].
  split; [vm_compute; reflexivity |].
  split; [vm_compute; reflexivity |].
  vm_compute. discriminate.
Qed.

(** ** Failures stay where they happen *)

Section Isolation.
Context {W : Type} `{!GoEnv W} `{!GoArch}.

(** The recording consumer only ever appends. *)
Lemma deliver_record (options : list indexOptionsItem) (log : list IndexOptions) :
  deliver record options log
  = log ++ map Options (filter (fun o => Error o = "") options).
Proof.
  unfold deliver. revert log.
  induction options as [| o options IH]; intros log; simpl.
  - by rewrite app_nil_r.
  - rewrite IH, filter_cons. destruct (String.eqb_spec (Error o) "") as [He | He]; simpl.
    + rewrite decide_True by exact He. unfold record. simpl.
      by rewrite <- app_assoc.
    + by rewrite decide_False by exact He.
Qed.

Lemma consume_record_grows {FP} (rs : list (result (list indexOptionsItem * FP)))
  (log : list IndexOptions) (o : IndexOptions) :
  o ∈ log -> o ∈ foldl (consume record) log rs.
Proof.
  revert log. induction rs as [| [[options fp] | err] rs IH]; intros log Hin; simpl.
  - exact Hin.
  - apply IH. rewrite deliver_record. apply elem_of_app. by left.
  - by apply IH.
Qed.

Lemma consume_record_delivers {FP} (rs : list (result (list indexOptionsItem * FP)))
  (log : list IndexOptions) (i : nat) (options : list indexOptionsItem) (fp : FP)
  (o : indexOptionsItem) :
  rs !! i = Some (Ok (options, fp)) ->
  o ∈ options -> Error o = "" ->
  Options o ∈ foldl (consume record) log rs.
Proof.
  revert log i. induction rs as [| reply rs IH]; intros log i Hi Ho Herr.
  - done.
  - destruct i as [| i]; simpl in *.
    + injection Hi as ->. simpl. apply consume_record_grows.
      rewrite deliver_record. apply elem_of_app. right.
      apply list_elem_of_fmap. exists o. split; [reflexivity |].
      apply list_elem_of_filter. by split.
    + by eapply IH.
Qed.

(** C5.  A batch whose call succeeds has every item without an error
    delivered to the consumer, whatever happened to the calls of the other
    batches of the pass: a failed call, whether one or several, does not
    end the pass, and the closure has no error to return. *)
Theorem failed_batch_does_not_abort (indexed : list Z)
  (s0 s1 : sourcegraphClient W) (w0 w1 : W)
  (r : SourcegraphListResult W (list IndexOptions))
  (s : sourcegraphClient W) (w : W) (log : list IndexOptions)
  (i : nat) (options : list indexOptionsItem) (fp : fingerprint)
  (o : indexOptionsItem) :
  List indexed s0 w0 = (Ok r, s1, w1) ->
  replies (passCall (useGRPC s0) s) (batched (IDs r) (batchSize s0)) w !! i
    = Some (Ok (options, fp)) ->
  o ∈ options ->
  Error o = "" ->
  Options o ∈ (IterateIndexOptions r record (s, w, log)).2.
Proof.
  intros HList Hi Ho Herr.
  rewrite (pass_consumer _ _ _ _ _ _ HList).
  by eapply consume_record_delivers.
Qed.

(** An item with an error leaves the consumer alone; one without is handed
    over when its turn comes. *)
Lemma deliver_app {C} (f : IndexOptions -> C -> C)
  (l1 l2 : list indexOptionsItem) (c : C) :
  deliver f (l1 ++ l2) c = deliver f l2 (deliver f l1 c).
Proof. unfold deliver. apply foldl_app. Qed.

(** C6.  Every reply of a pass goes through the loop over its items, and in
    that loop an item with a non-empty error triggers no call of the
    consumer and changes nothing for the items around it, while an item
    with an empty error has the consumer called with its options, in its
    turn. *)
Theorem item_error_skips_only_that_item {C : Type} (indexed : list Z)
  (s0 s1 : sourcegraphClient W) (w0 w1 : W) (r : SourcegraphListResult W C)
  (f : IndexOptions -> C -> C) (s : sourcegraphClient W) (w : W) (c : C) :
  List indexed s0 w0 = (Ok r, s1, w1) ->
  (IterateIndexOptions r f (s, w, c)).2
    = foldl (consume f) c
        (replies (passCall (useGRPC s0) s) (batched (IDs r) (batchSize s0)) w)
  /\ (forall (a : indexOptionsItem) (before after : list indexOptionsItem) (c : C),
        Error a <> "" ->
        deliver f (before ++ a :: after) c = deliver f (before ++ after) c)
  /\ (forall (b : indexOptionsItem) (before after : list indexOptionsItem) (c : C),
        Error b = "" ->
        deliver f (before ++ b :: after) c
        = deliver f after (f (Options b) (deliver f before c))).
Proof.
  intros HList. split; [by apply (pass_consumer _ _ _ _ _ _ HList) |].
  split.
  - intros a before after c' Ha. rewrite !deliver_app.
    unfold deliver. simpl.
    by destruct (String.eqb_spec (Error a) "").
  - intros b before after c' Hb. rewrite deliver_app.
    unfold deliver. simpl.
    by destruct (String.eqb_spec (Error b) "").
Qed.

End Isolation.

Lemma failed_batch_does_not_abort_witness :
  exists r s1 w1,
    List (C := list IndexOptions) []
      (Scripted.clientHolding "F0" 2)
      (Scripted.world Scripted.firstBatchFails [] 0)
    = (Ok r, s1, w1)
    /\ withCloneURL "http://sourcegraph/.internal/git/repo3" (Scripted.repo 3 "repo3")
       ∈ (IterateIndexOptions r record (s1, w1, [])).2.
Proof.
  eexists _, _, _. split; [reflexivity |].
  eapply (failed_batch_does_not_abort []
            (Scripted.clientHolding "F0" 2) _
            (Scripted.world Scripted.firstBatchFails [] 0) _ _ _ _ [] 1 _ _
            {| Options := withCloneURL "http://sourcegraph/.internal/git/repo3"
                                       (Scripted.repo 3 "repo3");
               Error := "" |});
    [reflexivity | vm_compute; reflexivity | apply list_elem_of_here | reflexivity].
Defined.

Lemma item_error_skips_only_that_item_witness :
  exists r s1 w1,
    List (C := list IndexOptions) []
      (Scripted.client 2) (Scripted.world Scripted.bothBatchesAnswer [] 0)
    = (Ok r, s1, w1)
    /\ deliver record [Scripted.found 1 "repo1"; Scripted.failed 2 "not found"] []
       = deliver record [Scripted.found 1 "repo1"] [].
Proof.
  eassert (HList : List (C := list IndexOptions) []
                     (Scripted.client 2)
                     (Scripted.world Scripted.bothBatchesAnswer [] 0)
                   = (Ok _, _, _)) by reflexivity.
  pose proof (item_error_skips_only_that_item _ _ _ _ _ _ record
                (Scripted.client 2)
                (Scripted.world Scripted.bothBatchesAnswer [] 0) [] HList)
    as (_ & Hskip & _).
  eexists _, _, _. split; [exact HList |].
  apply (Hskip (Scripted.failed 2 "not found") [Scripted.found 1 "repo1"] [] []).
  discriminate.
Defined.

(** ** ForceIterateIndexOptions *)

(** The Batcher loses nothing: with a size of at least one the batches, put
    end to end, are the IDs. *)
Lemma chunks_concat (fuel size : nat) (slice : list Z) :
  (0 < size)%nat -> (length slice <= fuel)%nat ->
  concat (chunks fuel size slice) = slice.
Proof.
  intros Hsize. revert slice.
  induction fuel as [| fuel IH]; intros slice Hfuel.
  - destruct slice; [reflexivity | simpl in Hfuel; lia].
  - destruct slice as [| x slice]; [reflexivity |].
    cbn [chunks concat]. rewrite IH.
    + apply take_drop.
    + rewrite length_drop. simpl in *. lia.
Qed.

Lemma batched_concat (slice : list Z) (size : Z) :
  0 < size -> concat (batched slice size) = slice.
Proof. intros Hsize. apply chunks_concat; lia. Qed.

Lemma batchSize_positive {W} (s : sourcegraphClient W) :
  0 <= BatchSize s -> 0 < batchSize s.
Proof. unfold batchSize. destruct (Z.eqb_spec (BatchSize s) 0); lia. Qed.

Section Forced.
Context {W : Type} `{!GoEnv W} `{!GoArch}.

Lemma forceItems_record (opts : list indexOptionsItem) (log : list Callback) :
  forceItems recordSuccess recordError opts log
  = log ++ concat (map itemCallbacks opts).
Proof.
  unfold forceItems. revert log.
  induction opts as [| o opts IH]; intros log; simpl.
  - by rewrite app_nil_r.
  - rewrite IH. unfold itemCallbacks, recordSuccess, recordError.
    destruct (String.eqb (Error o) ""), (0 <? RepoID (Options o)); simpl;
      by rewrite <- ?app_assoc.
Qed.

(** The callbacks of a forced run, batch by batch. *)
Lemma force_pass (call : list Z -> W -> result (list indexOptionsItem) * W)
  (batches : list (list Z)) (w : W) (log : list Callback) :
  foldl (forceBatch call recordSuccess recordError) (w, log) batches
  = ((exchange call batches w).2,
     log ++ concat (zip_with batchCallbacks batches (exchange call batches w).1)).
Proof.
  revert w log. induction batches as [| repos batches IH]; intros w log; simpl.
  - by rewrite app_nil_r.
  - destruct (call repos w) as [[opts | err] w1]; rewrite IH;
      destruct (exchange call batches w1) as [rs w2]; simpl.
    + by rewrite forceItems_record, <- app_assoc.
    + unfold recordError. by rewrite foldl_append_map, <- app_assoc.
Qed.

(** The callbacks of one batch are about the IDs of the batch, once each,
    when the IDs are positive and a successful reply has one item for each
    of them. *)
Lemma batchCallbacks_cover (repos : list Z) (reply : result (list indexOptionsItem)) :
  Forall (fun id => 0 < id) repos ->
  (forall opts, reply = Ok opts -> map (fun o => RepoID (Options o)) opts ≡ₚ repos) ->
  map callbackRepo (batchCallbacks repos reply) ≡ₚ repos.
Proof.
  intros Hpos Hreply. destruct reply as [opts | err]; simpl.
  - specialize (Hreply opts eq_refl). rewrite <- Hreply.
    assert (Hids : Forall (fun o => 0 < RepoID (Options o)) opts).
    { rewrite <- Hreply in Hpos. rewrite List.Forall_map in Hpos. exact Hpos. }
    clear Hreply Hpos.
    induction Hids as [| o opts Ho _ IH]; simpl; [reflexivity |].
    rewrite map_app, IH. unfold itemCallbacks.
    destruct (String.eqb (Error o) ""); simpl; [reflexivity |].
    destruct (Z.ltb_spec 0 (RepoID (Options o))); [reflexivity | lia].
  - rewrite map_map. simpl. by rewrite map_id.
Qed.

(** The callbacks of a forced run, as the code has them, are those of its
    batches in order: a batch whose call fails has [onError] called once for
    each of its IDs, with the error of the call; in a batch whose call
    succeeds every returned item triggers [onSuccess] when its error is
    empty, [onError] when its error is not empty and its ID is positive, and
    nothing otherwise.  When the IDs are positive and every successful reply
    has one item for each ID of its batch, each requested ID gets exactly
    one callback.  The fake does the same with all IDs in one batch. *)
Theorem force_callbacks (repos : list Z) (s : sourcegraphClient W) (w : W) :
  let batches := batched repos (batchSize s) in
  let rs := replies (forceGetIndexOptions s) batches w in
  let log :=
    (ForceIterateIndexOptions recordSuccess recordError repos (s, w, [])).2 in
  log = concat (zip_with batchCallbacks batches rs)
  /\ (0 <= BatchSize s ->
      Forall (fun id => 0 < id) repos ->
      Forall2 (fun batch reply =>
                 forall opts, reply = Ok opts ->
                              map (fun o => RepoID (Options o)) opts ≡ₚ batch)
              batches rs ->
      map callbackRepo log ≡ₚ repos)
  /\ (forall sf : Fake.sourcegraphFake,
        Fake.ForceIterateIndexOptions sf recordSuccess recordError repos []
        = batchCallbacks repos (Fake.GetIndexOptions sf repos)).
Proof.
  cbv zeta. unfold ForceIterateIndexOptions, replies.
  rewrite force_pass. simpl.
  split; [reflexivity |].
  split; [| intros sf; unfold Fake.ForceIterateIndexOptions, recordError;
            destruct (Fake.GetIndexOptions sf repos) as [opts | err]; simpl;
            [apply forceItems_record
            | apply (foldl_append_map (fun id => OnError id err) repos [])]].
  intros Hsize Hpos Hcontract.
  rewrite <- (batched_concat repos (batchSize s)) at 3
    by (by apply batchSize_positive).
  rewrite <- (batched_concat repos (batchSize s)) in Hpos
    by (by apply batchSize_positive).
  apply Forall_concat in Hpos.
  induction Hcontract as [| batch reply batches rs Hreply _ IH]; simpl;
    [reflexivity |].
  apply Forall_cons in Hpos as [Hbatch Hpos].
  rewrite map_app, IH by exact Hpos.
  by rewrite batchCallbacks_cover.
Qed.

End Forced.

Lemma force_callbacks_witness :
  let repos := [1; 2; 3] in
  let s := Scripted.client 2 in
  let w := Scripted.world Scripted.forcedAnswers [] 0 in
  0 <= BatchSize s /\
  map callbackRepo
    (ForceIterateIndexOptions recordSuccess recordError repos (s, w, [])).2
  ≡ₚ repos.
Proof.
  cbv zeta. split; [simpl; lia |].
  apply (proj1 (proj2 (force_callbacks [1; 2; 3] (Scripted.client 2)
                         (Scripted.world Scripted.forcedAnswers [] 0)))).
  - simpl. lia.
  - repeat constructor.
  - vm_compute. repeat constructor; intros opts [= <-]; reflexivity.
Defined.

(** C7.  The code does not do what the claim, and the comment on
    [ForceIterateIndexOptions] in the interface ("For each repo it will call
    either onSuccess or onError"), say.  The fake is asked for repository 7,
    which is not in its directory: [GetIndexOptions] reports "not found" in
    an item without an ID, the loop calls [onError] only for an item with an
    ID, and neither callback is called for 7.  The client has the same loop
    and behaves the same when the control plane answers with such an
    item. *)
Lemma force_unknown_repository_gets_no_callback :
  let repos := [7] in
  let item (o : indexOptionsItem) := (RepoID (Options o), Error o) in
  let fakeLog :=
    Fake.ForceIterateIndexOptions Fake.oneRepository
      recordSuccess recordError repos [] in
  let log :=
    (ForceIterateIndexOptions recordSuccess recordError repos
       (Scripted.client 0, Scripted.world Scripted.unknownRepository [] 0, [])).2 in
  7 ∈ repos
  /\ (item <$> Fake.GetIndexOptions_items Fake.oneRepository repos)
     = [(0, "not found")]
  /\ ~ (exists cb, cb ∈ fakeLog /\ callbackRepo cb = 7)
  /\ ~ (exists cb, cb ∈ log /\ callbackRepo cb = 7).
Proof.
  cbv zeta. split; [apply list_elem_of_here |].
  split; [vm_compute; reflexivity |].
  split; intros (cb & Hcb & _); vm_compute in Hcb; by apply elem_of_nil in Hcb.
Qed.

Section ForcedBypass.
Context {W : Type} `{!GoEnv W} `{!GoArch}.

(** [getIndexOptionsREST] reads the root URL and the HTTP client, nothing
    else of the client. *)
Lemma getIndexOptionsREST_reads (s s' : sourcegraphClient W) (fp : string)
  (repos : list Z) (w : W) :
  Root s' = Root s -> restClient s' = restClient s ->
  getIndexOptionsREST s' fp repos w = getIndexOptionsREST s fp repos w.
Proof.
  intros HRoot Hrest. unfold getIndexOptionsREST, doRequest.
  rewrite HRoot, Hrest.
  destruct (retryablehttp_NewRequest _ _ _) as [req | err]; [| reflexivity].
  destruct (restClient s _ w) as [[resp | err] w']; [| reflexivity].
  destruct (negb _); [reflexivity |].
  by rewrite (decodeItems_frame s s') by exact HRoot.
Qed.

Lemma forceGetIndexOptions_frame (fp : string) (fpProto : option proto.Fingerprint)
  (reset : Z) (s : sourcegraphClient W) (repos : list Z) (w : W) :
  forceGetIndexOptions
    (withConfigFingerprint fp
       (withConfigFingerprintProto fpProto (withConfigFingerprintReset reset s)))
    repos w
  = forceGetIndexOptions s repos w.
Proof.
  unfold forceGetIndexOptions. simpl.
  destruct (useGRPC s); [reflexivity |].
  by rewrite (getIndexOptionsREST_reads s).
Qed.

Lemma forceBatch_ext {C} (call call' : list Z -> W -> result (list indexOptionsItem) * W)
  (onSuccess : IndexOptions -> C -> C) (onError : Z -> error -> C -> C)
  (batches : list (list Z)) (st : W * C) :
  (forall repos w, call repos w = call' repos w) ->
  foldl (forceBatch call onSuccess onError) st batches
  = foldl (forceBatch call' onSuccess onError) st batches.
Proof.
  intros Hext. revert st.
  induction batches as [| repos batches IH]; intros [w c]; simpl; [reflexivity |].
  by rewrite Hext, IH.
Qed.

(** A forced call only sends requests without a fingerprint: whatever holds
    of the world and is kept by such requests is kept by the call. *)
Lemma forceGetIndexOptions_invariant (I : W -> Prop) (s : sourcegraphClient W)
  (repos : list Z) (w : W) :
  (forall req w, http.Header req !! fingerprintHeader = None ->
                 I w -> I (restClient s req w).2) ->
  (forall req w, proto.ReqFingerprint req = None ->
                 I w -> I (proto.SearchConfiguration (grpcClient s) req w).2) ->
  I w -> I (forceGetIndexOptions s repos w).2.
Proof.
  intros Hrest Hgrpc Hw. unfold forceGetIndexOptions.
  destruct (useGRPC s).
  - unfold getIndexOptionsGRPC.
    match goal with
    | |- context [proto.SearchConfiguration _ ?req w] =>
        specialize (Hgrpc req w eq_refl Hw);
        destruct (proto.SearchConfiguration (grpcClient s) req w) as [[resp | err] w']
    end; exact Hgrpc.
  - unfold getIndexOptionsREST, doRequest.
    destruct (retryablehttp_NewRequest _ _ _) as [req | err] eqn:Hreq; [| exact Hw].
    apply retryablehttp_NewRequest_fresh in Hreq. subst req. simpl.
    match goal with
    | |- context [restClient s ?req w] =>
        assert (Hfree : http.Header req !! fingerprintHeader = None)
          by (unfold http.SetHeader; simpl;
              rewrite !lookup_insert_ne by done; apply lookup_empty);
        specialize (Hrest req w Hfree Hw);
        destruct (restClient s req w) as [[resp | err] w']
    end; simpl in *; [| exact Hrest].
    destruct (negb _).
    + by destruct (http.ReadAllLimit _ _).
    + by destruct (decodeItems _ _ _).
Qed.

(** C8.  [ForceIterateIndexOptions] returns the client as it got it; it
    runs the same on a client that differs in the stored fingerprints and
    the reset deadline; every request it sends is without a fingerprint;
    and a [List] call made afterwards is the [List] call on the client as
    it was before. *)
Theorem force_bypasses_fingerprint {C C' : Type}
  (onSuccess : IndexOptions -> C -> C) (onError : Z -> error -> C -> C)
  (repos : list Z) (s : sourcegraphClient W) (w : W) (c : C) :
  let run := ForceIterateIndexOptions onSuccess onError repos (s, w, c) in
  run.1.1 = s
  /\ (forall (fp : string) (fpProto : option proto.Fingerprint) (reset : Z),
        let s' := withConfigFingerprint fp
                    (withConfigFingerprintProto fpProto
                       (withConfigFingerprintReset reset s)) in
        let run' := ForceIterateIndexOptions onSuccess onError repos (s', w, c) in
        run'.1.1 = s' /\ run'.1.2 = run.1.2 /\ run'.2 = run.2)
  /\ (forall I : W -> Prop,
        (forall req w, http.Header req !! fingerprintHeader = None ->
                       I w -> I (restClient s req w).2) ->
        (forall req w, proto.ReqFingerprint req = None ->
                       I w -> I (proto.SearchConfiguration (grpcClient s) req w).2) ->
        I w -> I run.1.2)
  /\ (forall (indexed : list Z) (w' : W),
        List (C := C') indexed run.1.1 w' = List indexed s w').
Proof.
  cbv zeta. unfold ForceIterateIndexOptions.
  assert (Hsame : forall st batches,
             (let '(w1, c1) :=
                foldl (forceBatch (forceGetIndexOptions s) onSuccess onError)
                      st batches in (s, w1, c1)).1.1 = s).
  { intros st batches. by destruct (foldl _ st batches). }
  split; [apply Hsame |]. split; [| split].
  - intros fp fpProto reset.
    change (batchSize (withConfigFingerprint fp _)) with (batchSize s).
    rewrite (forceBatch_ext _ (forceGetIndexOptions s))
      by (intros; apply forceGetIndexOptions_frame).
    by destruct (foldl _ (w, c) _).
  - intros I Hrest Hgrpc Hw.
    generalize (batched repos (batchSize s)). intros batches.
    revert w c Hw. induction batches as [| batch batches IH]; intros w c Hw.
    + exact Hw.
    + simpl.
      pose proof (forceGetIndexOptions_invariant I s batch w Hrest Hgrpc Hw) as Hstep.
      destruct (forceGetIndexOptions s batch w) as [[opts | err] w1]; by apply IH.
  - intros indexed w'. by rewrite Hsame.
Qed.

End ForcedBypass.

Lemma force_bypasses_fingerprint_witness :
  let s := Scripted.clientHolding "F0" 2 in
  let w := Scripted.world Scripted.forcedAnswers [] 0 in
  Scripted.noFingerprintSeen w /\
  Scripted.noFingerprintSeen
    (ForceIterateIndexOptions recordSuccess recordError [1; 2; 3] (s, w, [])).1.2.
Proof.
  cbv zeta.
  assert (Hstart : Scripted.noFingerprintSeen
                     (Scripted.world Scripted.forcedAnswers [] 0))
    by (split; constructor).
  split; [exact Hstart |].
  apply (force_bypasses_fingerprint (C' := list IndexOptions)
           recordSuccess recordError [1; 2; 3] (Scripted.clientHolding "F0" 2)
           (Scripted.world Scripted.forcedAnswers [] 0) []).
  - intros req w Hreq [Hseen Hrpc]. simpl. unfold Scripted.Do.
    destruct (Scripted.answers w); split; simpl;
      try (apply Forall_app; split; [exact Hseen | by constructor]);
      exact Hrpc.
  - intros req w _ Hseen. exact Hseen.
  - exact Hstart.
Defined.

(** ** Checks on concrete inputs *)

(** The check value of CRC-32/IEEE. *)
Example ChecksumIEEE_check : CRC32.ChecksumIEEE "123456789" = 0xcbf43926.
Proof. reflexivity. Qed.

Example fakeID_foo : fakeID "foo" = 208889123.
Proof. reflexivity. Qed.

(** The first batch is the first [size] IDs; what is left is batched the
    same way.  A slice of at most [size] IDs is one batch. *)
Lemma chunks_fuel (size : nat) :
  (0 < size)%nat ->
  forall (fuel fuel' : nat) (slice : list Z),
    (length slice <= fuel)%nat -> (length slice <= fuel')%nat ->
    chunks fuel size slice = chunks fuel' size slice.
Proof.
  intros Hsize. induction fuel as [| fuel IH]; intros fuel' slice Hf Hf'.
  - destruct slice; [by destruct fuel' | simpl in Hf; lia].
  - destruct slice as [| x slice]; [by destruct fuel' |].
    destruct fuel' as [| fuel']; [simpl in Hf'; lia |].
    cbn [chunks]. f_equal.
    apply IH; rewrite length_drop; simpl in *; lia.
Qed.

Lemma batched_app (first rest : list Z) (size : Z) :
  first <> [] -> Z.of_nat (length first) = size ->
  batched (first ++ rest) size = first :: batched rest size.
Proof.
  intros Hne Hlen. unfold batched.
  destruct first as [| x first]; [done |].
  assert (Hsize : Z.to_nat size = length (x :: first)) by lia.
  rewrite Hsize.
  change (chunks (length ((x :: first) ++ rest)) (length (x :: first))
                 ((x :: first) ++ rest))
    with (take (length (x :: first)) ((x :: first) ++ rest)
          :: chunks (length (first ++ rest)) (length (x :: first))
                    (drop (length (x :: first)) ((x :: first) ++ rest))).
  rewrite take_app_length, drop_app_length. f_equal.
  apply chunks_fuel; simpl; rewrite ?length_app; lia.
Qed.

Lemma batched_short (slice : list Z) (size : Z) :
  slice <> [] -> Z.of_nat (length slice) <= size ->
  batched slice size = [slice].
Proof.
  intros Hne Hlen. unfold batched.
  destruct slice as [| x slice]; [done |].
  assert (Hn : (length (x :: slice) <= Z.to_nat size)%nat) by lia.
  change (chunks (length (x :: slice)) (Z.to_nat size) (x :: slice))
    with (take (Z.to_nat size) (x :: slice)
          :: chunks (length slice) (Z.to_nat size)
                    (drop (Z.to_nat size) (x :: slice))).
  rewrite take_ge, drop_ge by exact Hn.
  by destruct (length slice).
Qed.

(** 25 000 IDs in batches of 10 000: three batches of 10 000, 10 000 and
    5 000, every ID once and in order. *)
Example batched_25000 (a b c : list Z) :
  Z.of_nat (length a) = 10000 ->
  Z.of_nat (length b) = 10000 ->
  Z.of_nat (length c) = 5000 ->
  batched (a ++ b ++ c) 10000 = [a; b; c].
Proof.
  intros Ha Hb Hc.
  rewrite batched_app by (try exact Ha; intros ->; simpl in Ha; lia).
  rewrite batched_app by (try exact Hb; intros ->; simpl in Hb; lia).
  rewrite batched_short by (try lia; intros ->; simpl in Hc; lia).
  reflexivity.
Qed.

(** A pass of [List] sends the stored fingerprint with every batch; a forced
    run on the same client sends none. *)
Example pass_sends_fingerprint :
  (fun run => match run with
              | Some (_, w, _) =>
                  (fun req => http.Header req !! fingerprintHeader)
                    <$> Scripted.received w
              | None => []
              end)
    (Scripted.listAndIterate [] (Scripted.clientHolding "F0" 2)
       (Scripted.world Scripted.bothBatchesAnswer [] 0))
  = [None; Some "F0"; Some "F0"]
  /\ (fun req => http.Header req !! fingerprintHeader)
       <$> Scripted.received
             (ForceIterateIndexOptions recordSuccess recordError [1; 2; 3]
                (Scripted.clientHolding "F0" 2,
                 Scripted.world Scripted.forcedAnswers [] 0, [])).1.2
     = [None; None].
Proof. split; vm_compute; reflexivity. Qed.

(** The scenario over gRPC: the consumer is called for 1 and 3, the stored
    token is the one of the first reply, and both requests carry the nil
    fingerprint the pass started with. *)
Example scenario_over_grpc :
  (fun run => match run with
              | Some (s, w, log) =>
                  Some (configFingerprintProto s, RepoID <$> log,
                        proto.ReqFingerprint <$> Scripted.rpcReceived w)
              | None => None
              end)
    (Scripted.listAndIterate [] (Scripted.grpcClientOf 2)
       (Scripted.world [] Scripted.bothBatchesAnswerGRPC 0))
  = Some (Scripted.token 1, [1; 3], [None; None]).
Proof. vm_compute. reflexivity. Qed.

(** The fake finds the repository whose SG_ID says 3 and reports the
    options it reads for it. *)
Example fake_finds_repository :
  callbackRepo
    <$> Fake.ForceIterateIndexOptions Fake.oneRepository
          recordSuccess recordError [3] []
  = [3].
Proof. vm_compute. reflexivity. Qed.

(** * More of the client *)

(** ** Index status and document ranks on the wire *)

(** X1.  A status request that goes through [ToProto] and [FromProto] comes
    back with every repository and every branch in place and in order; a nil
    list of repositories or of branches comes back empty, not nil.  Without
    nil lists the request comes back as it was. *)
Theorem updateIndexStatusRequest_roundtrip (u : status.updateIndexStatusRequest) :
  updateIndexStatusRequest_FromProto (updateIndexStatusRequest_ToProto u)
  = {| status.Repositories :=
         Some (map (fun repo =>
                      {| status.RepoID := status.RepoID repo;
                         status.Branches := Some (elems (status.Branches repo));
                         status.IndexTimeUnix := status.IndexTimeUnix repo |})
                   (elems (status.Repositories u))) |}
  /\ (forall repositories,
        status.Repositories u = Some repositories ->
        Forall (fun repo => status.Branches repo <> None) repositories ->
        updateIndexStatusRequest_FromProto (updateIndexStatusRequest_ToProto u) = u).
Proof.
  assert (Hgeneral :
    updateIndexStatusRequest_FromProto (updateIndexStatusRequest_ToProto u)
    = {| status.Repositories :=
           Some (map (fun repo =>
                        {| status.RepoID := status.RepoID repo;
                           status.Branches := Some (elems (status.Branches repo));
                           status.IndexTimeUnix := status.IndexTimeUnix repo |})
                     (elems (status.Repositories u))) |}).
  { unfold updateIndexStatusRequest_FromProto, updateIndexStatusRequest_ToProto.
    simpl. rewrite !foldl_append_map. unfold elems at 1. simpl.
    rewrite map_map. do 2 f_equal. apply map_ext. intros repo. simpl.
    rewrite !foldl_append_map. simpl. rewrite map_map.
    do 2 f_equal. rewrite <- (map_id (elems _)) at 2.
    apply map_ext. by intros []. }
  split; [exact Hgeneral |].
  intros repositories Hrepos Hbranches. rewrite Hgeneral.
  destruct u as [rs]. simpl in *. subst rs. do 2 f_equal. simpl.
  rewrite <- (map_id repositories) at 2. apply map_ext_Forall.
  eapply Forall_impl; [exact Hbranches |].
  intros [id [branches |] time] Hne; [reflexivity | done].
Qed.

Lemma updateIndexStatusRequest_roundtrip_witness :
  let u := {| status.Repositories :=
                Some [ {| status.RepoID := 7;
                          status.Branches :=
                            Some [ {| zoekt.Name := "HEAD";
                                      zoekt.Version := "deadbeef" |} ];
                          status.IndexTimeUnix := 1700000000 |} ] |} in
  updateIndexStatusRequest_FromProto (updateIndexStatusRequest_ToProto u) = u.
Proof.
  cbv zeta.
  eapply (proj2 (updateIndexStatusRequest_roundtrip _)); [reflexivity |].
  repeat constructor. discriminate.
Defined.

(** Copying a map entry by entry, in any order, gives the map. *)
Lemma copy_map `{MapRange} (m : gmap string Z) :
  foldl (fun (acc : gmap string Z) '(k, v) => <[ k := v ]> acc) ∅ (rangeMap m) = m.
Proof.
  rewrite <- (rebuild_map m) at 2.
  generalize (∅ : gmap string Z).
  induction (rangeMap m) as [| [k v] l IH]; intros acc; simpl; [reflexivity |].
  apply IH.
Qed.

(** X2.  Document ranks that go through [ToProto] and [FromProto] keep the
    mean rank and every path with its rank; a nil map of paths comes back as
    an empty map.  The same holds for a response that goes through
    [FromProto] and [ToProto]. *)
Theorem RepoPathRanks_roundtrip `{MapRange} (r : RepoPathRanks)
  (x : protoStatus.DocumentRanksResponse) :
  RepoPathRanks_FromProto (RepoPathRanks_ToProto r)
  = {| MeanRank := MeanRank r; Paths := Some (default ∅ (Paths r)) |}
  /\ RepoPathRanks_ToProto (RepoPathRanks_FromProto x)
     = {| protoStatus.MeanRank := protoStatus.MeanRank x;
          protoStatus.Paths := Some (default ∅ (protoStatus.Paths x)) |}.
Proof.
  unfold RepoPathRanks_FromProto, RepoPathRanks_ToProto. simpl.
  split.
  - destruct (Paths r) as [m |]; simpl; [by rewrite !copy_map |].
    f_equal. f_equal. apply (copy_map ∅).
  - destruct (protoStatus.Paths x) as [m |]; simpl; [by rewrite !copy_map |].
    f_equal. f_equal. apply (copy_map ∅).
Qed.

(** ** Repository IDs on the gRPC wire *)

Section WireIDs.
Context {W : Type} `{!GoEnv W} `{!GoArch}.

Lemma uint32_int32_list (ids : list Z) :
  Forall (fun id => 0 <= id < 2^32) ids ->
  map GoInt.uint32 (map GoInt.int32 ids) = ids.
Proof.
  intros Hids. rewrite map_map. rewrite <- (map_id ids) at 2.
  apply map_ext_Forall. eapply Forall_impl; [exact Hids |].
  intros id Hid. by apply uint32_int32.
Qed.

(** X3.  Repository IDs are uint32 but travel as int32.  [listRepoIDsGRPC]
    makes one call, with the host name and the int32 image of every indexed
    ID; it fails with the error of the call, and otherwise returns the
    uint32 images of the IDs in the response, in order.  When the indexed
    IDs are uint32 values the service recovers them from the request, and
    when the service answers with the int32 images of the uint32 IDs [ids],
    the call returns exactly [ids]: an ID from 2^31 on goes over the wire as
    a negative number and comes back unchanged. *)
Theorem listRepoIDsGRPC_ids (s : sourcegraphClient W) (indexed : list Z) (w : W) :
  exists request,
    proto.Hostname request = Hostname s
    /\ proto.IndexedIds request = map GoInt.int32 indexed
    /\ listRepoIDsGRPC s indexed w
       = match proto.List (grpcClient s) request w with
         | (Ok response, w') =>
             (Ok (map GoInt.uint32 (proto.ListRepoIds response)), w')
         | (Err err, w') => (Err err, w')
         end
    /\ (Forall (fun id => 0 <= id < 2^32) indexed ->
        map GoInt.uint32 (proto.IndexedIds request) = indexed)
    /\ (forall ids w',
          Forall (fun id => 0 <= id < 2^32) ids ->
          proto.List (grpcClient s) request w
          = (Ok {| proto.ListRepoIds := map GoInt.int32 ids |}, w') ->
          listRepoIDsGRPC s indexed w = (Ok ids, w')).
Proof.
  exists {| proto.Hostname := Hostname s;
            proto.IndexedIds := map GoInt.int32 indexed |}.
  assert (Hcall : listRepoIDsGRPC s indexed w
                  = match proto.List (grpcClient s)
                            {| proto.Hostname := Hostname s;
                               proto.IndexedIds := map GoInt.int32 indexed |} w with
                    | (Ok response, w') =>
                        (Ok (map GoInt.uint32 (proto.ListRepoIds response)), w')
                    | (Err err, w') => (Err err, w')
                    end).
  { unfold listRepoIDsGRPC. rewrite !foldl_append_map. simpl.
    destruct (proto.List _ _ w) as [[response | err] w']; [| reflexivity].
    by rewrite foldl_append_map. }
  split; [reflexivity |]. split; [reflexivity |]. split; [exact Hcall |].
  split.
  - intros Hindexed. simpl. by apply uint32_int32_list.
  - intros ids w' Hids Hanswer. rewrite Hcall, Hanswer. simpl.
    by rewrite uint32_int32_list.
Qed.

End WireIDs.

Lemma listRepoIDsGRPC_ids_witness :
  let ids := [4294967295; 2147483648; 1] in
  let w := Scripted.world [] [] 0 in
  Forall (fun id => 0 <= id < 2^32) ids /\
  listRepoIDsGRPC Peers.echoClient ids w = (Ok ids, w).
Proof.
  cbv zeta. split; [repeat constructor; lia |].
  destruct (listRepoIDsGRPC_ids Peers.echoClient [4294967295; 2147483648; 1]
              (Scripted.world [] [] 0))
    as (request & _ & Hsent & _ & _ & Hback).
  apply Hback; [repeat constructor; lia |].
  rewrite (surjective_pairing (proto.List _ _ _)). simpl.
  by rewrite Hsent.
Defined.

(** ** What a successful options call returns *)

Section OptionsCalls.
Context {W : Type} `{!GoEnv W} `{!GoArch}.

Lemma decodeItems_Ok (s : sourcegraphClient W)
  (stream : list (result indexOptionsItem)) (acc opts : list indexOptionsItem) :
  decodeItems s stream acc = Ok opts ->
  exists raw, stream = map Ok raw /\ opts = acc ++ map (withClientURL s) raw.
Proof.
  revert acc. induction stream as [| [opt | err] stream IH]; intros acc; simpl.
  - intros [= <-]. exists []. by rewrite app_nil_r.
  - intros Hdec. destruct (IH _ Hdec) as (raw & -> & ->).
    exists (opt :: raw). split; [reflexivity |]. by rewrite <- app_assoc.
  - discriminate.
Qed.

Lemma decodeItems_Err (s : sourcegraphClient W)
  (stream : list (result indexOptionsItem)) (acc : list indexOptionsItem) :
  Exists (fun r => isOk r = false) stream ->
  exists err, decodeItems s stream acc = Err err.
Proof.
  intros Hbad. revert acc.
  induction Hbad as [[opt | err] stream Hhere | [opt | err] stream _ IH];
    intros acc; simpl; try done; eauto.
Qed.

(** X4.  A REST options call that succeeds got status 200 from the one
    request it sent, every document of the body decoded, and it returns the
    decoded items in order, each with the clone URL the client computes from
    the item's name, together with the fingerprint header of the response
    (empty when there is none).  There are no partial results: a status
    other than 200, or a document that does not decode, fails the call. *)
Theorem getIndexOptionsREST_success (s : sourcegraphClient W) (fingerprint : string)
  (repos : list Z) (w w' : W) (opts : list indexOptionsItem) (next : string) :
  getIndexOptionsREST s fingerprint repos w = (Ok (opts, next), w') ->
  exists req resp raw,
    restClient s req w = (Ok resp, w')
    /\ http.StatusCode resp = 200
    /\ json_Decode_items (http.RespBody resp) = map Ok raw
    /\ opts = map (withClientURL s) raw
    /\ next = default "" (http.RespHeader resp !! fingerprintHeader).
Proof.
  intros Hcall. unfold getIndexOptionsREST, doRequest in Hcall.
  destruct (retryablehttp_NewRequest _ _ _) as [req | err]; [| done].
  match type of Hcall with
  | context [restClient s ?r w] =>
      destruct (restClient s r w) as [[resp | err] w1] eqn:Hdo; [exists r |]
  end; [| done].
  destruct (Z.eqb_spec (http.StatusCode resp) http.StatusOK) as [Hok | Hbad];
    simpl in Hcall.
  - destruct (decodeItems _ _ _) as [decoded | err] eqn:Hdec; [| done].
    injection Hcall as <- <- <-.
    destruct (decodeItems_Ok _ _ _ _ Hdec) as (raw & Hstream & ->).
    by exists resp, raw.
  - by destruct (http.ReadAllLimit _ _).
Qed.

Lemma grpc_items_fold (s : sourcegraphClient W)
  (l : list proto.ZoektIndexOptions) (acc : list indexOptionsItem) :
  foldl (fun items x =>
           let item := FromProto x in
           let item := {| Options := withCloneURL
                                       (getCloneURL s (Name (Options item)))
                                       (Options item);
                          Error := Error item |} in
           items ++ [item])
        acc l
  = acc ++ map (fun x => withClientURL s (FromProto x)) l.
Proof.
  revert acc. induction l as [| x l IH]; intros acc; simpl.
  - by rewrite app_nil_r.
  - rewrite IH. by rewrite <- app_assoc.
Qed.

Lemma getIndexOptionsGRPC_closed (s : sourcegraphClient W)
  (fingerprint : option proto.Fingerprint) (repos : list Z) (w : W) :
  getIndexOptionsGRPC s fingerprint repos w
  = match proto.SearchConfiguration (grpcClient s)
            {| proto.RepoIds := map GoInt.int32 repos;
               proto.ReqFingerprint := fingerprint |} w with
    | (Ok response, w') =>
        (Ok (map (fun x => withClientURL s (FromProto x))
                 (proto.UpdatedOptions response),
             proto.RespFingerprint response), w')
    | (Err err, w') => (Err err, w')
    end.
Proof.
  unfold getIndexOptionsGRPC. rewrite foldl_append_map. simpl.
  destruct (proto.SearchConfiguration _ _ w) as [[response | err] w'];
    [| reflexivity].
  by rewrite grpc_items_fold.
Qed.

(** X5.  A gRPC options call that succeeds answers the one request that
    carried the int32 images of the IDs and the fingerprint as given.  It
    returns the fingerprint of the response and, for the option messages of
    the response in order, the [FromProto] of each message with the clone
    URL the client computes from its name.  So every item has an ID that is
    a uint32 whatever number was on the wire, and a list of branches and a
    language map that are not nil. *)
Theorem getIndexOptionsGRPC_success (s : sourcegraphClient W)
  (fingerprint : option proto.Fingerprint) (repos : list Z) (w w' : W)
  (items : list indexOptionsItem) (next : option proto.Fingerprint) :
  getIndexOptionsGRPC s fingerprint repos w = (Ok (items, next), w') ->
  exists response,
    proto.SearchConfiguration (grpcClient s)
      {| proto.RepoIds := map GoInt.int32 repos;
         proto.ReqFingerprint := fingerprint |} w = (Ok response, w')
    /\ next = proto.RespFingerprint response
    /\ items = map (fun x => withClientURL s (FromProto x))
                   (proto.UpdatedOptions response)
    /\ Forall (fun item =>
                 CloneURL (Options item) = getCloneURL s (Name (Options item))
                 /\ 0 <= RepoID (Options item) < 2^32
                 /\ Branches (Options item) <> None
                 /\ LanguageMap (Options item) <> None)
              items.
Proof.
  rewrite getIndexOptionsGRPC_closed.
  destruct (proto.SearchConfiguration _ _ w) as [[response | err] w1]; [| done].
  intros [= <- <- <-]. exists response.
  split; [reflexivity |]. split; [reflexivity |]. split; [reflexivity |].
  apply Forall_map. apply Forall_forall. intros x _. simpl.
  split; [reflexivity |]. split; [apply uint32_range |]. by split.
Qed.

Lemma Go_int_small (x : Z) : - 2^31 <= x < 2^31 -> Go_int x = x.
Proof.
  intros Hx. unfold Go_int.
  destruct intBits_cases as [-> | ->]; simpl; rewrite Z.mod_small; lia.
Qed.

(** X6.  A REST options call sends at most one request.  When the request
    cannot be built it sends none and fails with the error of building it.
    Otherwise it sends, once, a POST to the configuration endpoint whose body
    is the form encoding of the IDs converted to int - an ID below 2^31 as
    it is, on either width of int - and whose headers are the internal
    actor, the form content type and, exactly when the fingerprint is not
    empty, the fingerprint; an error of the peer is the error of the
    call. *)
Theorem getIndexOptionsREST_request (s : sourcegraphClient W) (fingerprint : string)
  (repos : list Z) (w : W) :
  let u := url_ResolveReference (Root s) "/.internal/search/configuration" in
  let data :=
    String.concat "&"
      (map (fun id => "repoID=" +:+ GoInt.Itoa (Go_int id)) repos) in
  let call := getIndexOptionsREST s fingerprint repos w in
  (Forall (fun id => 0 <= id < 2^31) repos ->
   data = String.concat "&" (map (fun id => "repoID=" +:+ GoInt.Itoa id) repos))
  /\ match retryablehttp_NewRequest "POST" u data with
     | Err err => call = (Err err, w)
     | Ok _ =>
         exists req,
           http.Method req = "POST"
           /\ http.URL req = u
           /\ http.Payload req = data
           /\ http.Header req
              = <[ "X-Sourcegraph-Actor-UID" := "internal" ]>
                  (if String.eqb fingerprint ""
                   then {[ "Content-Type" := "application/x-www-form-urlencoded" ]}
                   else <[ fingerprintHeader := fingerprint ]>
                          {[ "Content-Type" := "application/x-www-form-urlencoded" ]})
           /\ call.2 = (restClient s req w).2
           /\ (forall err, (restClient s req w).1 = Err err -> call.1 = Err err)
     end.
Proof.
  cbv zeta. split.
  { intros Hrepos. f_equal. apply map_ext_Forall.
    eapply Forall_impl; [exact Hrepos |]. intros id Hid. simpl in *.
    by rewrite Go_int_small by lia. }
  unfold getIndexOptionsREST, doRequest. rewrite map_map.
  destruct (retryablehttp_NewRequest _ _ _) as [req | err] eqn:Hreq;
    [| reflexivity].
  apply retryablehttp_NewRequest_fresh in Hreq. subst req.
  match goal with
  | |- context [restClient s ?r w] => exists r
  end.
  assert (Hsingle : forall k v : string,
             <[ k := v ]> (∅ : gmap string string) = {[ k := v ]})
    by (intros; apply insert_empty).
  split; [by destruct (String.eqb fingerprint "") |].
  split; [by destruct (String.eqb fingerprint "") |].
  split; [by destruct (String.eqb fingerprint "") |].
  split.
  { destruct (String.eqb fingerprint ""); simpl; by rewrite Hsingle. }
  destruct (restClient s _ w) as [[resp | err] w1]; simpl.
  - split; [| done]. destruct (negb _).
    + by destruct (http.ReadAllLimit _ _).
    + by destruct (decodeItems _ _ _).
  - split; [reflexivity |]. by intros err' [= ->].
Qed.

End OptionsCalls.

Lemma getIndexOptionsREST_success_witness :
  let s := Scripted.client 2 in
  let w := Scripted.world [Scripted.respond "options-1-2" "F1"] [] 0 in
  exists opts w',
    getIndexOptionsREST s "" [1; 2] w = (Ok (opts, "F1"), w')
    /\ exists req resp raw,
         restClient s req w = (Ok resp, w')
         /\ http.StatusCode resp = 200
         /\ json_Decode_items (http.RespBody resp) = map Ok raw
         /\ opts = map (withClientURL s) raw
         /\ "F1" = default "" (http.RespHeader resp !! fingerprintHeader).
Proof.
  cbv zeta.
  eassert (Hcall : getIndexOptionsREST (Scripted.client 2) "" [1; 2]
                     (Scripted.world [Scripted.respond "options-1-2" "F1"] [] 0)
                   = (Ok (_, "F1"), _)) by (vm_compute; reflexivity).
  eexists _, _. split; [exact Hcall |].
  exact (getIndexOptionsREST_success _ _ _ _ _ _ _ Hcall).
Defined.

Lemma getIndexOptionsGRPC_success_witness :
  let s := Scripted.grpcClientOf 2 in
  let w := Scripted.world [] Scripted.bothBatchesAnswerGRPC 0 in
  exists items w',
    getIndexOptionsGRPC s None [1; 2] w = (Ok (items, Scripted.token 1), w')
    /\ Forall (fun item =>
                 CloneURL (Options item) = getCloneURL s (Name (Options item))
                 /\ 0 <= RepoID (Options item) < 2^32
                 /\ Branches (Options item) <> None
                 /\ LanguageMap (Options item) <> None)
              items.
Proof.
  cbv zeta.
  eassert (Hcall : getIndexOptionsGRPC (Scripted.grpcClientOf 2) None [1; 2]
                     (Scripted.world [] Scripted.bothBatchesAnswerGRPC 0)
                   = (Ok (_, Scripted.token 1), _)) by (vm_compute; reflexivity).
  eexists _, _. split; [exact Hcall |].
  destruct (getIndexOptionsGRPC_success _ _ _ _ _ _ _ Hcall)
    as (response & _ & _ & _ & Hitems).
  exact Hitems.
Defined.

Lemma getIndexOptionsREST_request_witness :
  let s := Scripted.client 2 in
  let w := Scripted.world [Scripted.respond "options-1-2" "F1"] [] 0 in
  exists req,
    http.Payload req = "repoID=1&repoID=2"
    /\ http.Header req !! fingerprintHeader = Some "F0"
    /\ (getIndexOptionsREST s "F0" [1; 2] w).2 = (restClient s req w).2.
Proof.
  cbv zeta.
  pose proof (getIndexOptionsREST_request (Scripted.client 2) "F0" [1; 2]
                (Scripted.world [Scripted.respond "options-1-2" "F1"] [] 0))
    as [Hdata Hcall].
  cbv zeta in Hdata, Hcall.
  rewrite Hdata in Hcall by (repeat constructor; lia).
  destruct Hcall as (req & _ & _ & Hpayload & Hheader & Hsent & _).
  exists req. split; [exact Hpayload |]. split; [| exact Hsent].
  rewrite Hheader. reflexivity.
Defined.

(** ** List: failure and frame *)

Section ListFrame.
Context {W : Type} `{!GoEnv W} `{!GoArch} {C : Type}.

(** X7.  [List] fails exactly when listing the repository IDs fails.  Then
    the error is the listing error behind the prefix "listRepoIDs: " and the
    client is as it was: no fingerprint is cleared and no deadline moved,
    even when the reset is due.  When the listing succeeds [List] succeeds,
    and the IDs it returns are the listed ones. *)
Theorem List_outcome (indexed : list Z) (s : sourcegraphClient W) (w : W) :
  match listRepoIDs s indexed w with
  | (Err err, w1) =>
      List (C := C) indexed s w = (Err ("listRepoIDs: " +:+ err), s, w1)
  | (Ok repos, _) =>
      exists r s1 w1,
        List (C := C) indexed s w = (Ok r, s1, w1) /\ IDs r = repos
  end.
Proof.
  unfold List.
  destruct (listRepoIDs s indexed w) as [[repos | listErr] w2]; [| reflexivity].
  destruct (time_Now w2) as [now w3].
  destruct (configFingerprintReset s <? now).
  - destruct (nextReset indexed w3) as [next w4].
    destruct (time_Now w4) as [now' w5].
    by eexists _, _, _.
  - by eexists _, _, _.
Qed.

(** X8.  [List] and the passes of the closure it returns change nothing of
    the client but the stored fingerprints and the reset deadline: the root
    URL, the host name, the batch size, the transport switch and the two
    transport clients stay.  A pass moreover leaves the deadline and the
    fingerprint of the transport that is not in use alone. *)
Theorem List_and_pass_frame (indexed : list Z) (s0 s1 : sourcegraphClient W)
  (w0 w1 : W) (r : SourcegraphListResult W C)
  (f : IndexOptions -> C -> C) (s : sourcegraphClient W) (w : W) (c : C) :
  List indexed s0 w0 = (Ok r, s1, w1) ->
  let s' := (IterateIndexOptions r f (s, w, c)).1.1 in
  (exists fp fpProto reset,
      s1 = withConfigFingerprint fp
             (withConfigFingerprintProto fpProto
                (withConfigFingerprintReset reset s0)))
  /\ (exists fp fpProto,
        s' = withConfigFingerprint fp (withConfigFingerprintProto fpProto s))
  /\ configFingerprintReset s' = configFingerprintReset s
  /\ storedFingerprint (negb (useGRPC s0)) s'
     = storedFingerprint (negb (useGRPC s0)) s.
Proof.
  intros HList. cbv zeta.
  pose proof (List_client _ _ _ _ _ _ HList) as Hs1. cbv zeta in Hs1.
  destruct (pass_spec _ _ _ _ _ _ HList f s w c) as (s' & Hrun & _ & Hs').
  rewrite Hrun. simpl. split.
  { destruct (configFingerprintReset s0 <? _); subst s1.
    - by eexists _, _, _.
    - exists (configFingerprint s0), (configFingerprintProto s0),
        (configFingerprintReset s0). by destruct s0. }
  destruct (useGRPC s0); rewrite Hs'; simpl.
  - split; [| by split].
    exists (configFingerprint s), (configFingerprintProto s'). by destruct s.
  - split; [| by split].
    exists (configFingerprint s'), (configFingerprintProto s). by destruct s.
Qed.

End ListFrame.

Lemma List_and_pass_frame_witness :
  exists r s1 w1,
    List (C := list IndexOptions) []
      (Scripted.clientHolding "F0" 2)
      (Scripted.world Scripted.bothBatchesAnswer [] 0)
    = (Ok r, s1, w1)
    /\ configFingerprintReset (IterateIndexOptions r record (s1, w1, [])).1.1
       = configFingerprintReset s1.
Proof.
  eassert (HList : List (C := list IndexOptions) []
                     (Scripted.clientHolding "F0" 2)
                     (Scripted.world Scripted.bothBatchesAnswer [] 0)
                   = (Ok _, _, _)) by reflexivity.
  eexists _, _, _. split; [exact HList |].
  apply (List_and_pass_frame _ _ _ _ _ _ record _ _ [] HList).
Defined.

(** ** gRPC switched on without a gRPC client *)

Section Unconfigured.
Context {W : Type} `{!GoEnv W} `{!GoArch}.



End Unconfigured.


(** ** The fake: what [GetIndexOptions] returns *)

(** The index map of [GetIndexOptions]: an ID is mapped to an index at
    which it stands, and to the index at which it stands when it stands at
    one index only. *)
Lemma reposIdx_sound (repos : list Z) (id : Z) (i : nat) :
  foldl (fun (m : gmap Z nat) '(i, id) => <[ id := i ]> m) ∅
        (imap (fun i id => (i, id)) repos) !! id = Some i ->
  repos !! i = Some id.
Proof.
  revert id i. induction repos as [| last repos IH] using rev_ind; intros id i.
  - done.
  - rewrite imap_app, foldl_app. simpl. rewrite Nat.add_0_r.
    destruct (decide (last = id)) as [-> | Hne].
    + rewrite lookup_insert_eq. intros [= <-].
      by rewrite lookup_app_r, Nat.sub_diag.
    + rewrite lookup_insert_ne by done. intros Hi.
      apply IH in Hi. by rewrite lookup_app_l by (by eapply lookup_lt_Some).
Qed.

Lemma reposIdx_complete (repos : list Z) (id : Z) (i : nat) :
  NoDup repos -> repos !! i = Some id ->
  foldl (fun (m : gmap Z nat) '(i, id) => <[ id := i ]> m) ∅
        (imap (fun i id => (i, id)) repos) !! id = Some i.
Proof.
  revert id i. induction repos as [| last repos IH] using rev_ind;
    intros id i Hnodup Hi.
  - done.
  - rewrite imap_app, foldl_app. simpl. rewrite Nat.add_0_r.
    apply NoDup_app in Hnodup as (Hrepos & Hfresh & _).
    destruct (decide (i < length repos)%nat) as [Hlt | Hge].
    + rewrite lookup_app_l in Hi by exact Hlt.
      rewrite lookup_insert_ne.
      * by apply IH.
      * intros ->. apply (Hfresh id); [by eapply list_elem_of_lookup_2 |].
        apply list_elem_of_here.
    + rewrite lookup_app_r in Hi by lia.
      destruct (i - length repos)%nat as [| k] eqn:Hk; [| done].
      injection Hi as ->. rewrite lookup_insert_eq. f_equal. lia.
Qed.


Lemma GetIndexOptions_steps (sf : Fake.sourcegraphFake) (repos : list Z) :
  Fake.GetIndexOptions sf repos
  = let reposIdx :=
      foldl (fun (m : gmap Z nat) '(i, id) => <[ id := i ]> m) ∅
            (imap (fun i id => (i, id)) repos) in
    match (Fake.visitRepos sf).2 with
    | Some err => Err err
    | None =>
        Ok (map (fun item =>
                   if String.eqb (Error item) "" && (RepoID (Options item) =? 0)
                   then {| Options := Options item; Error := "not found" |}
                   else item)
                (foldl (FakeScan.fakeStep sf reposIdx)
                       (replicate (length repos) Fake.zeroItem)
                       (Fake.visitRepos sf).1))
    end.
Proof. reflexivity. Qed.

(** What is true of every item the loop leaves: an item with an error has
    the zero options. *)
Lemma fakeStep_items (sf : Fake.sourcegraphFake) (reposIdx : gmap Z nat)
  (names : list string) (items : list indexOptionsItem) :
  Forall (fun item => Error item <> "" -> Options item = zeroIndexOptions) items ->
  Forall (fun item => Error item <> "" -> Options item = zeroIndexOptions)
         (foldl (FakeScan.fakeStep sf reposIdx) items names)
  /\ length (foldl (FakeScan.fakeStep sf reposIdx) items names) = length items.
Proof.
  revert items. induction names as [| name names IH]; intros items Hitems; simpl.
  - by split.
  - assert (Hstep : Forall (fun item => Error item <> "" ->
                                        Options item = zeroIndexOptions)
                           (FakeScan.fakeStep sf reposIdx items name)
                    /\ length (FakeScan.fakeStep sf reposIdx items name)
                       = length items).
    { unfold FakeScan.fakeStep.
      destruct (reposIdx !! Fake.id sf name) as [idx |]; [| by split].
      destruct (Fake.getIndexOptions sf name) as [opts [err |]];
        (split; [apply Forall_insert; [exact Hitems | done]
                | apply length_insert]). }
    destruct Hstep as [Hall Hlen].
    destruct (IH _ Hall) as [Hall' Hlen']. split; [exact Hall' | congruence].
Qed.

(** An index whose ID the walk does not visit keeps its item. *)
Lemma fakeStep_untouched (sf : Fake.sourcegraphFake) (repos : list Z)
  (names : list string) (items : list indexOptionsItem) (i : nat) (id : Z) :
  let reposIdx :=
    foldl (fun (m : gmap Z nat) '(i, id) => <[ id := i ]> m) ∅
          (imap (fun i id => (i, id)) repos) in
  repos !! i = Some id ->
  id ∉ map (Fake.id sf) names ->
  foldl (FakeScan.fakeStep sf reposIdx) items names !! i = items !! i.
Proof.
  cbv zeta. intros Hi. revert items.
  induction names as [| name names IH]; intros items Hfresh; simpl; [reflexivity |].
  simpl in Hfresh. apply not_elem_of_cons in Hfresh as [Hne Hfresh].
  rewrite IH by exact Hfresh. unfold FakeScan.fakeStep.
  destruct (_ !! Fake.id sf name) as [idx |] eqn:Hidx; [| reflexivity].
  apply reposIdx_sound in Hidx.
  assert (idx <> i) by (intros ->; congruence).
  destruct (Fake.getIndexOptions sf name) as [opts [err |]];
    by rewrite list_lookup_insert_ne.
Qed.

(** The index map holds, for an ID, the last index at which it stands. *)
Lemma reposIdx_last (repos : list Z) (id : Z) (i : nat) :
  foldl (fun (m : gmap Z nat) '(i, id) => <[ id := i ]> m) ∅
        (imap (fun i id => (i, id)) repos) !! id = Some i
  <-> repos !! i = Some id
      /\ forall j, (i < j)%nat -> repos !! j <> Some id.
Proof.
  revert id i. induction repos as [| x repos IH] using rev_ind; intros id i.
  - simpl. rewrite lookup_empty. split; [done | by intros [? _]].
  - rewrite imap_app, foldl_app. simpl. rewrite Nat.add_0_r.
    destruct (decide (x = id)) as [-> | Hne].
    + rewrite lookup_insert_eq. split.
      * intros [= <-]. split.
        -- by rewrite lookup_app_r, Nat.sub_diag.
        -- intros j Hj. rewrite lookup_ge_None_2; [done |].
           rewrite length_app. simpl. lia.
      * intros [Hi Hlast]. f_equal.
        destruct (decide (i = length repos)) as [-> | Hi']; [reflexivity |].
        exfalso. apply (Hlast (length repos)).
        -- apply lookup_lt_Some in Hi. rewrite length_app in Hi. simpl in Hi. lia.
        -- by rewrite lookup_app_r, Nat.sub_diag.
    + rewrite lookup_insert_ne by done. rewrite IH. split.
      * intros [Hi Hlast]. split.
        -- by rewrite lookup_app_l by (by eapply lookup_lt_Some).
        -- intros j Hj. destruct (decide (j < length repos)%nat) as [Hlt | Hge].
           ++ rewrite lookup_app_l by exact Hlt. by apply Hlast.
           ++ rewrite lookup_app_r by lia.
              destruct (j - length repos)%nat as [| k]; simpl; [congruence | done].
      * intros [Hi Hlast].
        assert (Hlt : (i < length repos)%nat).
        { destruct (decide (i < length repos)%nat) as [Hlt | Hge]; [exact Hlt |].
          rewrite lookup_app_r in Hi by lia.
          destruct (i - length repos)%nat as [| k]; simpl in Hi; [congruence | done]. }
        rewrite lookup_app_l in Hi by exact Hlt. split; [exact Hi |].
        intros j Hj Hjid. apply (Hlast j Hj).
        by rewrite lookup_app_l by (by eapply lookup_lt_Some).
Qed.

Lemma fakeStep_eq (sf : Fake.sourcegraphFake) (reposIdx : gmap Z nat)
  (items : list indexOptionsItem) (name : string) :
  FakeScan.fakeStep sf reposIdx items name
  = match reposIdx !! Fake.id sf name with
    | Some idx => <[ idx := FakeScan.fakeItem sf name ]> items
    | None => items
    end.
Proof.
  unfold FakeScan.fakeStep, FakeScan.fakeItem.
  destruct (reposIdx !! Fake.id sf name); [| reflexivity].
  by destruct (Fake.getIndexOptions sf name) as [opts [err |]].
Qed.

Lemma fakeStep_length (sf : Fake.sourcegraphFake) (reposIdx : gmap Z nat)
  (names : list string) (items : list indexOptionsItem) :
  length (foldl (FakeScan.fakeStep sf reposIdx) items names) = length items.
Proof.
  revert items. induction names as [| name names IH]; intros items; simpl.
  - reflexivity.
  - rewrite IH, fakeStep_eq.
    destruct (reposIdx !! Fake.id sf name); [apply length_insert | reflexivity].
Qed.

(** After the loop over the directory an index holds the item of the last
    visited repository that the index map sends there, and what it held
    before when there is none. *)
Lemma fakeStep_lookup (sf : Fake.sourcegraphFake) (reposIdx : gmap Z nat)
  (names : list string) (items : list indexOptionsItem) (i : nat) :
  (i < length items)%nat ->
  foldl (FakeScan.fakeStep sf reposIdx) items names !! i
  = match last (filter (fun name => reposIdx !! Fake.id sf name = Some i) names) with
    | Some name => Some (FakeScan.fakeItem sf name)
    | None => items !! i
    end.
Proof.
  intros Hi. induction names as [| name names IH] using rev_ind.
  - reflexivity.
  - rewrite foldl_app, filter_app, last_app. simpl. rewrite fakeStep_eq.
    rewrite filter_cons, filter_nil.
    destruct (decide (reposIdx !! Fake.id sf name = Some i)) as [Hhere | Hnot].
    + simpl. rewrite Hhere.
      apply list_lookup_insert_eq. by rewrite fakeStep_length.
    + simpl. rewrite <- IH.
      destruct (reposIdx !! Fake.id sf name) as [idx |]; [| reflexivity].
      apply list_lookup_insert_ne. congruence.
Qed.

(** X10.  When the walk fails, the error of the walk is all the fake's
    [GetIndexOptions] returns.  When it succeeds there is one item for every
    requested ID, and the item at the index of an ID is: "not found" with
    the zero options when the same ID is requested again at a later index,
    or when the walk visits no repository with this ID; and otherwise the
    item of the last visited repository with this ID - its options, or the
    error of reading them without the options - marked "not found" when it
    has neither an error nor an ID.  So an item without an error has an ID
    that is not zero, and an item with an error has the ID zero: it cannot
    tell which repository failed. *)
Theorem fake_GetIndexOptions_items (sf : Fake.sourcegraphFake) (repos : list Z) :
  match (Fake.visitRepos sf).2 with
  | Some err => Fake.GetIndexOptions sf repos = Err err
  | None =>
      exists items,
        Fake.GetIndexOptions sf repos = Ok items
        /\ length items = length repos
        /\ Forall (fun item =>
                     (Error item = "" -> RepoID (Options item) <> 0)
                     /\ (Error item <> "" -> RepoID (Options item) = 0))
                  items
        /\ (forall i id,
              repos !! i = Some id ->
              ((exists j, (i < j)%nat /\ repos !! j = Some id) ->
               items !! i = Some FakeScan.notFound)
              /\ ((forall j, (i < j)%nat -> repos !! j <> Some id) ->
                  items !! i
                  = Some match last (filter (fun name => Fake.id sf name = id)
                                            (Fake.visitRepos sf).1) with
                         | Some name => FakeScan.marked (FakeScan.fakeItem sf name)
                         | None => FakeScan.notFound
                         end))
  end.
Proof.
  rewrite GetIndexOptions_steps. cbv zeta.
  destruct (Fake.visitRepos sf).2 as [err |]; [reflexivity |].
  set (reposIdx := foldl _ ∅ _).
  set (start := replicate (length repos) Fake.zeroItem).
  assert (Hstart : Forall (fun item => Error item <> "" ->
                                       Options item = zeroIndexOptions) start).
  { apply Forall_replicate. done. }
  destruct (fakeStep_items sf reposIdx (Fake.visitRepos sf).1 start Hstart)
    as [Hall Hlen].
  eexists. split; [reflexivity |]. split; [| split].
  - rewrite length_map, Hlen. apply length_replicate.
  - apply Forall_map. eapply Forall_impl; [exact Hall |].
    intros item Hitem. simpl.
    destruct (String.eqb_spec (Error item) "") as [Hnone | Hsome]; simpl.
    + destruct (Z.eqb_spec (RepoID (Options item)) 0) as [Hzero | Hid]; simpl.
      * split; [done | by intros _].
      * split; [by intros _ | done].
    + split; [done |]. intros _. by rewrite (Hitem Hsome).
  - intros i id Hi.
    assert (Hbound : (i < length start)%nat).
    { unfold start. rewrite length_replicate. by eapply lookup_lt_Some. }
    assert (Hzero : start !! i = Some Fake.zeroItem).
    { unfold start. apply lookup_replicate_2. by eapply lookup_lt_Some. }
    rewrite list_lookup_fmap, (fakeStep_lookup sf reposIdx _ start i Hbound).
    change (fun item => if String.eqb (Error item) "" && (RepoID (Options item) =? 0)
                        then {| Options := Options item; Error := "not found" |}
                        else item)
      with FakeScan.marked.
    split.
    + intros (j & Hj & Hlater).
      assert (Hnone : filter (fun name => reposIdx !! Fake.id sf name = Some i)
                             (Fake.visitRepos sf).1 = []).
      { clear Hall Hlen.
        induction (Fake.visitRepos sf).1 as [| name names IHnames];
          [reflexivity |].
        rewrite filter_cons_False; [exact IHnames |]. intros Hidx.
        apply reposIdx_last in Hidx as [Hname Hlast].
        apply (Hlast j Hj). congruence. }
      rewrite Hnone. simpl. by rewrite Hzero.
    + intros Hlast.
      assert (Hsame : filter (fun name => reposIdx !! Fake.id sf name = Some i)
                             (Fake.visitRepos sf).1
                      = filter (fun name => Fake.id sf name = id)
                               (Fake.visitRepos sf).1).
      { apply list_filter_iff. intros name. unfold reposIdx.
        rewrite reposIdx_last. split.
        - intros [Hname _]. congruence.
        - intros ->. by split. }
      rewrite Hsame.
      destruct (last _) as [name |]; simpl; [reflexivity |].
      by rewrite Hzero.
Qed.

Lemma fake_item_ids (sf : Fake.sourcegraphFake) (repos : list Z) :
  match Fake.GetIndexOptions sf repos with
  | Ok items =>
      Forall (fun item =>
                (Error item = "" -> RepoID (Options item) <> 0)
                /\ (Error item <> "" -> RepoID (Options item) = 0))
             items
  | Err _ => True
  end.
Proof.
  rewrite GetIndexOptions_steps. cbv zeta.
  destruct (Fake.visitRepos sf).2 as [err |]; [done |].
  set (reposIdx := foldl _ ∅ _).
  set (start := replicate (length repos) Fake.zeroItem).
  assert (Hstart : Forall (fun item => Error item <> "" ->
                                       Options item = zeroIndexOptions) start).
  { apply Forall_replicate. done. }
  destruct (fakeStep_items sf reposIdx (Fake.visitRepos sf).1 start Hstart)
    as [Hall _].
  apply Forall_map. eapply Forall_impl; [exact Hall |].
  intros item Hitem. simpl.
  destruct (String.eqb_spec (Error item) "") as [Hnone | Hsome]; simpl.
  - destruct (Z.eqb_spec (RepoID (Options item)) 0) as [Hzero | Hid]; simpl.
    + split; [done | by intros _].
    + split; [by intros _ | done].
  - split; [done |]. intros _. by rewrite (Hitem Hsome).
Qed.

(** X11.  The fake's forced run reports no failure of a single repository:
    when the walk succeeds, only [onSuccess] is called, once for every
    returned item without an error, in order, and a repository that is
    missing or whose branches do not resolve gets no callback at all; when
    the walk fails, [onError] is called once for every requested ID with
    the error of the walk. *)
Theorem fake_Force_callbacks (sf : Fake.sourcegraphFake) (repos : list Z) :
  Fake.ForceIterateIndexOptions sf recordSuccess recordError repos []
  = match Fake.GetIndexOptions sf repos with
    | Ok items =>
        map (fun item => OnSuccess (Options item))
            (filter (fun item => Error item = "") items)
    | Err err => map (fun id => OnError id err) repos
    end.
Proof.
  unfold Fake.ForceIterateIndexOptions.
  pose proof (fake_item_ids sf repos) as Hitems.
  destruct (Fake.GetIndexOptions sf repos) as [items | err].
  - rewrite forceItems_record. simpl.
    induction Hitems as [| item items [Hnone Hsome] _ IH]; [reflexivity |].
    simpl. rewrite filter_cons, IH. unfold itemCallbacks.
    destruct (String.eqb_spec (Error item) "") as [He | He].
    + by rewrite decide_True by exact He.
    + rewrite decide_False by exact He.
      rewrite (Hsome He). reflexivity.
  - unfold recordError. apply (foldl_append_map (fun id => OnError id err) repos []).
Qed.

(** The loop fills the array from the left when every visited repository
    is written at the index at which it was visited. *)
Lemma fakeStep_fill (sf : Fake.sourcegraphFake) (reposIdx : gmap Z nat)
  (item : string -> indexOptionsItem)
  (todo : list string) (filled rest : list indexOptionsItem) :
  length rest = length todo ->
  (forall k name items, todo !! k = Some name ->
     FakeScan.fakeStep sf reposIdx items name
     = <[ (length filled + k)%nat := item name ]> items) ->
  foldl (FakeScan.fakeStep sf reposIdx) (filled ++ rest) todo
  = filled ++ map item todo.
Proof.
  revert filled rest.
  induction todo as [| name todo IH]; intros filled rest Hlen Hstep; simpl.
  - destruct rest; [reflexivity | done].
  - destruct rest as [| old rest]; [done |].
    rewrite (Hstep 0%nat name) by reflexivity.
    rewrite Nat.add_0_r.
    replace (<[ length filled := item name ]> (filled ++ old :: rest))
      with ((filled ++ [item name]) ++ rest).
    + rewrite IH.
      * by rewrite <- app_assoc.
      * by injection Hlen.
      * intros k name' items Hk. rewrite (Hstep (S k) name') by exact Hk.
        f_equal. rewrite length_app. simpl. lia.
    + rewrite <- app_assoc. simpl.
      by rewrite insert_app_r_alt, Nat.sub_diag by lia.
Qed.

(** X12.  [List] on the fake followed by the closure it returns: when the
    walk succeeds, the visited repositories have IDs that differ from one
    another and from zero, and the branches of each resolve, [List] returns
    their IDs in the order of the walk and the closure hands the consumer
    the options of each of them, in that order. *)
Theorem fake_List_delivers (sf : Fake.sourcegraphFake) :
  let names := (Fake.visitRepos sf).1 in
  (Fake.visitRepos sf).2 = None ->
  NoDup (map (Fake.id sf) names) ->
  Forall (fun name => Fake.id sf name <> 0
                      /\ (Fake.getIndexOptions sf name).2 = None) names ->
  exists iterate,
    FakeScan.List sf = Ok (map (Fake.id sf) names, iterate)
    /\ iterate sf record []
       = map (fun name => (Fake.getIndexOptions sf name).1) names.
Proof.
  cbv zeta. intros Hwalk Hnodup Hnames.
  unfold FakeScan.List, FakeScan.ListRepoIDs. rewrite Hwalk.
  eexists. split; [reflexivity |]. simpl.
  unfold FakeScan.iterate. rewrite GetIndexOptions_steps. cbv zeta.
  rewrite Hwalk. set (reposIdx := foldl _ ∅ _).
  set (item := fun name => {| Options := (Fake.getIndexOptions sf name).1;
                              Error := "" |}).
  assert (Hfill : foldl (FakeScan.fakeStep sf reposIdx)
                    (replicate (length (map (Fake.id sf) (Fake.visitRepos sf).1))
                               Fake.zeroItem)
                    (Fake.visitRepos sf).1
                  = map item (Fake.visitRepos sf).1).
  { apply (fakeStep_fill sf reposIdx item (Fake.visitRepos sf).1 []).
    - by rewrite length_replicate, length_map.
    - intros k name items Hk. unfold FakeScan.fakeStep. simpl.
      assert (Hidx : reposIdx !! Fake.id sf name = Some k).
      { apply reposIdx_complete; [exact Hnodup |].
        by rewrite list_lookup_fmap, Hk. }
      rewrite Hidx.
      pose proof (proj1 (Forall_lookup _ _) Hnames k name Hk) as [_ Hok].
      unfold item.
      destruct (Fake.getIndexOptions sf name) as [opts [err |]]; [done |].
      reflexivity. }
  rewrite Hfill.
  change (foldl _ [] ?items) with (deliver record items []).
  rewrite deliver_record.
  match goal with
  | |- context [map ?mark (map item ?l)] =>
      assert (Hmark : map mark (map item l) = map item l)
  end.
  { rewrite map_map. apply map_ext_Forall.
    eapply Forall_impl; [exact Hnames |]. intros name [Hid _]. unfold item. simpl.
    assert (HID : RepoID (Fake.getIndexOptions sf name).1 = Fake.id sf name).
    { unfold Fake.getIndexOptions. by destruct (Fake.getBranches sf name). }
    rewrite HID. by destruct (Z.eqb_spec (Fake.id sf name) 0). }
  rewrite Hmark. simpl app.
  generalize (Fake.visitRepos sf).1. intros names.
  induction names as [| name names IH]; [reflexivity |].
  cbn [map]. rewrite filter_cons, decide_True by reflexivity.
  cbn [map]. by rewrite IH.
Qed.

Lemma fake_List_delivers_witness :
  exists iterate,
    FakeScan.List Fake.oneRepository = Ok ([3], iterate)
    /\ RepoID <$> iterate Fake.oneRepository record [] = [3].
Proof.
  destruct (fake_List_delivers Fake.oneRepository) as (iterate & HList & Hrun).
  - reflexivity.
  - apply NoDup_singleton.
  - repeat constructor. vm_compute. discriminate.
  - exists iterate. split; [exact HList |]. by rewrite Hrun.
Defined.

(** ** The fake: document ranks *)

Section FakeRanks.
Context `{Float64}.

Lemma ranks_scan (lines : list string) :
  let step := fun (st : outcome (option (gmap string Z) * Z * Z)) s =>
    match st with
    | Returns (paths, sum, count) =>
        let pathRanks := Split "009" s in
        match pathRanks !! 1%nat with
        | None => Panics "index out of range [1] with length 1"
        | Some field =>
            match strconv_ParseFloat field with
            | None => Returns (paths, sum, count)
            | Some rank =>
                match paths with
                | None => Panics "assignment to entry in nil map"
                | Some m =>
                    Returns (Some (<[ default "" (pathRanks !! 0%nat) := rank ]> m),
                             float_add sum rank, count + 1)
                end
            end
        end
    | _ => st
    end in
  (foldl step (Returns (None, 0, 0)) lines = Returns (None, 0, 0)
   /\ Forall skipped lines)
  \/ ((exists msg, foldl step (Returns (None, 0, 0)) lines = Panics msg)
      /\ Exists (fun s => ~ skipped s) lines).
Proof.
  cbv zeta. induction lines as [| s lines IH] using rev_ind.
  - left. by split.
  - rewrite foldl_app. simpl.
    destruct IH as [[-> Hall] | [[msg ->] Hbad]].
    + destruct (Split "009" s !! 1%nat) as [field |] eqn:Hfield.
      * destruct (strconv_ParseFloat field) as [rank |] eqn:Hrank.
        -- right. split; [by eexists |].
           apply Exists_app. right. constructor.
           intros (field' & Hfield' & Hnone). congruence.
        -- left. split; [reflexivity |].
           apply Forall_app. split; [exact Hall |].
           constructor; [| constructor]. by exists field.
      * right. split; [by eexists |].
        apply Exists_app. right. constructor.
        intros (field' & Hfield' & _). congruence.
    + right. split; [by exists msg |]. apply Exists_app. by left.
Qed.

(** X13.  The fake's [GetDocumentRanks] cannot return a rank: its ranks
    start with a nil map.  It returns exactly when the file opens, scans
    without an error and every line has a second field that is not a
    number, and then the ranks have no paths and the mean rank is 0.0
    divided by 0; it panics exactly when the file opens and has a line with
    a number in the second field, or a line without a tab; otherwise it
    fails with the error of opening or of scanning. *)
Theorem fake_GetDocumentRanks (file : result (list string * option error)) :
  match FakeScan.GetDocumentRanks file with
  | Returns ranks =>
      Paths ranks = None
      /\ MeanRank ranks = float_div 0 (float_of_int 0)
      /\ exists lines, file = Ok (lines, None) /\ Forall skipped lines
  | Panics _ =>
      exists lines scanErr,
        file = Ok (lines, scanErr) /\ Exists (fun s => ~ skipped s) lines
  | Fails err =>
      file = Err err
      \/ exists lines, file = Ok (lines, Some err) /\ Forall skipped lines
  end.
Proof.
  unfold FakeScan.GetDocumentRanks.
  destruct file as [[lines scanErr] | err]; [| by left].
  pose proof (ranks_scan lines) as Hscan. cbv zeta in Hscan.
  destruct Hscan as [[-> Hall] | [[msg ->] Hbad]].
  - destruct scanErr as [err |].
    + right. by exists lines.
    + simpl. split; [reflexivity |]. split; [reflexivity |]. by exists lines.
  - by exists lines, scanErr.
Qed.

End FakeRanks.

Lemma fake_GetIndexOptions_items_witness :
  exists items,
    Fake.GetIndexOptions Fake.oneRepository [3; 7; 3] = Ok items
    /\ items !! 0%nat = Some FakeScan.notFound
    /\ items !! 1%nat = Some FakeScan.notFound
    /\ (RepoID <$> (Options <$> items !! 2%nat)) = Some 3.
Proof.
  pose proof (fake_GetIndexOptions_items Fake.oneRepository [3; 7; 3]) as Hitems.
  assert (Hwalk : (Fake.visitRepos Fake.oneRepository).2 = None) by reflexivity.
  rewrite Hwalk in Hitems.
  destruct Hitems as (items & Hcall & _ & _ & Hat).
  exists items. split; [exact Hcall |]. split; [| split].
  - apply (proj1 (Hat 0%nat 3 eq_refl)). exists 2%nat. split; [lia | reflexivity].
  - rewrite (proj2 (Hat 1%nat 7 eq_refl)); [reflexivity |].
    intros [| [| [| j]]] Hj; simpl; (lia || discriminate).
  - rewrite (proj2 (Hat 2%nat 3 eq_refl)); [reflexivity |].
    intros [| [| [| j]]] Hj; simpl; (lia || discriminate).
Defined.

(** ** Lists of floats *)

Lemma Split_parts (sep : ascii) (s : string) : Split sep s <> [].
Proof.
  destruct s as [| c s]; simpl; [done |].
  destruct (Ascii.eqb c sep); [done |]. by destruct (Split sep s).
Qed.

Lemma floats64_parts_spec `{Float64} (parts : list string) (r : list Z) :
  match floats64_parts parts (Some r) with
  | Some floats =>
      exists rest, floats = r ++ rest
                   /\ Forall2 (fun part f => strconv_ParseFloat part = Some f)
                              parts rest
  | None => Exists (fun part => strconv_ParseFloat part = None) parts
  end.
Proof.
  revert r. induction parts as [| part parts IH]; intros r; simpl.
  - exists []. split; [by rewrite app_nil_r | constructor].
  - destruct (strconv_ParseFloat part) as [f |] eqn:Hpart; [| by left].
    specialize (IH (r ++ [f])). simpl.
    destruct (floats64_parts parts (Some (r ++ [f]))) as [floats |].
    + destruct IH as (rest & -> & Hrest). exists (f :: rest).
      split; [by rewrite <- app_assoc | by constructor].
    + by right.
Qed.

(** X24.  [floats64] returns nil exactly when one of the parts between the
    commas is not a number, and otherwise the numbers of all parts in
    order; the slice it then returns is never empty, as there is always a
    part. *)
Theorem floats64_parses `{Float64} (s : string) :
  match floats64 s with
  | Some floats =>
      floats <> []
      /\ Forall2 (fun part f => strconv_ParseFloat part = Some f)
                 (Split "," s) floats
  | None => Exists (fun part => strconv_ParseFloat part = None) (Split "," s)
  end.
Proof.
  unfold floats64. pose proof (Split_parts "," s) as Hparts.
  destruct (Split "," s) as [| part parts]; [done |]. simpl.
  destruct (strconv_ParseFloat part) as [f |] eqn:Hpart; [| by left].
  pose proof (floats64_parts_spec parts [f]) as Hrest. simpl.
  destruct (floats64_parts parts (Some [f])) as [floats |].
  - destruct Hrest as (rest & -> & Hrest). split; [done |]. by constructor.
  - by right.
Qed.

(** ** Every HTTP request is made as the internal user *)

Section Internal.
Context {W : Type} `{!GoEnv W} `{!GoArch} `{!StatusEnv} `{!MapRange}.

Lemma doRequest_internal (s : sourcegraphClient W) (I : W -> Prop)
  (req : http.Request) (w : W) :
  keptOnInternal s I -> I w -> I (doRequest s req w).2.
Proof.
  intros Hkept Hw. unfold doRequest. apply Hkept; [| exact Hw].
  unfold asInternal, http.GetHeader, http.SetHeader. simpl.
  by rewrite lookup_insert_eq.
Qed.

(** X23.  The client reaches its HTTP peer through [doRequest] only, which
    marks every request as made by the internal user: a property of the
    world that the peer keeps on such requests is kept by [get], by the
    document ranks, index status, index options and repository list calls
    over REST, and by [UpdateIndexStatus] and [GetDocumentRanks] when gRPC
    is off. *)
Theorem rest_requests_internal (s : sourcegraphClient W) (I : W -> Prop) (w : W)
  (u repoName fingerprint : string) (r : status.updateIndexStatusRequest)
  (repos indexed : list Z)
  (rpcStatus : protoStatus.UpdateIndexStatusRequest -> W -> result unit * W)
  (rpcRanks : string -> W -> result protoStatus.DocumentRanksResponse * W) :
  keptOnInternal s I ->
  I w ->
  I (get s u w).2
  /\ I (getDocumentRanksREST s repoName w).2
  /\ I (updateIndexStatusREST s r w).2
  /\ I (getIndexOptionsREST s fingerprint repos w).2
  /\ I (listRepoIDsREST s indexed w).2
  /\ (useGRPC s = false ->
      I (UpdateIndexStatus rpcStatus s (status.Repositories r) w).2
      /\ I (GetDocumentRanks rpcRanks s repoName w).2).
Proof.
  intros Hkept Hw.
  assert (Hget : forall u, I (get s u w).2).
  { intros u'. unfold get.
    destruct (retryablehttp_NewRequest _ _ _) as [req | err]; [| exact Hw].
    pose proof (doRequest_internal s I req w Hkept Hw) as Hdo.
    destruct (doRequest s req w) as [[resp | err] w1]; [| exact Hdo].
    simpl in Hdo. destruct (negb _); [| exact Hdo].
    by destruct (http.ReadAllLimit _ _). }
  assert (Hranks : I (getDocumentRanksREST s repoName w).2).
  { unfold getDocumentRanksREST.
    match goal with
    | |- context [get s ?u' w] =>
        pose proof (Hget u') as Hu; destruct (get s u' w) as [[b | err] w1]
    end; [| exact Hu].
    by destruct (json_Unmarshal_ranks b). }
  assert (Hstatus : forall r, I (updateIndexStatusREST s r w).2).
  { intros r'. unfold updateIndexStatusREST.
    destruct (json_Marshal_indexStatus r') as [payload | err]; [| exact Hw].
    destruct (retryablehttp_NewRequest _ _ _) as [req | err]; [| exact Hw].
    match goal with
    | |- context [doRequest s ?req' w] =>
        pose proof (doRequest_internal s I req' w Hkept Hw) as Hdo;
        destruct (doRequest s req' w) as [[resp | err] w1]
    end; [| exact Hdo].
    by destruct (negb _). }
  split; [apply Hget |]. split; [exact Hranks |]. split; [apply Hstatus |].
  split; [| split].
  - unfold getIndexOptionsREST.
    destruct (retryablehttp_NewRequest _ _ _) as [req | err]; [| exact Hw].
    match goal with
    | |- context [doRequest s ?req' w] =>
        pose proof (doRequest_internal s I req' w Hkept Hw) as Hdo;
        destruct (doRequest s req' w) as [[resp | err] w1]
    end; [| exact Hdo].
    simpl in Hdo. destruct (negb _).
    + by destruct (http.ReadAllLimit _ _).
    + by destruct (decodeItems _ _ _).
  - unfold listRepoIDsREST.
    destruct (json_Marshal_listRequest _ _) as [body | err]; [| exact Hw].
    destruct (retryablehttp_NewRequest _ _ _) as [req | err]; [| exact Hw].
    match goal with
    | |- context [doRequest s ?req' w] =>
        pose proof (doRequest_internal s I req' w Hkept Hw) as Hdo;
        destruct (doRequest s req' w) as [[resp | err] w1]
    end; [| exact Hdo].
    by destruct (negb _).
  - intros Hrest. unfold UpdateIndexStatus, GetDocumentRanks. rewrite Hrest.
    split; [| exact Hranks]. apply Hstatus.
Qed.

End Internal.

Lemma rest_requests_internal_witness :
  let s := Scripted.client 2 in
  let w := Scripted.world Scripted.bothBatchesAnswer [] 0 in
  Forall asInternal
    (Scripted.received
       (updateIndexStatusREST s {| status.Repositories := None |} w).2).
Proof.
  cbv zeta.
  assert (Hkept : keptOnInternal (Scripted.client 2)
                    (fun w => Forall asInternal (Scripted.received w))).
  { intros req w Hreq Hw. simpl. unfold Scripted.Do.
    destruct (Scripted.answers w); simpl;
      (apply Forall_app; split; [exact Hw | by constructor]). }
  destruct (rest_requests_internal (Scripted.client 2)
              (fun w => Forall asInternal (Scripted.received w))
              (Scripted.world Scripted.bothBatchesAnswer [] 0)
              "" "" "" {| status.Repositories := None |} [] []
              (fun _ w => (Ok tt, w))
              (fun _ w => (Err "unavailable", w))
              Hkept (Forall_nil_2 _))
    as (_ & _ & Hstatus & _).
  exact Hstatus.
Defined.

(** * The search types on the wire *)

(** ** Slices and integers *)

Lemma fill_from {A B} (zero : B) (f : A -> B) (src : list A) (done : list B) :
  foldl (fun dst '(i, x) => <[ i := f x ]> dst)
        (done ++ replicate (length src) zero)
        (imap (fun i x => (length done + i, x)%nat) src)
  = done ++ map f src.
Proof.
  revert done. induction src as [| x src IH]; intros done; simpl.
  - reflexivity.
  - rewrite Nat.add_0_r, insert_app_r_alt, Nat.sub_diag by lia. simpl.
    transitivity ((done ++ [f x]) ++ map f src); [| by rewrite <- app_assoc].
    rewrite <- (IH (done ++ [f x])), <- app_assoc. simpl. f_equal.
    apply imap_ext. intros i y _. simpl.
    rewrite length_app. simpl. f_equal. lia.
Qed.

(** Filling a made slice index by index is mapping. *)
Lemma fill_map {A B} (zero : B) (f : A -> B) (src : list A) :
  fill zero f src = map f src.
Proof. apply (fill_from zero f src []). Qed.

Section Ints.
Context `{GoArch}.

Lemma intBits_pow : 2^intBits = 2 * 2^(intBits - 1) /\ 0 < 2^(intBits - 1) <= 2^63.
Proof. destruct intBits_cases as [-> | ->]; simpl; lia. Qed.

(** An int that is widened to int64 and narrowed again is itself. *)
Lemma Go_int_int64 (x : Z) : isInt x -> Go_int (GoInt.int64 x) = x.
Proof.
  unfold isInt, Go_int. intros Hx. pose proof intBits_pow as [Hpow Hle].
  rewrite int64_small by lia. rewrite Hpow, Z.mod_small by lia. lia.
Qed.

Lemma Go_int_range (x : Z) : isInt (Go_int x).
Proof.
  unfold isInt, Go_int. pose proof intBits_pow as [Hpow Hle].
  pose proof (Z.mod_pos_bound (x + 2^(intBits - 1)) (2^intBits)). lia.
Qed.

End Ints.

(** ** Matches *)

Section Matches.
Context `{GoArch}.

Lemma Location_roundtrip (l : api.Location.t) :
  LocationFromProto (Some (Location_ToProto l)) = l.
Proof. by destruct l. Qed.

Lemma Range_roundtrip (r : api.Range.t) :
  RangeFromProto (Some (Range_ToProto r)) = r.
Proof. destruct r as [[] []]. reflexivity. Qed.

Lemma Symbol_roundtrip (s : option api.Symbol.t) :
  SymbolFromProto (Symbol_ToProto s) = s.
Proof. by destruct s as [[] |]. Qed.

Lemma LineFragmentMatch_roundtrip (lfm : api.LineFragmentMatch.t) :
  LineFragmentMatch_ints lfm ->
  LineFragmentMatchFromProto (Some (LineFragmentMatch_ToProto lfm)) = lfm.
Proof.
  intros [Hoff Hlen]. destruct lfm as [off offset len sym].
  unfold LineFragmentMatchFromProto, LineFragmentMatch_ToProto. simpl in *.
  by rewrite !Go_int_int64, Symbol_roundtrip.
Qed.

Lemma LineMatch_roundtrip (lm : api.LineMatch.t) :
  LineMatch_ints lm ->
  LineMatchFromProto (Some (LineMatch_ToProto lm)) = LineMatch_made lm.
Proof.
  intros (Hstart & Hend & Hnum & Hfrags).
  unfold LineMatchFromProto, LineMatch_ToProto, LineMatch_made, made. simpl.
  rewrite !Go_int_int64 by assumption. f_equal.
  rewrite !fill_map, map_map. f_equal.
  rewrite <- (map_id (elems _)) at 2.
  apply map_ext_Forall. eapply Forall_impl; [exact Hfrags |].
  intros lfm Hlfm. by apply LineFragmentMatch_roundtrip.
Qed.

Lemma ChunkMatch_roundtrip (cm : api.ChunkMatch.t) :
  ChunkMatchFromProto (Some (ChunkMatch_ToProto cm)) = ChunkMatch_made cm.
Proof.
  unfold ChunkMatchFromProto, ChunkMatch_ToProto, ChunkMatch_made, made. simpl.
  rewrite Location_roundtrip, !fill_map, !map_map. f_equal.
  - f_equal. rewrite <- (map_id (elems _)) at 2.
    apply map_ext. intros r. apply Range_roundtrip.
  - f_equal. rewrite <- (map_id (elems _)) at 2.
    apply map_ext. intros s. apply Symbol_roundtrip.
Qed.

Lemma FileMatch_back (m : api.FileMatch.t) :
  FileMatch_ints m ->
  FileMatchFromProto (Some (FileMatch_ToProto m)) = FileMatch_made m.
Proof.
  intros Hints.
  unfold FileMatchFromProto, FileMatch_ToProto, FileMatch_made. simpl.
  rewrite !fill_map, !map_map. f_equal.
  - f_equal. apply map_ext_Forall. eapply Forall_impl; [exact Hints |].
    intros lm Hlm. by apply LineMatch_roundtrip.
  - f_equal. apply map_ext. intros cm. apply ChunkMatch_roundtrip.
Qed.

(** X14.  A file match that goes to the wire and back keeps every field,
    on both widths of int, but its slices come back made: [LineMatches] and
    [ChunkMatches], the [LineFragments] of every line match and the [Ranges]
    and [SymbolInfo] of every chunk match are empty where they were nil.  A
    nil symbol stays nil.  So a file match without nil slices comes back as
    it was. *)
Theorem FileMatch_roundtrip (m : api.FileMatch.t) :
  FileMatch_ints m ->
  FileMatchFromProto (Some (FileMatch_ToProto m)) = FileMatch_made m
  /\ (FileMatch_made m = m <->
      api.FileMatch.LineMatches m <> None
      /\ api.FileMatch.ChunkMatches m <> None
      /\ Forall (fun lm => api.LineMatch.LineFragments lm <> None)
                (elems (api.FileMatch.LineMatches m))
      /\ Forall (fun cm => api.ChunkMatch.Ranges cm <> None
                           /\ api.ChunkMatch.SymbolInfo cm <> None)
                (elems (api.FileMatch.ChunkMatches m))).
Proof.
  intros Hints. split; [by apply FileMatch_back |].
  - assert (Hlm : forall lms : list api.LineMatch.t,
               map LineMatch_made lms = lms
               <-> Forall (fun lm => api.LineMatch.LineFragments lm <> None) lms).
    { induction lms as [| lm lms IH]; simpl; [by split |].
      split.
      - intros [= Hhead Htail]. constructor; [| by apply IH].
        destruct lm as [? ? ? ? ? ? ? ? ? [frags |]]; [done | discriminate Hhead].
      - intros Hall. apply Forall_cons in Hall as [Hhead Htail].
        f_equal; [| by apply IH].
        by destruct lm as [? ? ? ? ? ? ? ? ? [frags |]]. }
    assert (Hcm : forall cms : list api.ChunkMatch.t,
               map ChunkMatch_made cms = cms
               <-> Forall (fun cm => api.ChunkMatch.Ranges cm <> None
                                     /\ api.ChunkMatch.SymbolInfo cm <> None) cms).
    { induction cms as [| cm cms IH]; simpl; [by split |].
      split.
      - intros [= Hhead Htail]. constructor; [| by apply IH].
        destruct cm as [? ? ? [ranges |] [syms |] ? ?];
          [done | discriminate Hhead .. ].
      - intros Hall. apply Forall_cons in Hall as [[Hr Hs] Htail].
        f_equal; [| by apply IH].
        by destruct cm as [? ? ? [ranges |] [syms |] ? ?]. }
    destruct m as [? ? ? ? ? lms cms ? ? ? ? ? ? ? ?].
    unfold FileMatch_made. simpl. split.
    + intros [= Hl Hc]. destruct lms as [lms |]; [| discriminate Hl].
      destruct cms as [cms |]; [| discriminate Hc].
      simpl in *. injection Hl as Hl. injection Hc as Hc.
      split; [done |]. split; [done |].
      split; [by apply Hlm | by apply Hcm].
    + intros (Hl & Hc & Hlf & Hcf).
      destruct lms as [lms |]; [| done]. destruct cms as [cms |]; [| done].
      simpl in *. apply Hlm in Hlf. apply Hcm in Hcf. by rewrite Hlf, Hcf.
Qed.

End Matches.

Lemma FileMatch_roundtrip_witness :
  FileMatchFromProto (Some (FileMatch_ToProto Runtime.oneLine))
  = FileMatch_made Runtime.oneLine.
Proof.
  apply (proj1 (FileMatch_roundtrip Runtime.oneLine
                  ltac:(repeat constructor; unfold isInt; simpl; lia))).
Defined.

(** ** Flush reasons and statistics *)

(** Runs a switch whose cases the context decides. *)
Ltac switch :=
  repeat match goal with
         | |- context [decide (?a = ?b)] =>
             first [ rewrite (decide_True (P := a = b)) by (intuition congruence)
                   | rewrite (decide_False (P := a = b)) by (intuition congruence) ]
         end.

Section Statistics.
Context `{GoArch} `{WellKnown} `{Enums}.

Lemma NoDup3 {A} (a b c : A) : NoDup [a; b; c] -> a <> b /\ a <> c /\ b <> c.
Proof.
  intros Hnd. apply NoDup_cons in Hnd as [Ha Hnd].
  apply NoDup_cons in Hnd as [Hb _].
  rewrite !elem_of_cons, elem_of_nil in Ha.
  rewrite elem_of_cons, elem_of_nil in Hb. tauto.
Qed.

Lemma NoDup4 {A} (a b c d : A) :
  NoDup [a; b; c; d] -> a <> b /\ a <> c /\ a <> d /\ b <> c /\ b <> d /\ c <> d.
Proof.
  intros Hnd. apply NoDup_cons in Hnd as [Ha Hnd]. apply NoDup3 in Hnd.
  rewrite !elem_of_cons, elem_of_nil in Ha. tauto.
Qed.

Lemma FlushReason_named (fr : Z) :
  namedFlushReason fr ->
  FlushReasonFromProto (FlushReason_ToProto fr) = fr.
Proof.
  unfold namedFlushReason.
  pose proof (NoDup3 _ _ _ FlushReason_cases) as Hgo.
  pose proof (NoDup4 _ _ _ _ v1_FlushReason_cases) as Hv1.
  rewrite !elem_of_cons, elem_of_nil. intros Hfr.
  destruct Hfr as [-> | [-> | [-> | []]]];
    unfold FlushReason_ToProto; switch;
    unfold FlushReasonFromProto; switch; reflexivity.
Qed.

Lemma FlushReason_unnamed (fr : Z) :
  ~ namedFlushReason fr ->
  FlushReasonFromProto (FlushReason_ToProto fr) = 0.
Proof.
  unfold namedFlushReason.
  pose proof (NoDup4 _ _ _ _ v1_FlushReason_cases) as Hv1.
  rewrite !elem_of_cons, elem_of_nil. intros Hfr.
  unfold FlushReason_ToProto; switch;
    unfold FlushReasonFromProto; switch; reflexivity.
Qed.

(** X15.  The two switches over the flush reasons: a named reason goes to
    the wire and back unchanged, every other reason comes back as 0.  Every
    reason that [Generate] draws comes back unchanged. *)
Theorem FlushReason_roundtrip (fr draw : Z) :
  FlushReasonFromProto (FlushReason_ToProto fr)
  = (if decide (namedFlushReason fr) then fr else 0)
  /\ FlushReasonFromProto (FlushReason_ToProto (FlushReason_Generate draw))
     = FlushReason_Generate draw.
Proof.
  split.
  - case_decide; [by apply FlushReason_named | by apply FlushReason_unnamed].
  - assert (Hzero : FlushReasonFromProto (FlushReason_ToProto 0) = 0).
    { destruct (decide (namedFlushReason 0));
        [by apply FlushReason_named | by apply FlushReason_unnamed]. }
    unfold FlushReason_Generate.
    repeat case_match; try exact Hzero;
      apply FlushReason_named; unfold namedFlushReason;
      rewrite !elem_of_cons; tauto.
Qed.

Lemma Stats_back (s : api.Stats.t) :
  Stats_ints s -> StatsFromProto (Some (Stats_ToProto s)) = Stats_flushed s.
Proof.
  intros [Hints Hdurations].
  rewrite !Forall_cons in Hints. rewrite !Forall_cons in Hdurations.
  destruct Hints as (? & ? & ? & ? & ? & ? & ? & ? & ? & ? & ? & ? & _).
  destruct Hdurations as (? & ? & _).
  unfold StatsFromProto, Stats_ToProto, Stats_flushed. simpl.
  by rewrite !Go_int_int64, !AsDuration_New by assumption.
Qed.

(** X16.  Statistics that go to the wire and back keep every count and both
    durations, on both widths of int; the flush reason is kept when it is
    one of the three named ones or 0, and comes back as 0 otherwise. *)
Theorem Stats_roundtrip (s : api.Stats.t) :
  Stats_ints s ->
  StatsFromProto (Some (Stats_ToProto s)) = Stats_flushed s
  /\ (namedFlushReason (api.Stats.FlushReason s) \/ api.Stats.FlushReason s = 0 ->
      Stats_flushed s = s)
  /\ (~ namedFlushReason (api.Stats.FlushReason s) ->
      api.Stats.FlushReason (Stats_flushed s) = 0).
Proof.
  intros Hints. split; [by apply Stats_back | split].
  - intros Hfr. unfold Stats_flushed. destruct s. simpl in *. f_equal.
    destruct Hfr as [Hnamed | ->].
    + by apply FlushReason_named.
    + destruct (decide (namedFlushReason 0));
        [by apply FlushReason_named | by apply FlushReason_unnamed].
  - intros Hfr. simpl. by apply FlushReason_unnamed.
Qed.

(** X17.  A search result that goes to the wire and back: nil stays nil;
    otherwise the progress and the two maps come back as they were, the
    statistics with every count and duration kept and the flush reason as
    the two switches leave it, and every file with its slices made, in a
    slice that is never nil. *)
Theorem SearchResult_roundtrip (sr : option api.SearchResult.t) :
  from_option SearchResult_ints True sr ->
  SearchResultFromProto (SearchResult_ToProto sr) = SearchResult_made <$> sr.
Proof.
  destruct sr as [sr |]; [| reflexivity]. simpl. intros [Hstats Hfiles].
  unfold SearchResult_made. simpl. f_equal.
  rewrite (Stats_back _ Hstats).
  destruct (api.SearchResult.Progress sr) eqn:Hprogress.
  unfold ProgressFromProto, Progress_ToProto. simpl. f_equal.
  f_equal. rewrite !fill_map, map_map.
  apply map_ext_Forall. eapply Forall_impl; [exact Hfiles |].
  intros m Hm. by apply FileMatch_back.
Qed.

End Statistics.

Lemma Stats_roundtrip_witness :
  api.Stats.FlushReason
    (StatsFromProto (Some (Stats_ToProto Runtime.flushedForNoReason))) = 0.
Proof.
  assert (Hints : Stats_ints Runtime.flushedForNoReason).
  { split; repeat constructor; unfold isInt; simpl; lia. }
  destruct (Stats_roundtrip Runtime.flushedForNoReason Hints)
    as (Hback & _ & Hzero).
  rewrite Hback. apply Hzero.
  unfold namedFlushReason. simpl. rewrite !elem_of_cons, elem_of_nil. lia.
Defined.

Lemma SearchResult_roundtrip_witness :
  let sr := {| api.SearchResult.Stats := Runtime.flushedForNoReason;
               api.SearchResult.Progress := api.Progress.mk 0 0;
               api.SearchResult.Files := Some [Runtime.oneLine];
               api.SearchResult.RepoURLs := None;
               api.SearchResult.LineFragments := None |} in
  SearchResultFromProto (SearchResult_ToProto (Some sr))
  = Some (SearchResult_made sr).
Proof.
  cbv zeta. apply (SearchResult_roundtrip (Some _)).
  split; [split |]; repeat constructor; unfold isInt; simpl; lia.
Defined.

(** ** Ranging over maps *)

Lemma foldl_insert_pairs `{Countable K} {V V'} (f : V -> V')
  (l : list (K * V)) (acc : gmap K V') :
  foldl (fun acc '(k, v) => <[ k := f v ]> acc) acc l
  = list_to_map (reverse (prod_map id f <$> l)) ∪ acc.
Proof.
  revert acc. induction l as [| [k v] l IH]; intros acc; simpl.
  - by rewrite (left_id_L ∅ (∪)).
  - rewrite IH, reverse_cons, list_to_map_app, <- (assoc_L (∪)).
    f_equal. simpl.
    by rewrite (insert_union_singleton_l acc), insert_empty.
Qed.

(** A loop that ranges over a map and assigns every converted entry to a
    fresh map computes the map of the conversions, in every order. *)
Lemma range_fmap `{Countable K} {V V'} (f : V -> V')
  (l : list (K * V)) (m : gmap K V) :
  l ≡ₚ map_to_list m ->
  foldl (fun acc '(k, v) => <[ k := f v ]> acc) ∅ l = f <$> m.
Proof.
  intros Hperm. rewrite foldl_insert_pairs, (right_id_L ∅ (∪)).
  rewrite <- (list_to_map_to_list m) at 1. rewrite <- list_to_map_fmap.
  apply list_to_map_proper.
  - rewrite reverse_Permutation, Hperm.
    rewrite <- map_to_list_fmap. apply NoDup_fst_map_to_list.
  - by rewrite reverse_Permutation, Hperm.
Qed.

Lemma rangeOver_fmap `{RangeOrder} `{Countable K} {V V'} (f : V -> V')
  (m : gmap K V) :
  foldl (fun acc '(k, v) => <[ k := f v ]> acc) ∅ (rangeOver m) = f <$> m.
Proof. apply range_fmap, rangeOver_perm. Qed.

(** A set that is listed in any order and collected again is the set. *)
Lemma tombstones_roundtrip `{RangeOrder} (m : gmap string unit) :
  foldl (fun (acc : gmap string unit) file => <[ file := tt ]> acc) ∅
        (foldl (fun acc '(file, _) => acc ++ [file]) [] (rangeOver m))
  = m.
Proof.
  rewrite (foldl_append_map_pair (fun (file : string) (_ : unit) => file)).
  simpl app. transitivity ((fun _ : unit => tt) <$> m).
  - rewrite <- (rangeOver_fmap (fun _ : unit => tt) m).
    generalize (∅ : gmap string unit).
    induction (rangeOver m) as [| [k v] l IH]; intros acc; simpl; [reflexivity |].
    apply IH.
  - apply map_eq. intros k. rewrite lookup_fmap.
    by destruct (m !! k) as [[] |].
Qed.

(** ** Repositories *)

Section RepositoryProperties.
Context `{GoArch} `{WellKnown} `{Enums} `{MapRange} `{RangeOrder}.

Lemma RepositoryFromProto'_eq (p : v1.Repository.t) :
  RepositoryFromProto' p
  = RepositoryFromProto_fields (Some p)
      ((fun repo => Some (RepositoryFromProto repo))
       <$> default ∅ (v1.Repository.SubRepoMap p)).
Proof.
  destruct p as [? ? ? ? ? [m |] ? ? ? ? ? ? ? ? ? ? ?]; simpl.
  - reflexivity.
  - by rewrite fmap_empty.
Qed.

Lemma Repository_ToProto'_eq (r : api.Repository.t) :
  Repository_ToProto' r
  = Repository_ToProto_fields r
      (Repository_ToProto <$> default ∅ (api.Repository.SubRepoMap r)).
Proof.
  destruct r as [? ? ? ? ? [m |] ? ? ? ? ? ? ? ? ? ? ?]; simpl.
  - reflexivity.
  - by rewrite fmap_empty.
Qed.

Lemma Repository_made_eq (r : api.Repository.t) :
  Repository_made r
  = Repository_made_fields r
      ((fun repo => Some (from_option Repository_made emptyRepository repo))
       <$> default ∅ (api.Repository.SubRepoMap r)).
Proof.
  destruct r as [? ? ? ? ? [m |] ? ? ? ? ? ? ? ? ? ? ?]; simpl.
  - reflexivity.
  - by rewrite fmap_empty.
Qed.

(** The recursive functions satisfy the equations of the source, with the
    loops over the sub-repositories as they are written. *)
Lemma RepositoryFromProto_unfold (p : option v1.Repository.t) :
  RepositoryFromProto p = RepositoryFromProto_body RepositoryFromProto p.
Proof.
  unfold RepositoryFromProto_body. rewrite rangeOver_fmap.
  destruct p as [p |]; simpl.
  - apply RepositoryFromProto'_eq.
  - by rewrite fmap_empty.
Qed.

Lemma Repository_ToProto_unfold (r : option api.Repository.t) :
  Repository_ToProto r = Repository_ToProto_body Repository_ToProto r.
Proof.
  destruct r as [r |]; simpl; [| reflexivity].
  by rewrite rangeOver_fmap, Repository_ToProto'_eq.
Qed.

Lemma RepositoryBranch_roundtrip (b : zoekt.RepositoryBranch) :
  RepositoryBranchFromProto (Some (RepositoryBranch_ToProto b)) = b.
Proof. by destruct b. Qed.

Lemma branches_roundtrip (branches : list zoekt.RepositoryBranch) :
  fill zeroBranch RepositoryBranchFromProto
       (fill None (fun branch => Some (RepositoryBranch_ToProto branch)) branches)
  = branches.
Proof.
  rewrite !fill_map, map_map. rewrite <- (map_id branches) at 2.
  apply map_ext. intros b. apply RepositoryBranch_roundtrip.
Qed.

Lemma uint16_uint32 (x : Z) : uint16 (GoInt.uint32 x) = uint16 x.
Proof.
  unfold uint16, GoInt.uint32.
  rewrite (Z.mod_eq x (2^32)) by lia.
  replace (x - 2^32 * (x / 2^32)) with (x + (- (x / 2^32) * 2^16) * 2^16) by lia.
  apply Z.mod_add. lia.
Qed.

(** A sub-repository is less deep than the repository. *)
Lemma depth_sub (r q : api.Repository.t)
  (m : gmap string (option api.Repository.t)) (name : string) :
  api.Repository.SubRepoMap r = Some m ->
  m !! name = Some (Some q) ->
  (depth q < depth r)%nat.
Proof.
  intros Hm Hq. destruct r as [? ? ? ? ? sub ? ? ? ? ? ? ? ? ? ? ?].
  simpl in Hm. subst sub. simpl.
  apply Nat.lt_succ_r.
  revert Hq.
  induction m as [| k repo m Hfresh Hfold IH] using map_first_key_ind.
  - by rewrite lookup_empty.
  - rewrite map_fold_insert_first_key by assumption.
    destruct (decide (k = name)) as [-> | Hne].
    + rewrite lookup_insert_eq. intros [= ->]. lia.
    + rewrite lookup_insert_ne by exact Hne. intros Hq.
      specialize (IH Hq). lia.
Qed.

Lemma Repository_back (n : nat) (r : api.Repository.t) :
  (depth r < n)%nat ->
  RepositoryFromProto' (Repository_ToProto' r) = Repository_made r.
Proof.
  revert r. induction n as [| n IH]; intros r Hdepth; [lia |].
  rewrite RepositoryFromProto'_eq, Repository_ToProto'_eq, Repository_made_eq.
  unfold RepositoryFromProto_fields, Repository_ToProto_fields,
    Repository_made_fields, made.
  simpl. rewrite branches_roundtrip, tombstones_roundtrip, uint16_uint32.
  f_equal. f_equal. rewrite <- map_fmap_compose.
  apply map_fmap_ext. intros name repo Hrepo. simpl. f_equal.
  destruct repo as [q |]; simpl; [| reflexivity].
  apply IH.
  destruct (api.Repository.SubRepoMap r) as [m |] eqn:Hm; simpl in Hrepo.
  - pose proof (depth_sub r q m name Hm Hrepo). lia.
  - by rewrite lookup_empty in Hrepo.
Qed.

(** X18.  A repository that goes to the wire and back, whatever the order in
    which the runtime ranges over its maps: nil stays nil on the way out and
    comes back as the empty repository, and so does every nil sub-repository
    at every depth; the branches, the sub-repositories and the file
    tombstones come back made, with the same entries; the rank comes back
    as the uint16 it is; the commit date is what the timestamp gives back;
    every other field is kept. *)
Theorem Repository_roundtrip (r : option api.Repository.t) :
  (Repository_ToProto r = None <-> r = None)
  /\ RepositoryFromProto (Repository_ToProto r)
     = from_option Repository_made emptyRepository r
  /\ (forall q, r = Some q -> 0 <= api.Repository.Rank q < 2^16 ->
      api.Repository.Rank (RepositoryFromProto (Repository_ToProto r))
      = api.Repository.Rank q).
Proof.
  split; [| split].
  - by destruct r.
  - destruct r as [r |]; simpl; [| reflexivity].
    apply (Repository_back (S (depth r))). lia.
  - intros q -> Hrank. simpl.
    rewrite (Repository_back (S (depth q))) by lia.
    rewrite Repository_made_eq. simpl. unfold uint16.
    by apply Z.mod_small.
Qed.

End RepositoryProperties.

(** ** Repository lists *)

Section RepoListProperties.
Context `{GoArch} `{WellKnown} `{Enums} `{MapRange} `{RangeOrder}.

Lemma IndexMetadata_roundtrip (m : api.IndexMetadata.t) :
  isInt (api.IndexMetadata.IndexFormatVersion m) ->
  isInt (api.IndexMetadata.IndexFeatureVersion m) ->
  isInt (api.IndexMetadata.IndexMinReaderVersion m) ->
  IndexMetadataFromProto (IndexMetadata_ToProto (Some m)) = IndexMetadata_made m.
Proof.
  intros Hformat Hfeature Hreader.
  unfold IndexMetadataFromProto, IndexMetadata_ToProto, IndexMetadata_made.
  simpl. rewrite !Go_int_int64 by assumption. f_equal. f_equal.
  rewrite (range_fmap uint16 _ _ (rangeMap_perm _)).
  destruct (api.IndexMetadata.LanguageMap m) as [languages |]; simpl.
  - rewrite (range_fmap GoInt.uint32 _ _ (rangeMap_perm _)).
    rewrite <- map_fmap_compose. apply map_fmap_ext.
    intros language id _. apply uint16_uint32.
  - by rewrite !fmap_empty.
Qed.

Lemma RepoStats_roundtrip (s : api.RepoStats.t) :
  RepoStats_ints s ->
  RepoStatsFromProto (Some (RepoStats_ToProto s)) = s.
Proof.
  intros (Hrepos & Hshards & Hdocs). destruct s.
  unfold RepoStatsFromProto, RepoStats_ToProto. simpl in *.
  by rewrite !Go_int_int64 by assumption.
Qed.

(** X19.  An entry of a repository list that goes to the wire and back: nil
    stays nil; otherwise the repository comes back made at every depth, the
    statistics as they were, and the index metadata with its
    versions kept, on both widths of int, its index time as the timestamp
    gives it back and its language map made, with every language and its ID
    kept as the uint16 it is. *)
Theorem RepoListEntry_roundtrip (e : option api.RepoListEntry.t) :
  from_option RepoListEntry_ints True e ->
  RepoListEntryFromProto (RepoListEntry_ToProto e) = RepoListEntry_made <$> e.
Proof.
  destruct e as [e |]; [| reflexivity]. simpl.
  intros (Hformat & Hfeature & Hreader & Hstats).
  unfold RepoListEntry_made. f_equal. f_equal.
  - apply (Repository_back (S (depth (api.RepoListEntry.Repository e)))).
    lia.
  - by apply IndexMetadata_roundtrip.
  - by apply RepoStats_roundtrip.
Qed.

Lemma MinimalRepoListEntry_roundtrip (m : api.MinimalRepoListEntry.t) :
  MinimalRepoListEntryFromProto (Some (MinimalRepoListEntry_ToProto m))
  = MinimalRepoListEntry_made m.
Proof.
  unfold MinimalRepoListEntryFromProto, MinimalRepoListEntry_ToProto,
    MinimalRepoListEntry_made, made.
  simpl. by rewrite branches_roundtrip.
Qed.

Lemma minimalStep_panicked (msg : string)
  (l : list (Z * option api.MinimalRepoListEntry.t)) :
  foldl minimalStep (Panics msg) l = Panics msg.
Proof. induction l as [| [id repo] l IH]; simpl; [reflexivity | exact IH]. Qed.

Lemma minimalStep_panics (l : list (Z * option api.MinimalRepoListEntry.t))
  (acc : gmap Z (option v1.MinimalRepoListEntry.t)) :
  Exists (fun entry => entry.2 = None) l ->
  foldl minimalStep (Returns acc) l
  = Panics "invalid memory address or nil pointer dereference".
Proof.
  revert acc. induction l as [| [id repo] l IH]; intros acc Hnil.
  - by apply Exists_nil in Hnil.
  - simpl. destruct repo as [repo |].
    + apply IH. apply Exists_cons in Hnil as [Hhead | Htail]; [done | exact Htail].
    + apply minimalStep_panicked.
Qed.

Lemma minimalStep_returns (l : list (Z * option api.MinimalRepoListEntry.t))
  (acc : gmap Z (option v1.MinimalRepoListEntry.t)) :
  Forall (fun entry => entry.2 <> None) l ->
  foldl minimalStep (Returns acc) l
  = Returns (foldl (fun acc '(id, repo) =>
                      <[ id := MinimalRepoListEntry_ToProto <$> repo ]> acc)
                   acc l).
Proof.
  revert acc. induction l as [| [id repo] l IH]; intros acc Hall.
  - reflexivity.
  - apply Forall_cons in Hall as [Hhead Htail]. simpl in *.
    destruct repo as [repo |]; [| done]. by apply IH.
Qed.

(** X20.  [RepoList.ToProto] panics exactly when [Minimal] holds a nil
    entry.  When it returns, the message has no [Repos], whatever the list
    held; so a repository list that goes to the wire and back has lost its
    [Repos], and keeps its crashes and statistics and, with the branches
    made, the entries of [ReposMap] and [Minimal]. *)
Theorem RepoList_ToProto_outcome (r : api.RepoList.t) :
  ((exists id, default ∅ (api.RepoList.Minimal r) !! id = Some None) ->
   RepoList_ToProto r
   = Panics "invalid memory address or nil pointer dereference")
  /\ ((forall id, default ∅ (api.RepoList.Minimal r) !! id <> Some None) ->
      exists p,
        RepoList_ToProto r = Returns p
        /\ v1.ListResponse.Repos p = Some []
        /\ (isInt (api.RepoList.Crashes r) ->
            RepoStats_ints (api.RepoList.Stats r) ->
            RepoListFromProto (Some p) = RepoList_made r)).
Proof.
  unfold RepoList_ToProto. split.
  - intros [id Hnil]. rewrite minimalStep_panics; [reflexivity |].
    apply Exists_exists. exists (id, None). split; [| reflexivity].
    rewrite rangeOver_perm. by apply elem_of_map_to_list.
  - intros Hsome. rewrite minimalStep_returns.
    + eexists. split; [reflexivity |]. split; [reflexivity |].
      intros Hcrashes Hstats.
      unfold RepoListFromProto, RepoList_made. simpl.
      rewrite Go_int_int64, RepoStats_roundtrip by assumption.
      rewrite !rangeOver_fmap.
      rewrite <- !map_fmap_compose. f_equal.
      * f_equal. apply map_fmap_ext. intros id repo _. simpl.
        apply MinimalRepoListEntry_roundtrip.
      * f_equal. apply map_fmap_ext. intros id repo Hrepo. simpl.
        destruct repo as [repo |]; simpl.
        -- by rewrite MinimalRepoListEntry_roundtrip.
        -- by apply Hsome in Hrepo.
    + apply Forall_forall. intros [id repo] Hin. simpl.
      rewrite rangeOver_perm in Hin. apply elem_of_map_to_list in Hin.
      intros ->. by apply Hsome in Hin.
Qed.

(** ** Options *)

Lemma RepoListField_named (field : Z) :
  namedRepoListField field ->
  ListOptionsFromProto
    (ListOptions_ToProto (Some {| api.ListOptions.Field := field;
                                  api.ListOptions.Minimal := false |}))
  = Some {| api.ListOptions.Field := field; api.ListOptions.Minimal := false |}.
Proof.
  unfold namedRepoListField.
  pose proof (NoDup3 _ _ _ RepoListField_cases) as Hgo.
  pose proof (NoDup3 _ _ _ v1_RepoListField_cases) as Hv1.
  rewrite !elem_of_cons, elem_of_nil. intros Hfield.
  destruct Hfield as [-> | [-> | [-> | []]]];
    unfold ListOptions_ToProto; simpl; switch;
    unfold ListOptionsFromProto; simpl; switch; reflexivity.
Qed.

(** X21.  List options that go to the wire and back: nil stays nil, and
    options whose field is one of the three named ones come back as they
    were.  For every other field the message carries the field 0. *)
Theorem ListOptions_roundtrip (l : option api.ListOptions.t) :
  (from_option (fun l => namedRepoListField (api.ListOptions.Field l)) True l ->
   ListOptionsFromProto (ListOptions_ToProto l) = l)
  /\ (forall o, l = Some o ->
      ~ namedRepoListField (api.ListOptions.Field o) ->
      ListOptions_ToProto l
      = Some {| v1.ListOptions.Field := 0;
                v1.ListOptions.Minimal := api.ListOptions.Minimal o |}).
Proof.
  split.
  - destruct l as [[field minimal] |]; [| reflexivity]. simpl. intros Hfield.
    pose proof (RepoListField_named field Hfield) as Hback.
    unfold ListOptionsFromProto, ListOptions_ToProto in *. simpl in *.
    injection Hback as Hback. by rewrite Hback.
  - intros o -> Hfield. unfold namedRepoListField in Hfield.
    rewrite !elem_of_cons, elem_of_nil in Hfield.
    unfold ListOptions_ToProto. switch. reflexivity.
Qed.

(** X22.  Search options that go to the wire and back: nil stays nil;
    otherwise every field is kept, on both widths of int, but [DebugScore]:
    [ToProto] puts it in the message and [SearchOptionsFromProto] does not
    read it, so the options it returns never ask for debug scores. *)
Theorem SearchOptions_roundtrip (s : option api.SearchOptions.t) :
  (from_option SearchOptions_ints True s ->
   SearchOptionsFromProto (SearchOptions_ToProto s) = withoutDebugScore <$> s)
  /\ (forall o, s = Some o ->
      getter v1.SearchOptions.DebugScore false (SearchOptions_ToProto s)
      = api.SearchOptions.DebugScore o)
  /\ (forall p o, SearchOptionsFromProto p = Some o ->
      api.SearchOptions.DebugScore o = false).
Proof.
  split; [| split].
  - destruct s as [s |]; [| reflexivity]. simpl. intros [Hints Hdurations].
    rewrite !Forall_cons in Hints. rewrite !Forall_cons in Hdurations.
    destruct Hints as (? & ? & ? & ? & ? & _).
    destruct Hdurations as (? & ? & _).
    unfold withoutDebugScore.
    by rewrite !Go_int_int64, !AsDuration_New by assumption.
  - by intros o ->.
  - intros [p |] o; [| done]. by intros [= <-].
Qed.

End RepoListProperties.

Lemma Repository_roundtrip_witness :
  api.Repository.Rank
    (RepositoryFromProto (Repository_ToProto (Some Runtime.withNilSubRepository)))
  = 7.
Proof.
  apply (proj2 (proj2 (Repository_roundtrip (Some Runtime.withNilSubRepository)))
           Runtime.withNilSubRepository eq_refl).
  simpl. lia.
Defined.

Lemma RepoListEntry_roundtrip_witness :
  RepoListEntryFromProto (RepoListEntry_ToProto (Some Runtime.oneEntry))
  = Some (RepoListEntry_made Runtime.oneEntry).
Proof.
  apply (RepoListEntry_roundtrip (Some Runtime.oneEntry)).
  repeat split; unfold isInt; simpl; lia.
Defined.

Lemma RepoList_ToProto_outcome_witness :
  RepoList_ToProto (Runtime.listOfOne None)
  = Panics "invalid memory address or nil pointer dereference".
Proof.
  apply (proj1 (RepoList_ToProto_outcome (Runtime.listOfOne None))).
  exists 3. reflexivity.
Defined.

Lemma ListOptions_roundtrip_witness :
  let l := Some {| api.ListOptions.Field := RepoListFieldReposMap;
                   api.ListOptions.Minimal := true |} in
  ListOptionsFromProto (ListOptions_ToProto l) = l.
Proof.
  cbv zeta. apply (proj1 (ListOptions_roundtrip (Some _))).
  simpl. unfold namedRepoListField. rewrite !elem_of_cons. tauto.
Defined.

Lemma SearchOptions_roundtrip_witness :
  SearchOptionsFromProto (SearchOptions_ToProto (Some Runtime.debugging))
  = Some (withoutDebugScore Runtime.debugging).
Proof.
  apply (proj1 (SearchOptions_roundtrip (Some Runtime.debugging))).
  split;
    repeat (apply Forall_cons; split;
            [unfold isInt; simpl; unfold Runtime.Second; lia |]);
    apply Forall_nil_2.
Defined.
